(** * Invoice reconciliation: the number parsers, the extractors of
      totals and of line items, and the reconciliation engine

    The definitions come first and follow the repository's layout:
    - [Py]: the part of the Python runtime the parsers rely on (text as
      sequences of code points, the character classes of [re] and [str],
      [float()], exceptions, loops);
    - [ReconcileExcel]: [parsers/reconcile_excel.py];
    - [InvoicePdf]: [parsers/invoice_pdf.py];
    - [NumericText], [ExtractedTotals], [ExtractedItems]: the notions the
      properties of the parsers and of the extractors are stated with, and
      [Examples]: the documents of the examples;
    - [App]: the tolerances of [app.py];
    - [Core]: the comparison engine [app.py] calls, [core/compare.py].

    The properties follow: [PyFacts], [ParserFacts], [TotalsFacts],
    [CoreFacts]; then, on the number parsers again, [TextFacts] and
    [ReadingFacts]; on the totals, [TotalsShapeFacts] and
    [TotalsOrderFacts]; on the line items, [PdfItemFacts] and
    [ExcelItemFacts]. *)

From Stdlib Require Import ZArith NArith QArith Qabs Qminmax Lia Lqa SpecFloat.
From Stdlib Require Import Permutation Sorted DecimalString.
From stdpp Require Import base option list gmap strings.

(* ===================================================================== *)
(** * The Python runtime                                                  *)
(* ===================================================================== *)

Module Py.

(** ** Text

    A Python [str] is a sequence of Unicode code points. *)

Definition char := N.
Definition str := list char.

(** An ASCII literal, one code point per character. *)
Definition lit (s : string) : str :=
  map Ascii.N_of_ascii (String.list_ascii_of_string s).

Definition NEWLINE : char := 10%N.
Definition SPACE : char := 32%N.
Definition PERCENT : char := 37%N.
Definition PLUS : char := 43%N.
Definition COMMA : char := 44%N.
Definition MINUS : char := 45%N.
Definition DOT : char := 46%N.

Definition between (lo hi c : N) : bool := ((lo <=? c) && (c <=? hi))%N.

Definition char_in (cs : list char) (c : char) : bool :=
  existsb (N.eqb c) cs.

(** [str.isspace] on one character; [str.strip] and the class [\s] of
    [re] on [str] patterns use the same set. *)
Definition isspace (c : char) : bool :=
  between 0x09 0x0D c || between 0x1C 0x20 c
  || char_in [0x85; 0xA0; 0x1680]%N c
  || between 0x2000 0x200A c
  || char_in [0x2028; 0x2029; 0x202F; 0x205F; 0x3000]%N c.

(** The code points of the digit zero of every script of the Unicode
    category Nd (Unicode 14.0, the table of CPython 3.11); the digits one
    to nine of a script follow its zero. *)
Definition decimal_zeros : list N :=
  [ 0x30; 0x660; 0x6F0; 0x7C0; 0x966; 0x9E6; 0xA66; 0xAE6; 0xB66; 0xBE6;
    0xC66; 0xCE6; 0xD66; 0xDE6; 0xE50; 0xED0; 0xF20; 0x1040; 0x1090;
    0x17E0; 0x1810; 0x1946; 0x19D0; 0x1A80; 0x1A90; 0x1B50; 0x1BB0;
    0x1C40; 0x1C50; 0xA620; 0xA8D0; 0xA900; 0xA9D0; 0xA9F0; 0xAA50;
    0xABF0; 0xFF10; 0x104A0; 0x10D30; 0x11066; 0x110F0; 0x11136; 0x111D0;
    0x112F0; 0x11450; 0x114D0; 0x11650; 0x116C0; 0x11730; 0x118E0;
    0x11950; 0x11C50; 0x11D50; 0x11DA0; 0x16A60; 0x16AC0; 0x16B50;
    0x1D7CE; 0x1D7D8; 0x1D7E2; 0x1D7EC; 0x1D7F6; 0x1E140; 0x1E2F0;
    0x1E950; 0x1FBF0 ]%N.

(** The value of a decimal digit ([unicodedata.decimal]), if [c] is one. *)
Definition decimal (c : char) : option N :=
  match find (fun z => between z (z + 9) c) decimal_zeros with
  | Some z => Some (c - z)%N
  | None => None
  end.

(** [str.isdecimal] on one character, and the class [\d] of [re]. *)
Definition isdecimal (c : char) : bool :=
  match decimal c with Some _ => true | None => false end.

(** The class [[0-9]]. *)
Definition isdigit09 (c : char) : bool := between 0x30 0x39 c.

(** The longest prefix of [s] inside a class, and what follows it. *)
Fixpoint take_while (cls : char -> bool) (s : str) : str :=
  match s with
  | c :: r => if cls c then c :: take_while cls r else []
  | [] => []
  end.
Fixpoint drop_while (cls : char -> bool) (s : str) : str :=
  match s with
  | c :: r => if cls c then drop_while cls r else s
  | [] => []
  end.

(** [s.lower()] for a text of Basic Latin characters, on which it maps
    the letters A to Z to a to z and nothing else. *)
Definition ascii_lower (s : str) : str :=
  map (fun c => if between 0x41 0x5A c then (c + 32)%N else c) s.

(** [s.strip()] *)
Definition lstrip (s : str) : str := drop_while isspace s.
Definition rstrip (s : str) : str := rev (drop_while isspace (rev s)).
Definition strip (s : str) : str := rstrip (lstrip s).

(** [s.count(c)] for a one-character [c]. *)
Definition count (c : char) (s : str) : nat :=
  length (List.filter (N.eqb c) s).

(** [c in s] for a one-character [c]. *)
Definition contains (c : char) (s : str) : bool := char_in s c.

(** [s.rfind(c)] for a one-character [c]: the index of the last
    occurrence, [-1] when there is none. *)
Fixpoint rfind_from (c : char) (s : str) (i last : Z) : Z :=
  match s with
  | [] => last
  | x :: r => rfind_from c r (i + 1) (if (x =? c)%N then i else last)
  end.
Definition rfind (c : char) (s : str) : Z := rfind_from c s 0 (-1).

(** [s.replace(old, new)] for a one-character [old]. *)
Definition replace (old : char) (new : str) (s : str) : str :=
  flat_map (fun x => if (x =? old)%N then new else [x]) s.

(** [re.sub(class, '', s)]: delete every character of a class. *)
Definition delete_class (cls : char -> bool) (s : str) : str :=
  List.filter (fun x => negb (cls x)) s.

(** [sub in s]: [sub] occurs in [s] as a contiguous run. *)
Fixpoint is_prefix (p s : str) : bool :=
  match p, s with
  | [], _ => true
  | a :: p', b :: s' => (a =? b)%N && is_prefix p' s'
  | _ :: _, [] => false
  end.
Fixpoint substring (sub s : str) : bool :=
  is_prefix sub s ||
  match s with
  | [] => false
  | _ :: r => substring sub r
  end.

(** [sep.join(parts)] for a one-character [sep]. *)
Fixpoint join (sep : char) (parts : list str) : str :=
  match parts with
  | [] => []
  | [w] => w
  | w :: ws => w ++ sep :: join sep ws
  end.

(** [s.split(sep)] for a one-character [sep]. *)
Fixpoint split (sep : char) (s : str) : list str :=
  match s with
  | [] => [[]]
  | c :: r =>
      if (c =? sep)%N then [] :: split sep r
      else match split sep r with
           | [] => [[c]]
           | w :: ws => (c :: w) :: ws
           end
  end.

(** [re.findall('[cls]+', s)]: the maximal runs of characters of a class,
    from left to right. *)
Fixpoint runs_from (cls : char -> bool) (s : str) (cur : str) : list str :=
  match s with
  | [] => match cur with [] => [] | _ => [rev cur] end
  | c :: r =>
      if cls c then runs_from cls r (c :: cur)
      else match cur with
           | [] => runs_from cls r []
           | _ => rev cur :: runs_from cls r []
           end
  end.
Definition findall_class (cls : char -> bool) (s : str) : list str :=
  runs_from cls s [].

(** ** Exceptions *)

Inductive exn := ValueError | OverflowError.

#[global] Instance exn_eq_dec : EqDecision exn.
Proof. solve_decision. Defined.

Inductive result (A : Type) :=
| Ok (a : A)
| Raise (e : exn).
Arguments Ok {A} a.
Arguments Raise {A} e.

Definition bind {A B} (r : result A) (k : A -> result B) : result B :=
  match r with
  | Ok a => k a
  | Raise e => Raise e
  end.

#[global] Instance result_bind : MBind result :=
  fun A B k r => bind r k.

(** [try: body / except E: handler], for one exception class [E]. *)
Definition try_except {A} (body : result A) (E : exn) (handler : result A)
  : result A :=
  match body with
  | Ok a => Ok a
  | Raise e => if decide (e = E) then handler else Raise e
  end.

(** A [for] loop over a list with a state, whose body may [break]. *)
Inductive flow (S : Type) :=
| Next (s : S)
| Break (s : S).
Arguments Next {S} s.
Arguments Break {S} s.

(** The state a turn of the loop leaves. *)
Definition state {S} (r : flow S) : S :=
  match r with Next s => s | Break s => s end.

Fixpoint for_loop {A S} (xs : list A) (body : A -> S -> result (flow S))
    (s : S) : result S :=
  match xs with
  | [] => Ok s
  | x :: r =>
      match body x s with
      | Ok (Next s') => for_loop r body s'
      | Ok (Break s') => Ok s'
      | Raise e => Raise e
      end
  end.

(** ** Numbers

    A Python [float] is an IEEE 754 binary64: [SpecFloat] with a 53 bit
    mantissa. *)

Definition prec : Z := 53.
Definition emax : Z := 1024.

Definition float := spec_float.

Inductive number :=
| Int (z : Z)
| Float (f : float).

(** The values the parsers receive: a number or a text. *)
Inductive value :=
| Num (n : number)
| Str (s : str).

(** The float nearest to [m / 10^k] (ties to even), signed: what
    [float()] returns for the decimal literal with digits [m] of which the
    last [k] follow the point. *)
Definition float_of_decimal (neg : bool) (m : N) (k : nat) : float :=
  match m with
  | N0 => S754_zero neg
  | Npos p =>
      let '(q, e, l) :=
        SFdiv_core_binary prec emax (Zpos p) 0 (10 ^ Z.of_nat k) 0 in
      binary_round_aux prec emax neg q e l
  end.

(** [float(z)] for an [int]: the nearest float, [OverflowError] beyond the
    range. *)
Definition float_of_int (z : Z) : result float :=
  match binary_normalize prec emax z 0 false with
  | S754_infinity _ => Raise OverflowError
  | f => Ok f
  end.

(** The digits of a text made of decimal digits only. *)
Fixpoint digits (s : str) : option (list N) :=
  match s with
  | [] => Some []
  | c :: r =>
      match decimal c, digits r with
      | Some d, Some ds => Some (d :: ds)
      | _, _ => None
      end
  end.

Definition number_of_digits (ds : list N) : N :=
  fold_left (fun acc d => 10 * acc + d)%N ds 0%N.

(** [float(s)] on an unsigned literal: digits with at most one point and
    at least one digit. *)
Definition float_of_unsigned (neg : bool) (s : str) : result float :=
  let ip := take_while isdecimal s in
  match digits ip, drop_while isdecimal s with
  | Some ds, [] =>
      match ds with
      | [] => Raise ValueError
      | _ => Ok (float_of_decimal neg (number_of_digits ds) 0)
      end
  | Some ds, c :: fp =>
      if (c =? DOT)%N then
        match digits fp with
        | Some fs =>
            match ds ++ fs with
            | [] => Raise ValueError
            | all => Ok (float_of_decimal neg (number_of_digits all)
                                          (length fs))
            end
        | None => Raise ValueError
        end
      else Raise ValueError
  | None, _ => Raise ValueError
  end.

(** [float(s)] for the texts the parsers pass to it, which are made of
    signs, decimal digits, points and commas: no exponent, [inf], [nan],
    underscore or blank reaches [float()] from this code (lemmas
    [float_argument_excel] and [float_argument_pdf]).  On such a text
    [float()] accepts an optional sign followed by an unsigned literal and
    raises [ValueError] on anything else. *)
Definition float_of_str (s : str) : result float :=
  match s with
  | c :: r =>
      if (c =? MINUS)%N then float_of_unsigned true r
      else if (c =? PLUS)%N then float_of_unsigned false r
      else float_of_unsigned false s
  | [] => Raise ValueError
  end.

(** [float(x)] for a number. *)
Definition float_of_num (n : number) : result float :=
  match n with
  | Int z => float_of_int z
  | Float f => Ok f
  end.

(** ** Comparison of numbers

    Python compares an [int] with a [float] exactly. *)

Definition compare_int_float (z : Z) (f : float) : option comparison :=
  match f with
  | S754_nan => None
  | S754_infinity s => Some (if s then Gt else Lt)
  | S754_zero _ => Some (z ?= 0)%Z
  | S754_finite s m e =>
      let v := cond_Zopp s (Zpos m) in
      Some (if (0 <=? e)%Z then (z ?= v * 2 ^ e)%Z
            else (z * 2 ^ (- e) ?= v)%Z)
  end.

Definition compare (a b : number) : option comparison :=
  match a, b with
  | Int x, Int y => Some (x ?= y)%Z
  | Float x, Float y => SFcompare x y
  | Int x, Float y => compare_int_float x y
  | Float x, Int y => option_map CompOpp (compare_int_float y x)
  end.

(** [a < b], [a > b], [a == b] *)
Definition lt (a b : number) : bool :=
  match compare a b with Some Lt => true | _ => false end.
Definition gt (a b : number) : bool := lt b a.
Definition eq (a b : number) : bool :=
  match compare a b with Some Eq => true | _ => false end.

(** [max(a, b)]: the first of the two unless the second is greater. *)
Definition max (a b : number) : number := if gt b a then b else a.

End Py.

(* ===================================================================== *)
(** * parsers/reconcile_excel.py                                          *)
(* ===================================================================== *)

Module ReconcileExcel.
Import Py.

(** The class [[₫đvnd\s]] under [re.IGNORECASE]: the dong sign, d with
    stroke in both cases, the letters v, n, d in both cases, and the
    blanks. *)
Definition currency_or_space (c : char) : bool :=
  char_in [0x20AB; 0x111; 0x110; 0x76; 0x56; 0x6E; 0x4E; 0x64; 0x44]%N c
  || isspace c.

(** The class [[\d.]]. *)
Definition digit_or_dot (c : char) : bool := isdecimal c || (c =? DOT)%N.

(** [re.search(r'-?[\d.]+', s)]: the leftmost match, which is the first
    run of digits and points together with a minus sign right before it. *)
Fixpoint search_number (s : str) : option str :=
  match s with
  | [] => None
  | c :: r =>
      if digit_or_dot c then Some (take_while digit_or_dot s)
      else if (c =? MINUS)%N
              && match r with d :: _ => digit_or_dot d | [] => false end
      then Some (c :: take_while digit_or_dot r)
      else search_number r
  end.

(** The text handed to the regular expression: blanks and currency marks
    removed, separators rewritten. *)
Definition separators_resolved (value_str : str) : str :=
  let dot_count := count DOT value_str in
  let comma_count := count COMMA value_str in
  if (1 <? dot_count)
     || ((dot_count =? 1) && (comma_count =? 1)
         && (rfind COMMA value_str <? rfind DOT value_str)%Z)
  then replace COMMA [DOT] (replace DOT [] value_str)
  else if 1 <? comma_count
  then replace COMMA [] value_str
  else value_str.

Definition cleaned (s : str) : str :=
  separators_resolved (delete_class currency_or_space (strip s)).

(** The end of [_parse_number]: the number found in the cleaned text,
    0 when there is none or [float()] rejects it. *)
Definition extract_number (value_str : str) : result number :=
  match search_number value_str with
  | Some m =>
      try_except (f ← float_of_str m; Ok (Float f)) ValueError (Ok (Int 0))
  | None => Ok (Int 0)
  end.

Definition _parse_number (value : value) : result number :=
  match value with
  | Num n => f ← float_of_num n; Ok (Float f)
  | Str s => extract_number (cleaned s)
  end.

Definition _parse_money (value : value) : result number :=
  _parse_number value.

(** ** Totals *)

(** A cell of the sheet: a value, or nothing for an empty cell. *)
Definition cell := option value.

(** [pd.notna]: an empty cell and a NaN are missing values. *)
Definition notna (c : cell) : bool :=
  match c with
  | None => false
  | Some (Num (Float S754_nan)) => false
  | Some _ => true
  end.

(** The patterns of [_extract_totals]: alternatives, each a sequence of
    literal words separated by [\s*]. *)
Definition pattern := list (list str).

(** The words of one alternative match at the start of [s].  No word
    starts with a blank, so the blanks that [\s*] takes are all those that
    follow the previous word. *)
Fixpoint match_words (ws : list str) (s : str) : bool :=
  match ws with
  | [] => true
  | w :: ws' =>
      is_prefix w s
      && match ws' with
         | [] => true
         | _ => match_words ws' (drop_while isspace (drop (length w) s))
         end
  end.

(** [re.search(pattern, s)] as a truth value. *)
Fixpoint search (p : pattern) (s : str) : bool :=
  existsb (fun ws => match_words ws s) p
  || match s with
     | [] => false
     | _ :: r => search p r
     end.

(** thuế, tiền, tổng, trước, toán, cộng *)
Definition thue : str := lit "thu" ++ [0x1EBF%N].
Definition tien : str := lit "ti" ++ [0x1EC1%N] ++ lit "n".
Definition tong : str := lit "t" ++ [0x1ED5%N] ++ lit "ng".
Definition truoc : str := lit "tr" ++ [0x1B0; 0x1EDB]%N ++ lit "c".
Definition toan : str := lit "to" ++ [0xE1%N] ++ lit "n".
Definition cong : str := lit "c" ++ [0x1ED9%N] ++ lit "ng".

Definition vat_rate_pattern : pattern :=
  [ [thue; lit "vat"]; [lit "vat"; lit "rate"]; [[PERCENT]; lit "vat"] ].
Definition vat_amount_pattern : pattern :=
  [ [tien; thue]; [lit "vat"; lit "amount"] ].
Definition before_tax_pattern : pattern :=
  [ [tong; truoc; thue]; [lit "before"; lit "tax"]; [lit "subtotal"] ].
Definition payment_pattern : pattern :=
  [ [tong; lit "thanh"; toan]; [lit "total"; lit "payment"];
    [lit "grand"; lit "total"]; [tong; cong] ].

(** [str(z)] for an [int]. *)
Definition str_of_int (z : Z) : str :=
  lit (DecimalString.NilZero.string_of_int (Z.to_int z)).

Section Totals.
(** [str.lower], which follows the case tables of the Unicode database
    of the runtime, and [str(f)] for a [float], its shortest
    representation. *)
Variable lower : str -> str.
Variable str_of_float : float -> str.

Definition str_of_value (v : value) : str :=
  match v with
  | Str s => s
  | Num (Int z) => str_of_int z
  | Num (Float f) => str_of_float f
  end.

(** [' '.join([str(cell).lower() for cell in row if pd.notna(cell)])] *)
Definition row_text (row : list cell) : str :=
  join SPACE
    (omap (fun c => if notna c then lower ∘ str_of_value <$> c else None)
          row).

Definition vat_rate_step (c : cell) (totals : gmap string number)
  : result (flow (gmap string number)) :=
  match c with
  | Some (Num n) =>
      if notna c && (lt (Int 0) n && lt n (Int 100))
      then Ok (Break (<["vat_rate" := n]> totals))
      else Ok (Next totals)
  | _ => Ok (Next totals)
  end.

(** The three loops that keep the first cell with a positive amount. *)
Definition money_step (key : string) (c : cell)
    (totals : gmap string number) : result (flow (gmap string number)) :=
  match c with
  | Some v =>
      if notna c then
        val ← _parse_money v;
        if gt val (Int 0)
        then Ok (Break (<[key := val]> totals))
        else Ok (Next totals)
      else Ok (Next totals)
  | None => Ok (Next totals)
  end.

Definition row_step (row : list cell) (totals : gmap string number)
  : result (flow (gmap string number)) :=
  let row_str := row_text row in
  totals ←
    (if search vat_rate_pattern row_str
     then for_loop row vat_rate_step totals
     else Ok totals);
  totals ←
    (if search vat_amount_pattern row_str
     then for_loop row (money_step "vat_amount") totals
     else Ok totals);
  totals ←
    (if search before_tax_pattern row_str
     then for_loop row (money_step "total_before_tax") totals
     else Ok totals);
  totals ←
    (if search payment_pattern row_str
     then for_loop row (money_step "total_payment") totals
     else Ok totals);
  Ok (Next totals).

(** The sheet is the list of its rows, as [df.iterrows()] yields them. *)
Definition _extract_totals (df : list (list cell))
  : result (gmap string number) :=
  for_loop df row_step ∅.
End Totals.

(** ** Line items *)

(** loại, sản, phẩm, tên, mệnh, giá, số, lượng, thành, chiết, khấu, giảm *)
Definition loai : str := lit "lo" ++ [0x1EA1%N] ++ lit "i".
Definition san : str := lit "s" ++ [0x1EA3%N] ++ lit "n".
Definition pham : str := lit "ph" ++ [0x1EA9%N] ++ lit "m".
Definition ten : str := lit "t" ++ [0xEA%N] ++ lit "n".
Definition menh : str := lit "m" ++ [0x1EC7%N] ++ lit "nh".
Definition gia : str := lit "gi" ++ [0xE1%N].
Definition so : str := lit "s" ++ [0x1ED1%N].
Definition luong : str := lit "l" ++ [0x1B0; 0x1EE3]%N ++ lit "ng".
Definition thanh : str := lit "th" ++ [0xE0%N] ++ lit "nh".
Definition chiet : str := lit "chi" ++ [0x1EBF%N] ++ lit "t".
Definition khau : str := lit "kh" ++ [0x1EA5%N] ++ lit "u".
Definition giam : str := lit "gi" ++ [0x1EA3%N] ++ lit "m".
(** tổng cộng, with one space *)
Definition tong_cong : str := tong ++ SPACE :: cong.

(** The patterns of [_extract_line_items_from_sheet], of [_map_columns]
    and of [_is_summary_row]. *)
Definition header_patterns : list pattern :=
  [ [[loai; san; pham]]; [[menh; gia]]; [[so; luong]]; [[thanh; tien]] ].
Definition product_pattern : pattern := [ [loai]; [san; pham]; [ten] ].
Definition denomination_pattern : pattern :=
  [ [menh; gia]; [lit "denomination"] ].
Definition quantity_pattern : pattern := [ [so; luong]; [lit "quantity"] ].
Definition amount_pattern : pattern :=
  [ [thanh; tien]; [lit "amount"]; [tong] ].
Definition discount_pattern : pattern :=
  [ [chiet; khau]; [lit "discount"]; [giam; gia] ].
Definition summary_patterns : list pattern :=
  [ [[tong; cong]]; [[tong; lit "thanh"; toan]]; [[thue; lit "vat"]];
    [[lit "grand"; lit "total"]]; [[lit "total"; lit "payment"]] ].

(** A line item, the dict [_extract_item] returns. *)
Record item := {
  product_type : str;
  denomination : number;
  quantity : number;
  amount : number;
  discount : number
}.

(** [enumerate(xs)] *)
Fixpoint enumerate_from {A} (i : nat) (xs : list A) : list (nat * A) :=
  match xs with
  | [] => []
  | x :: r => (i, x) :: enumerate_from (S i) r
  end.
Definition enumerate {A} (xs : list A) : list (nat * A) :=
  enumerate_from 0 xs.

(** The exceptions of this part: an access by position outside a row or
    a sheet, and those of the runtime functions. *)
Inductive error :=
| IndexError
| Builtin (e : exn).

(** [raise Exception(f"Error parsing reconciliation Excel: {str(e)}")] *)
Inductive failure := Exception (cause : error).

Section LineItems.
Variable lower : str -> str.
Variable str_of_float : float -> str.

(** [str(cell)]; pandas holds an empty cell as NaN. *)
Definition str_of_cell (c : cell) : str :=
  match c with
  | Some v => str_of_value str_of_float v
  | None => str_of_float S754_nan
  end.

(** One turn of the loop of [_map_columns]: the [if]/[elif] chain. *)
Definition column_step (column_map : gmap string nat) (column : nat * cell)
  : gmap string nat :=
  let '(idx, c) := column in
  let cell_str := strip (lower (str_of_cell c)) in
  if search product_pattern cell_str
  then <["product" := idx]> column_map
  else if search denomination_pattern cell_str
  then <["denomination" := idx]> column_map
  else if search quantity_pattern cell_str
  then <["quantity" := idx]> column_map
  else if search amount_pattern cell_str
          && negb (substring tong_cong cell_str)
  then <["amount" := idx]> column_map
  else if search discount_pattern cell_str
  then <["discount" := idx]> column_map
  else column_map.

Definition _map_columns (header_row : list cell) : gmap string nat :=
  fold_left column_step (enumerate header_row) ∅.

(** [row.notna().sum() <= 1] *)
Definition _is_empty_row (row : list cell) : bool :=
  length (List.filter notna row) <=? 1.

Definition _is_summary_row (row : list cell) : bool :=
  let row_str := row_text lower str_of_float row in
  existsb (fun p => search p row_str) summary_patterns.

(** Inside [_extract_item] every exception ends in [return None],
    whatever its class: its body runs in [option], where [None] stands
    for an exception raised. *)
Definition caught {A} (r : result A) : option A :=
  match r with
  | Ok a => Some a
  | Raise _ => None
  end.

(** [row[column_map[key]] if key in column_map else 0]; the access
    raises outside the row. *)
Definition column_or_zero (key : string) (row : list cell)
    (column_map : gmap string nat) : option cell :=
  match column_map !! key with
  | Some idx => row !! idx
  | None => Some (Some (Num (Int 0)))
  end.

(** [parse(x) if pd.notna(x) else 0] *)
Definition parsed_or_zero (parse : value -> result number) (c : cell)
  : option number :=
  match c with
  | Some v => if notna c then caught (parse v) else Some (Int 0)
  | None => Some (Int 0)
  end.

(** The body of the [try] of [_extract_item]: [Some None] is its
    [return None], [Some (Some item)] its [return] of a dict.
    [pd.isna(product)] is false, [product] being a [str]. *)
Definition item_of_row (row : list cell) (column_map : gmap string nat)
  : option (option item) :=
  product ←
    match column_map !! "product" with
    | Some idx => str_of_cell <$> row !! idx
    | None => Some []
    end;
  denomination ← column_or_zero "denomination" row column_map;
  quantity ← column_or_zero "quantity" row column_map;
  amount ← column_or_zero "amount" row column_map;
  if bool_decide (strip product = [])
     || bool_decide (product = lit "nan")
  then Some None
  else
    denomination ← parsed_or_zero _parse_number denomination;
    quantity ← parsed_or_zero _parse_number quantity;
    amount ← parsed_or_zero _parse_money amount;
    discount ←
      match column_map !! "discount" with
      | Some idx =>
          discount_val ← row !! idx;
          parsed_or_zero _parse_money discount_val
      | None => Some (Int 0)
      end;
    Some (Some {| product_type := strip product;
                  denomination := denomination;
                  quantity := quantity;
                  amount := amount;
                  discount := discount |}).

(** [try: ... except Exception: return None] *)
Definition _extract_item (row : list cell) (column_map : gmap string nat)
  : option item :=
  match item_of_row row column_map with
  | Some r => r
  | None => None
  end.

(** The loop of [_extract_section] over the rows that follow the header,
    which stops at the first empty row or summary row. *)
Fixpoint data_rows (column_map : gmap string nat) (rows : list (list cell))
    (items : list item) : list item :=
  match rows with
  | [] => items
  | row :: rest =>
      if _is_empty_row row || _is_summary_row row then items
      else match _extract_item row column_map with
           | Some item => data_rows column_map rest (items ++ [item])
           | None => data_rows column_map rest items
           end
  end.

Definition _extract_section (df : list (list cell)) (header_idx : nat)
  : error + list item :=
  match df !! header_idx with
  | None => inl IndexError
  | Some header_row =>
      let column_map := _map_columns header_row in
      if bool_decide (column_map = ∅) then inr []
      else inr (data_rows column_map (drop (S header_idx) df) [])
  end.

(** A row in which one of the header patterns is found. *)
Definition is_header (row : list cell) : bool :=
  let row_str := row_text lower str_of_float row in
  existsb (fun p => search p row_str) header_patterns.

Definition potential_headers (df : list (list cell)) : list nat :=
  fst <$> List.filter (fun r => is_header (snd r)) (enumerate df).

(** The loop over the header rows. *)
Fixpoint sections (df : list (list cell)) (headers : list nat)
    (line_items : list item) : error + list item :=
  match headers with
  | [] => inr line_items
  | header_idx :: rest =>
      match _extract_section df header_idx with
      | inr items => sections df rest (line_items ++ items)
      | inl e => inl e
      end
  end.

Definition _extract_line_items_from_sheet (df : list (list cell))
  : error + list item * gmap string number :=
  match sections df (potential_headers df) [] with
  | inr line_items =>
      match _extract_totals lower str_of_float df with
      | Ok totals => inr (line_items, totals)
      | Raise e => inl (Builtin e)
      end
  | inl e => inl e
  end.

(** The loop of [parse_reconciliation_excel] over the sheets of the
    workbook, each as [pd.read_excel] returns it. *)
Fixpoint sheets_loop (sheets : list (list (list cell)))
    (all_line_items : list item) (totals : gmap string number)
  : error + list item * gmap string number :=
  match sheets with
  | [] => inr (all_line_items, totals)
  | df :: rest =>
      match _extract_line_items_from_sheet df with
      | inr (items, sheet_totals) =>
          sheets_loop rest (all_line_items ++ items)
            (if bool_decide (sheet_totals = ∅) then totals
             else sheet_totals ∪ totals)
      | inl e => inl e
      end
  end.

(** The line items are returned as the rows of a DataFrame, here their
    list; any exception is raised again as an [Exception]. *)
Definition parse_reconciliation_excel (sheets : list (list (list cell)))
  : failure + list item * gmap string number :=
  match sheets_loop sheets [] ∅ with
  | inr r => inr r
  | inl e => inl (Exception e)
  end.
End LineItems.

End ReconcileExcel.


(* ===================================================================== *)
(** * parsers/invoice_pdf.py                                              *)
(* ===================================================================== *)

Module InvoicePdf.
Import Py.

(** The class [[0-9.,-]], whose complement [re.sub] deletes. *)
Definition numeric_char (c : char) : bool :=
  isdigit09 c || (c =? DOT)%N || (c =? COMMA)%N || (c =? MINUS)%N.

(** The class [[\d.,]]. *)
Definition digit_dot_comma (c : char) : bool :=
  isdecimal c || (c =? DOT)%N || (c =? COMMA)%N.

Definition separators_resolved (value_str : str) : str :=
  if contains DOT value_str && contains COMMA value_str then
    if (rfind COMMA value_str <? rfind DOT value_str)%Z
    then replace COMMA [DOT] (replace DOT [] value_str)
    else replace COMMA [] value_str
  else if 1 <? count DOT value_str then replace DOT [] value_str
  else if 1 <? count COMMA value_str then replace COMMA [] value_str
  else value_str.

Definition cleaned (s : str) : str :=
  separators_resolved
    (delete_class (fun c => negb (numeric_char c)) (strip s)).

(** The end of [_parse_number]: [float(value_str) if value_str else 0]
    under [try], 0 when [float()] rejects the text. *)
Definition convert (value_str : str) : result number :=
  try_except
    (match value_str with
     | [] => Ok (Int 0)
     | _ => f ← float_of_str value_str; Ok (Float f)
     end)
    ValueError (Ok (Int 0)).

Definition _parse_number (value : value) : result number :=
  match value with
  | Num n => f ← float_of_num n; Ok (Float f)
  | Str s => convert (cleaned s)
  end.

Section Totals.
(** [str.lower], which follows the case tables of the Unicode database
    of the runtime. *)
Variable lower : str -> str.

(** thuế *)
Definition thue : str := lit "thu" ++ [0x1EBF%N].
(** tổng *)
Definition tong : str := lit "t" ++ [0x1ED5%N] ++ lit "ng".
(** tổng trước thuế *)
Definition tong_truoc_thue : str :=
  tong ++ lit " tr" ++ [0x1B0; 0x1EDB]%N ++ lit "c " ++ thue.
(** tổng thanh toán *)
Definition tong_thanh_toan : str :=
  tong ++ lit " thanh to" ++ [0xE1%N] ++ lit "n".
(** tổng cộng *)
Definition tong_cong : str := tong ++ lit " c" ++ [0x1ED9%N] ++ lit "ng".

Definition any_keyword (kws : list str) (line_lower : str) : bool :=
  existsb (fun kw => substring kw line_lower) kws.

Definition has_key (k : string) (totals : gmap string number) : bool :=
  bool_decide (is_Some (totals !! k)).

Definition vat_step (num : str) (totals : gmap string number)
  : result (flow (gmap string number)) :=
  val ← _parse_number (Str num);
  if lt (Int 0) val && lt val (Int 100)
     && negb (has_key "vat_rate" totals)
  then Ok (Next (<["vat_rate" := val]> totals))
  else if gt val (Int 100) && negb (has_key "vat_amount" totals)
  then Ok (Next (<["vat_amount" := val]> totals))
  else Ok (Next totals).

Definition before_tax_step (num : str) (totals : gmap string number)
  : result (flow (gmap string number)) :=
  val ← _parse_number (Str num);
  if gt val (Int 0)
  then Ok (Break (<["total_before_tax" := val]> totals))
  else Ok (Next totals).

Definition payment_step (num : str) (totals : gmap string number)
  : result (flow (gmap string number)) :=
  val ← _parse_number (Str num);
  if gt val (Int 0)
  then Ok (Next (<["total_payment" :=
                   max (default (Int 0) (totals !! "total_payment")) val]>
                 totals))
  else Ok (Next totals).

Definition line_step (line : str) (totals : gmap string number)
  : result (flow (gmap string number)) :=
  let line_lower := lower line in
  let numbers := findall_class digit_dot_comma line in
  totals ←
    (if substring (lit "vat") line_lower || substring thue line_lower
     then for_loop numbers vat_step totals
     else Ok totals);
  totals ←
    (if any_keyword [tong_truoc_thue; lit "subtotal"; lit "before tax"]
                    line_lower
     then for_loop numbers before_tax_step totals
     else Ok totals);
  totals ←
    (if any_keyword [tong_thanh_toan; tong_cong; lit "grand total";
                     lit "total payment"] line_lower
     then for_loop numbers payment_step totals
     else Ok totals);
  Ok (Next totals).

Definition extract_totals_from_text_content (text : str)
  : result (gmap string number) :=
  for_loop (split NEWLINE text) line_step ∅.
End Totals.

(** ** Line items *)

(** A line item, the dict [parse_line_item] returns. *)
Record item := {
  product_type : str;
  denomination : number;
  quantity : number;
  amount : number
}.

(** [[f(x) for x in xs]] *)
Fixpoint each {A B} (f : A -> result B) (xs : list A) : result (list B) :=
  match xs with
  | [] => Ok []
  | x :: r => y ← f x; ys ← each f r; Ok (y :: ys)
  end.

(** The text before the first match of [[\d.,]+], stripped; the whole
    line, stripped, when there is no match. *)
Definition product_of (line : str) : str :=
  if existsb digit_dot_comma line
  then strip (take_while (fun c => negb (digit_dot_comma c)) line)
  else strip line.

(** The last number is the amount, the one before it the quantity, the
    third from the end, if any, the denomination. *)
Definition parse_line_item (line : str) : result (option item) :=
  let numbers := findall_class digit_dot_comma line in
  if length numbers <? 2 then Ok None
  else
    parsed_numbers ← each (fun n => _parse_number (Str n)) numbers;
    let product := product_of line in
    if bool_decide (product = []) || (length product <? 2) then Ok None
    else
      Ok (Some
        match rev parsed_numbers with
        | amount :: quantity :: denomination :: _ =>
            {| product_type := product; denomination := denomination;
               quantity := quantity; amount := amount |}
        | amount :: quantity :: [] =>
            {| product_type := product; denomination := Int 0;
               quantity := quantity; amount := amount |}
        | _ =>
            {| product_type := product; denomination := Int 0;
               quantity := Int 0; amount := Int 0 |}
        end).

(** sản phẩm, số lượng, thành tiền *)
Definition san_pham : str :=
  lit "s" ++ [0x1EA3%N] ++ lit "n ph" ++ [0x1EA9%N] ++ lit "m".
Definition so_luong : str :=
  lit "s" ++ [0x1ED1%N] ++ lit " l" ++ [0x1B0; 0x1EE3]%N ++ lit "ng".
Definition thanh_tien : str :=
  lit "th" ++ [0xE0%N] ++ lit "nh ti" ++ [0x1EC1%N] ++ lit "n".

Definition header_keywords : list str :=
  [ san_pham; lit "product"; lit "item"; so_luong; lit "quantity";
    thanh_tien; lit "amount" ].
Definition summary_keywords : list str :=
  [ tong_cong; tong_thanh_toan; lit "total"; lit "vat"; thue ].

(** The state of the loop of [extract_line_items_from_text_content]. *)
Record table := {
  in_table : bool;
  header_found : bool;
  line_items : list item
}.

(** The letters of the class of [is_text_extractable] beside a-z and
    A-Z: the lower case Vietnamese vowels with their marks, and đ. *)
Definition vietnamese_letters : list char :=
  [ 0xE0; 0xE1; 0x1EA3; 0xE3; 0x1EA1; 0x103; 0x1EAF; 0x1EB1; 0x1EB3;
    0x1EB5; 0x1EB7; 0xE2; 0x1EA5; 0x1EA7; 0x1EA9; 0x1EAB; 0x1EAD; 0xE8;
    0xE9; 0x1EBB; 0x1EBD; 0x1EB9; 0xEA; 0x1EC1; 0x1EBF; 0x1EC3; 0x1EC5;
    0x1EC7; 0xEC; 0xED; 0x1EC9; 0x129; 0x1ECB; 0xF2; 0xF3; 0x1ECF; 0xF5;
    0x1ECD; 0xF4; 0x1ED1; 0x1ED3; 0x1ED5; 0x1ED7; 0x1ED9; 0x1A1; 0x1EDB;
    0x1EDD; 0x1EDF; 0x1EE1; 0x1EE3; 0xF9; 0xFA; 0x1EE7; 0x169; 0x1EE5;
    0x1B0; 0x1EE9; 0x1EEB; 0x1EED; 0x1EEF; 0x1EF1; 0x1EF3; 0xFD; 0x1EF7;
    0x1EF9; 0x1EF5; 0x111 ]%N.

Definition letter (c : char) : bool :=
  between 0x61 0x7A c || between 0x41 0x5A c || char_in vietnamese_letters c.

Section LineItems.
(** [str.lower], and the class [\w] of [re] on [str] patterns: the
    alphanumeric characters of the Unicode database of the runtime and
    the underscore.  Every character of [letter] is in it. *)
Variable lower : str -> str.
Variable isword : char -> bool.

Definition item_step (line : str) (st : table) : result (flow table) :=
  let line_lower := lower line in
  if negb (header_found st) && any_keyword header_keywords line_lower
  then Ok (Next {| in_table := true; header_found := true;
                   line_items := line_items st |})
  else if negb (in_table st) then Ok (Next st)
  else if any_keyword summary_keywords line_lower then Ok (Break st)
  else
    item ← parse_line_item line;
    match item with
    | Some item =>
        Ok (Next {| in_table := in_table st;
                    header_found := header_found st;
                    line_items := line_items st ++ [item] |})
    | None => Ok (Next st)
    end.

Definition extract_line_items_from_text_content (text : str)
  : result (list item) :=
  st ← for_loop (split NEWLINE text) item_step
         {| in_table := false; header_found := false; line_items := [] |};
  Ok (line_items st).

(** [re.findall(r'\b[letters]{3,}\b', s)], read from left to right:
    [prev] tells whether the character before is in [\w], [cur] is the
    run of letters being read, last letter first, when it began at a
    word boundary.  A run is a match when it has three letters or more
    and a word boundary follows it; inside a run there is no boundary,
    so no shorter match and no match that starts later in the run. *)
Fixpoint words_from (s : str) (prev : bool) (cur : option str)
  : list str :=
  match s with
  | [] =>
      match cur with
      | Some w => if 3 <=? length w then [rev w] else []
      | None => []
      end
  | c :: r =>
      if letter c then
        match cur with
        | Some w => words_from r true (Some (c :: w))
        | None =>
            if prev then words_from r true None
            else words_from r true (Some [c])
        end
      else
        match cur with
        | Some w =>
            if negb (isword c) && (3 <=? length w)
            then rev w :: words_from r (isword c) None
            else words_from r (isword c) None
        | None => words_from r (isword c) None
        end
  end.

Definition is_text_extractable (text : str) : bool :=
  let clean_text := strip text in
  if length clean_text <? 50 then false
  else
    let words := words_from clean_text false None in
    if length words <? 5 then false
    else true.
End LineItems.

End InvoicePdf.

(* ===================================================================== *)
(** * Numeric texts and their readings                                    *)
(* ===================================================================== *)

Module NumericText.
Import Py.

(** The optional sign of a numeric text. *)
Definition sign (neg : bool) : str := if neg then [MINUS] else [].

(** Texts made of the digits 0 to 9. *)
Definition digits_only (s : str) : Prop :=
  Forall (fun c => isdigit09 c = true) s.


(** The characters of a numeric text: digits, point, comma, minus. *)
Definition plain (c : char) : bool :=
  isdigit09 c || (c =? DOT)%N || (c =? COMMA)%N || (c =? MINUS)%N.

(** Digits and points. *)
Definition dotted (s : str) : Prop :=
  Forall (fun c => isdigit09 c = true \/ c = DOT) s.

(** No decimal digit of any script. *)
Definition digitless (s : str) : Prop :=
  Forall (fun c => isdecimal c = false) s.

(** The text once the separators are resolved: a separator that occurs
    twice or more is dropped, a single one stays. *)
Definition resolved (sep : char) (groups : list str) : str :=
  if 1 <? length groups - 1 then concat groups else join sep groups.


(** An optional sign and groups of digits joined by points, or by commas
    when there is not exactly one comma. *)
Definition same_separator (s : str) : Prop :=
  exists neg sep groups,
    Forall digits_only groups
    /\ (sep = DOT \/ (sep = COMMA /\ length groups <> 2))
    /\ s = sign neg ++ join sep groups.

End NumericText.

(* ===================================================================== *)
(** * What the extractors record                                          *)
(* ===================================================================== *)

Module ExtractedTotals.
Import Py.

(** Every recorded total is greater than zero. *)
Definition positive_totals (totals : gmap string number) : Prop :=
  forall k v, totals !! k = Some v -> gt v (Int 0) = true.

(** A key with this value is in the totals one of the two extractors
    returns for some document. *)
Definition recorded (lower : str -> str) (str_of_float : float -> str)
    (k : string) (v : number) : Prop :=
  (exists text totals,
      InvoicePdf.extract_totals_from_text_content lower text = Ok totals
      /\ totals !! k = Some v)
  \/ (exists df totals,
      ReconcileExcel._extract_totals lower str_of_float df = Ok totals
      /\ totals !! k = Some v).

(** Every number written in the text is zero or less, as the PDF
    extractor reads it. *)
Definition no_positive_number (text : str) : Prop :=
  forall line num,
    line ∈ split NEWLINE text ->
    num ∈ findall_class InvoicePdf.digit_dot_comma line ->
    exists val,
      InvoicePdf._parse_number (Str num) = Ok val /\ gt val (Int 0) = false.

(** Every cell of the sheet holds zero or less, as the Excel extractor
    reads it. *)
Definition no_positive_cell (df : list (list ReconcileExcel.cell)) : Prop :=
  forall row v,
    row ∈ df -> Some v ∈ row ->
    (exists val,
        ReconcileExcel._parse_money v = Ok val /\ gt val (Int 0) = false)
    /\ (forall n, v = Num n -> lt (Int 0) n = false).

End ExtractedTotals.

(* ===================================================================== *)
(** * Notions for the line items and for the totals                       *)
(* ===================================================================== *)

Module ExtractedItems.
Import Py.

(** No blank at either end of the text. *)
Definition trimmed (s : str) : Prop :=
  (forall c r, s = c :: r -> isspace c = false)
  /\ (forall c r, s = r ++ [c] -> isspace c = false).

(** Zero or more; a NaN is neither below zero nor above it. *)
Definition not_negative (v : number) : Prop := lt v (Int 0) = false.

(** The sign bit of a float, a NaN apart. *)
Definition signed (neg : bool) (f : float) : Prop :=
  match f with
  | S754_zero s | S754_infinity s | S754_finite s _ _ => s = neg
  | S754_nan => True
  end.

(** The keys of the totals. *)
Definition total_keys : list string :=
  [ "vat_rate"; "vat_amount"; "total_before_tax"; "total_payment" ].

(** The keys of a column map. *)
Definition column_keys : list string :=
  [ "product"; "denomination"; "quantity"; "amount"; "discount" ].

(** ** Properties of the totals that the loops keep *)

(** A property of the totals that a step keeps. *)
Definition kept (P : gmap string number -> Prop)
    (step : gmap string number -> result (flow (gmap string number)))
  : Prop :=
  forall totals r, P totals -> step totals = Ok r -> P (state r).

(** No key beside the four of the totals. *)
Definition known_keys (totals : gmap string number) : Prop :=
  forall k, is_Some (totals !! k) -> k ∈ total_keys.

(** A VAT rate strictly between 0 and 100, a VAT amount above 100. *)
Definition rate_in_range (totals : gmap string number) : Prop :=
  forall v, totals !! "vat_rate" = Some v ->
            lt (Int 0) v = true /\ lt v (Int 100) = true.
Definition amount_in_range (totals : gmap string number) : Prop :=
  forall v, totals !! "vat_amount" = Some v -> gt v (Int 100) = true.

(** The key [k] holds [v]. *)
Definition holds (k : string) (v : number) (totals : gmap string number)
  : Prop := totals !! k = Some v.

(** The total payment is a float no smaller than [f]. *)
Definition at_least (f : float) (totals : gmap string number) : Prop :=
  exists f', totals !! "total_payment" = Some (Float f')
             /\ lt (Float f') (Float f) = false.

(** A run that adds the same keys whatever the totals it starts from, or
    fails whatever they are. *)
Definition independent
    (run : gmap string number -> result (gmap string number)) : Prop :=
  (exists u, forall t, run t = Ok (u ∪ t))
  \/ (exists e, forall t, run t = Raise e).

(** The totals of a sheet over those of the sheets before it, as
    [parse_reconciliation_excel] merges them. *)
Definition merged (sheet_totals totals : gmap string number)
  : gmap string number :=
  if bool_decide (sheet_totals = ∅) then totals else sheet_totals ∪ totals.

(** ** The states of the loop over the lines of a PDF text *)

(** The header has been met and the table is being read. *)
Definition reading (st : InvoicePdf.table) : Prop :=
  InvoicePdf.in_table st = true /\ InvoicePdf.header_found st = true.

(** The two flags of the loop go together. *)
Definition coherent (st : InvoicePdf.table) : Prop :=
  InvoicePdf.in_table st = InvoicePdf.header_found st.

End ExtractedItems.

(* ===================================================================== *)
(** * Documents for the examples                                          *)
(* ===================================================================== *)

Module Examples.
Import Py.

(** A PDF text: a header line and one line item. *)
Definition sim_line : str := lit "SIM card 50000 10 500000".
Definition sim_text : str :=
  lit "Product Quantity Amount" ++ NEWLINE :: sim_line.
Definition sim_item : InvoicePdf.item :=
  {| InvoicePdf.product_type := lit "SIM card";
     InvoicePdf.denomination := Float (float_of_decimal false 50000 0);
     InvoicePdf.quantity := Float (float_of_decimal false 10 0);
     InvoicePdf.amount := Float (float_of_decimal false 500000 0) |}.

(** A text of Basic Latin letters, and [\w] on such texts. *)
Definition ascii_word (c : char) : bool :=
  InvoicePdf.letter c || isdigit09 c || (c =? 0x5F)%N.
Definition worded_text : str :=
  lit "Invoice number one two three four five six seven eight nine ten".

(** A sheet: the header row tên, số lượng, thành tiền and one row of
    data; rows with totals.  No cell of these sheets is a float, so that
    [str(f)] is not called. *)
Definition no_repr : float -> str := fun _ => [].
Definition header_row : list ReconcileExcel.cell :=
  [ Some (Str ReconcileExcel.ten);
    Some (Str (ReconcileExcel.so ++ SPACE :: ReconcileExcel.luong));
    Some (Str (ReconcileExcel.thanh ++ SPACE :: ReconcileExcel.tien)) ].
Definition sim_row : list ReconcileExcel.cell :=
  [ Some (Str (lit " SIM ")); Some (Str (lit "10"));
    Some (Str (lit "500.000")) ].
Definition sim_row_item : ReconcileExcel.item :=
  {| ReconcileExcel.product_type := lit "SIM";
     ReconcileExcel.denomination := Float (S754_zero false);
     ReconcileExcel.quantity := Float (float_of_decimal false 10 0);
     ReconcileExcel.amount := Float (float_of_decimal false 500000 3);
     ReconcileExcel.discount := Int 0 |}.
Definition total_row : list ReconcileExcel.cell :=
  [ Some (Str (lit "Grand Total")); Some (Str (lit "15")) ].
Definition total_15 : gmap string number :=
  {[ "total_payment" := Float (float_of_decimal false 15 0) ]}.
Definition rate_row (z : Z) : list ReconcileExcel.cell :=
  [ Some (Str (lit "VAT rate")); Some (Num (Int z)) ].

End Examples.


(* ===================================================================== *)
(** * app.py                                                              *)
(* ===================================================================== *)

Module App.

(** The two tolerance widgets: [st.sidebar.number_input] with
    [min_value=0.0] and [max_value=10.0] returns a percentage within
    those bounds. *)
Definition min_value : Q := 0.
Definition max_value : Q := 10.
Definition number_input (percent : Q) : Prop :=
  (min_value <= percent /\ percent <= max_value)%Q.

(** [vat_tolerance / 100] and [amount_tolerance / 100], the tolerances
    handed to [compare_datasets]. *)
Definition tolerance_of_percent (percent : Q) : Q := (percent / 100)%Q.

End App.

(* ===================================================================== *)
(** * core/compare.py: the reconciliation engine                          *)
(* ===================================================================== *)

Module Core.
Import Py.

(** [app.py] imports [compare_datasets] from [core/compare.py], which is
    not among the files at hand: the engine is modelled from the spec, its
    floats as rationals. *)

(** ** Data model *)

(** Modelled from the spec: the origin of a [CanonicalLineItem]. *)
Inductive Origin := RECONCILIATION | INVOICE.

(** Modelled from the spec: [CanonicalLineItem], of which the repository
    files at hand only show the producers; the float fields are taken as
    rationals. *)
Record CanonicalLineItem := {
  product_type : str;
  match_key : str;
  denomination : Q;
  quantity : Q;
  amount : Q;
  discount : Q;
  origin : Origin
}.

(** Modelled from the spec: the status of a [ComparisonRow]. *)
Inductive Status := MATCH | MISMATCH | MISSING_IN_INVOICE | EXTRA_IN_INVOICE.

#[global] Instance Status_eq_dec : EqDecision Status.
Proof. solve_decision. Defined.

(** Modelled from the spec: [ComparisonRow] ([left] and [right] are
    [row_left] and [row_right]). *)
Record ComparisonRow := {
  row_left : option CanonicalLineItem;
  row_right : option CanonicalLineItem;
  status : Status;
  field_results : list (string * bool)
}.

(** Modelled from the spec: one field of [TotalsComparison]. *)
Record FieldComparison := {
  reconciliation_value : option Q;
  invoice_value : option Q;
  field_match : bool
}.

(** Modelled from the spec: [TotalsComparison] with the overall verdict of
    the TotalsReconciler. *)
Record TotalsComparison := {
  field_comparisons : list (string * FieldComparison);
  totals_match : bool
}.

(** Modelled from the spec: [Summary]; [app.py] reads these three keys. *)
Record Summary := {
  matched_items : nat;
  mismatched_items : nat;
  summary_totals_match : bool
}.

(** Modelled from the spec: the output of the engine (section 6), under
    the three keys [app.py] reads from what [compare_datasets] returns. *)
Record Comparison := {
  comparison_table : list ComparisonRow;
  summary : Summary;
  totals_comparison : TotalsComparison
}.

(** Modelled from the spec: the configuration error of section 7. *)
Inductive Error := InvalidToleranceConfiguration.

(** Modelled from the spec: an invoice item of the pool, with its original
    index. *)
Definition candidate : Type := nat * CanonicalLineItem.

(** [a < b] on rationals. *)
Definition Qltb (a b : Q) : bool := negb (Qle_bool b a).

Section Engine.
(** The guard [ε] of [numeric_match] and the similarity score of the
    fuzzy path, which the spec leaves open. *)
Variable eps : Q.
Variable text_similarity : str -> str -> Q.

(** ** ToleranceComparator *)

(** Modelled from the spec: [numeric_match] of core/compare.py, true iff
    [|a-b| <= tolerance * max(|a|, |b|, ε)]. *)
Definition numeric_match (a b tolerance : Q) : bool :=
  Qle_bool (Qabs (a - b))
           (tolerance * Qmax (Qmax (Qabs a) (Qabs b)) eps).

(** ** Matcher *)

(** Modelled from the spec: the tie-break by lowest original index.  The
    first element of [cs] that no other element beats, starting from
    [best]: a later element replaces the current one only when it is
    strictly better, so ties go to the lowest index. *)
Fixpoint first_best (better : candidate -> candidate -> bool)
    (best : candidate) (cs : list candidate) : candidate :=
  match cs with
  | [] => best
  | c :: r => first_best better (if better c best then c else best) r
  end.

(** Modelled from the spec: the selection among several candidates. *)
Definition choose (better : candidate -> candidate -> bool)
    (cs : list candidate) : option candidate :=
  match cs with
  | [] => None
  | c :: r => Some (first_best better c r)
  end.

(** Modelled from the spec: the exact [match_key] lookup. *)
Definition same_key (it : CanonicalLineItem) (c : candidate) : bool :=
  bool_decide (match_key c.2 = match_key it).

(** Modelled from the spec: how close the quantity of a candidate is. *)
Definition quantity_gap (it : CanonicalLineItem) (c : candidate) : Q :=
  Qabs (quantity c.2 - quantity it).

(** Modelled from the spec: step 2 of the Matcher, the exact lookup with
    the closest quantity and the lowest index on a tie. *)
Definition exact_candidate (it : CanonicalLineItem)
    (pool : list candidate) : option candidate :=
  choose (fun c b => Qltb (quantity_gap it c) (quantity_gap it b))
         (List.filter (same_key it) pool).

(** Modelled from the spec: the fixed acceptance threshold, 0.8. *)
Definition threshold : Q := 8 # 10.

(** Modelled from the spec: [text_similarity] over [match_key] values. *)
Definition score (it : CanonicalLineItem) (c : candidate) : Q :=
  text_similarity (match_key it) (match_key c.2).

(** Modelled from the spec: a score at or above the threshold. *)
Definition acceptable (it : CanonicalLineItem) (c : candidate) : bool :=
  Qle_bool threshold (score it c).

(** Modelled from the spec: step 3 of the Matcher, the best score at or
    above the threshold and the lowest index on a tie. *)
Definition fuzzy_candidate (it : CanonicalLineItem)
    (pool : list candidate) : option candidate :=
  choose (fun c b => Qltb (score it b) (score it c))
         (List.filter (acceptable it) pool).

(** Modelled from the spec: steps 2 and 3, the exact lookup and then, when
    it finds nothing and [fuzzy] is set, the fuzzy one. *)
Definition find_candidate (fuzzy : bool) (it : CanonicalLineItem)
    (pool : list candidate) : option candidate :=
  match exact_candidate it pool with
  | Some c => Some c
  | None => if fuzzy then fuzzy_candidate it pool else None
  end.

(** Modelled from the spec: step 4, the candidate is removed from the
    pool. *)
Definition consume (c : candidate) (pool : list candidate)
  : list candidate :=
  List.filter (fun x => negb (x.1 =? c.1)) pool.

(** Modelled from the spec: step 4, the three fields compared with
    [numeric_match] under [amount_tolerance]. *)
Definition compare_fields (tolerance : Q) (l r : CanonicalLineItem)
  : list (string * bool) :=
  [ ("denomination",
      numeric_match (denomination l) (denomination r) tolerance);
    ("quantity", numeric_match (quantity l) (quantity r) tolerance);
    ("amount", numeric_match (amount l) (amount r) tolerance) ].

(** Modelled from the spec: step 4, MATCH if all compared fields match,
    else MISMATCH. *)
Definition paired_row (tolerance : Q) (it : CanonicalLineItem)
    (c : candidate) : ComparisonRow :=
  let results := compare_fields tolerance it c.2 in
  {| row_left := Some it;
     row_right := Some c.2;
     status := if forallb snd results then MATCH else MISMATCH;
     field_results := results |}.

(** Modelled from the spec: step 5. *)
Definition missing_row (it : CanonicalLineItem) : ComparisonRow :=
  {| row_left := Some it; row_right := None;
     status := MISSING_IN_INVOICE; field_results := [] |}.

(** Modelled from the spec: step 6. *)
Definition extra_row (c : candidate) : ComparisonRow :=
  {| row_left := None; row_right := Some c.2;
     status := EXTRA_IN_INVOICE; field_results := [] |}.

(** Modelled from the spec: steps 2 to 6, the reconciliation items in
    input order against the pool, then one row for every invoice item
    left. *)
Fixpoint match_loop (fuzzy : bool) (tolerance : Q)
    (reconciliation : list CanonicalLineItem) (pool : list candidate)
  : list ComparisonRow :=
  match reconciliation with
  | [] => map extra_row pool
  | it :: rest =>
      match find_candidate fuzzy it pool with
      | Some c =>
          paired_row tolerance it c
            :: match_loop fuzzy tolerance rest (consume c pool)
      | None => missing_row it :: match_loop fuzzy tolerance rest pool
      end
  end.

(** Modelled from the spec: step 1, the pool of invoice items, each with
    its index. *)
Fixpoint index_from (i : nat) (invoice : list CanonicalLineItem)
  : list candidate :=
  match invoice with
  | [] => []
  | it :: rest => (i, it) :: index_from (S i) rest
  end.

(** Modelled from the spec: step 1. *)
Definition build_pool (invoice : list CanonicalLineItem)
  : list candidate :=
  index_from 0 invoice.

(** Modelled from the spec: [match] of the Matcher (section 4.3), which
    is in core/compare.py. *)
Definition match_items (reconciliation invoice : list CanonicalLineItem)
    (amount_tolerance vat_tolerance : Q) (fuzzy : bool)
  : list ComparisonRow :=
  match_loop fuzzy amount_tolerance reconciliation (build_pool invoice).

(** ** TotalsReconciler *)

(** Modelled from the spec: the four recognized fields. *)
Definition recognized_fields : list string :=
  ["vat_rate"; "vat_amount"; "total_before_tax"; "total_payment"].

(** Modelled from the spec: [vat_tolerance] for the two VAT fields,
    [amount_tolerance] for the two totals. *)
Definition tolerance_for (field : string)
    (amount_tolerance vat_tolerance : Q) : Q :=
  if bool_decide (field = "vat_rate" \/ field = "vat_amount")
  then vat_tolerance else amount_tolerance.

(** Modelled from the spec: both raw values and the match flag of one
    field, true only if both are present and within tolerance. *)
Definition compare_field (reconciliation invoice : gmap string Q)
    (amount_tolerance vat_tolerance : Q) (field : string)
  : FieldComparison :=
  {| reconciliation_value := reconciliation !! field;
     invoice_value := invoice !! field;
     field_match :=
       match reconciliation !! field, invoice !! field with
       | Some a, Some b =>
           numeric_match a b
             (tolerance_for field amount_tolerance vat_tolerance)
       | _, _ => false
       end |}.

(** Modelled from the spec: a field present on both sides. *)
Definition present_on_both (fc : FieldComparison) : bool :=
  match reconciliation_value fc, invoice_value fc with
  | Some _, Some _ => true
  | _, _ => false
  end.

(** Modelled from the spec: [reconcile_totals] of the TotalsReconciler
    (section 4.4), which is in core/compare.py. *)
Definition reconcile_totals (reconciliation invoice : gmap string Q)
    (amount_tolerance vat_tolerance : Q) : TotalsComparison :=
  let per_field :=
    map (fun f => (f, compare_field reconciliation invoice
                        amount_tolerance vat_tolerance f))
        recognized_fields in
  {| field_comparisons := per_field;
     totals_match :=
       forallb (fun fc => implb (present_on_both fc.2) (field_match fc.2))
               per_field |}.

(** ** ResultAggregator *)

(** Modelled from the spec: the count of rows by status. *)
Definition count_status (s : Status) (rows : list ComparisonRow) : nat :=
  length (List.filter (fun r => bool_decide (status r = s)) rows).

(** Modelled from the spec: [aggregate] of the ResultAggregator
    (section 4.5). *)
Definition aggregate (rows : list ComparisonRow)
    (totals : TotalsComparison) : Summary :=
  {| matched_items := count_status MATCH rows;
     mismatched_items :=
       count_status MISMATCH rows + count_status MISSING_IN_INVOICE rows
       + count_status EXTRA_IN_INVOICE rows;
     summary_totals_match := totals_match totals |}.

(** ** The run *)

(** Modelled from the spec: a tolerance is a fraction in [[0,1)]. *)
Definition valid_tolerance (t : Q) : bool := Qle_bool 0 t && Qltb t 1.

(** Modelled from the spec: [compare_datasets] of core/compare.py, called
    by [app.py] with the canonical items and the totals of both sides;
    the tolerances are checked before anything is compared
    (section 7, InvalidToleranceConfiguration). *)
Definition compare_datasets
    (reconciliation invoice : list CanonicalLineItem)
    (reconciliation_totals invoice_totals : gmap string Q)
    (vat_tolerance amount_tolerance : Q) (fuzzy_match : bool)
  : Error + Comparison :=
  if valid_tolerance vat_tolerance && valid_tolerance amount_tolerance
  then
    let rows :=
      match_items reconciliation invoice amount_tolerance vat_tolerance
                  fuzzy_match in
    let totals :=
      reconcile_totals reconciliation_totals invoice_totals
                       amount_tolerance vat_tolerance in
    inr {| comparison_table := rows;
           summary := aggregate rows totals;
           totals_comparison := totals |}
  else inl InvalidToleranceConfiguration.

(** ** The Matcher as the spec words it

    The selection rules of section 4.3 as relations: which candidate a
    reconciliation item may be paired with, and which rows a run may
    produce. *)

(** Modelled from the spec: the exact candidate is one with the same
    key whose quantity is closest, of lowest index among the closest. *)
Definition closest_exact (it : CanonicalLineItem)
    (pool : list candidate) (c : candidate) : Prop :=
  c ∈ pool /\ match_key c.2 = match_key it /\
  forall c', c' ∈ pool -> match_key c'.2 = match_key it ->
    (quantity_gap it c < quantity_gap it c')%Q
    \/ ((quantity_gap it c == quantity_gap it c')%Q /\ c.1 <= c'.1).

(** Modelled from the spec: no exact candidate. *)
Definition no_exact (it : CanonicalLineItem) (pool : list candidate)
  : Prop :=
  forall c, c ∈ pool -> match_key c.2 <> match_key it.

(** Modelled from the spec: the fuzzy candidate has the highest score
    among those at or above the threshold, of lowest index among them. *)
Definition best_fuzzy (it : CanonicalLineItem) (pool : list candidate)
    (c : candidate) : Prop :=
  c ∈ pool /\ (threshold <= score it c)%Q /\
  forall c', c' ∈ pool -> (threshold <= score it c')%Q ->
    (score it c' < score it c)%Q
    \/ ((score it c' == score it c)%Q /\ c.1 <= c'.1).

(** Modelled from the spec: no acceptable fuzzy candidate. *)
Definition no_fuzzy (it : CanonicalLineItem) (pool : list candidate)
  : Prop :=
  forall c, c ∈ pool -> ~ (threshold <= score it c)%Q.

(** Modelled from the spec: steps 2, 3 and 5, the candidate a
    reconciliation item is paired with, if any. *)
Inductive pairing (fuzzy : bool) (it : CanonicalLineItem)
    (pool : list candidate) : option candidate -> Prop :=
| pairing_exact c :
    closest_exact it pool c -> pairing fuzzy it pool (Some c)
| pairing_fuzzy c :
    no_exact it pool -> fuzzy = true -> best_fuzzy it pool c ->
    pairing fuzzy it pool (Some c)
| pairing_none :
    no_exact it pool -> (fuzzy = false \/ no_fuzzy it pool) ->
    pairing fuzzy it pool None.

(** Modelled from the spec: steps 4 to 6 and the output row order, the
    rows of a run of the Matcher from a pool. *)
Inductive matching (fuzzy : bool) (tolerance : Q)
  : list candidate -> list CanonicalLineItem -> list ComparisonRow
    -> Prop :=
| matching_extra pool :
    matching fuzzy tolerance pool [] (map extra_row pool)
| matching_paired pool it rest c rows :
    pairing fuzzy it pool (Some c) ->
    matching fuzzy tolerance (consume c pool) rest rows ->
    matching fuzzy tolerance pool (it :: rest)
             (paired_row tolerance it c :: rows)
| matching_missing pool it rest rows :
    pairing fuzzy it pool None ->
    matching fuzzy tolerance pool rest rows ->
    matching fuzzy tolerance pool (it :: rest) (missing_row it :: rows).

(** Modelled from the spec: a run of the whole engine on its inputs. *)
Inductive run
    (reconciliation invoice : list CanonicalLineItem)
    (reconciliation_totals invoice_totals : gmap string Q)
    (vat_tolerance amount_tolerance : Q) (fuzzy_match : bool)
  : Error + Comparison -> Prop :=
| run_rejected :
    valid_tolerance vat_tolerance && valid_tolerance amount_tolerance
      = false ->
    run reconciliation invoice reconciliation_totals invoice_totals
        vat_tolerance amount_tolerance fuzzy_match
        (inl InvalidToleranceConfiguration)
| run_compared rows :
    valid_tolerance vat_tolerance && valid_tolerance amount_tolerance
      = true ->
    matching fuzzy_match amount_tolerance (build_pool invoice)
             reconciliation rows ->
    let totals :=
      reconcile_totals reconciliation_totals invoice_totals
                       amount_tolerance vat_tolerance in
    run reconciliation invoice reconciliation_totals invoice_totals
        vat_tolerance amount_tolerance fuzzy_match
        (inr {| comparison_table := rows;
                summary := aggregate rows totals;
                totals_comparison := totals |}).
End Engine.

(** ** Notions for the properties of the Matcher *)

(** The pool keeps the invoice order: indices grow along the list. *)
Definition ordered (pool : list candidate) : Prop :=
  StronglySorted (fun a b : candidate => a.1 < b.1) pool.

(** The shape of a row: both sides for a pair, one side otherwise. *)
Definition row_shape (r : ComparisonRow) : Prop :=
  match status r with
  | MATCH | MISMATCH => is_Some (row_left r) /\ is_Some (row_right r)
  | MISSING_IN_INVOICE => is_Some (row_left r) /\ row_right r = None
  | EXTRA_IN_INVOICE => row_left r = None /\ is_Some (row_right r)
  end.

(** A selection by a rational key: [r] has the least key, and the lowest
    index among those of least key. *)
Definition least (key : candidate -> Q) (cs : list candidate)
    (r : candidate) : Prop :=
  r ∈ cs /\
  forall x, x ∈ cs ->
    (key r < key x)%Q \/ ((key r == key x)%Q /\ r.1 <= x.1).

(** ** Data for the scenarios of the spec *)

(** A guard and a similarity score to run the engine with: one
    billionth, and 1 for equal keys, 0 otherwise. *)
Definition small_eps : Q := 1 # 1000000000.
Definition equal_keys (a b : str) : Q := if decide (a = b) then 1 else 0.

Definition sim_card (o : Origin) (amount : Q) : CanonicalLineItem :=
  {| product_type := lit "SIM card"; match_key := lit "sim card";
     denomination := 50000; quantity := 10; amount := amount;
     discount := 0; origin := o |}.

End Core.

(* ===================================================================== *)
(** * Properties of the runtime functions                                 *)
(* ===================================================================== *)

(** Membership in a list given in full, and distinct code points. *)
Ltac listed :=
  repeat first [apply list_elem_of_here | apply list_elem_of_further].
Ltac distinct := let H := fresh in intros H; vm_compute in H; discriminate.

Module PyFacts.
Import Py NumericText.

Lemma isdigit09_cases c :
  isdigit09 c = true ->
  c ∈ [48; 49; 50; 51; 52; 53; 54; 55; 56; 57]%N.
Proof.
  unfold isdigit09, between. rewrite andb_true_iff, !N.leb_le. intros [H1 H2].
  assert (c = 48 \/ c = 49 \/ c = 50 \/ c = 51 \/ c = 52 \/ c = 53
          \/ c = 54 \/ c = 55 \/ c = 56 \/ c = 57)%N as H by lia.
  repeat (destruct H as [-> | H]; [listed |]). subst. listed.
Qed.

Lemma numeric_char_cases c :
  (isdigit09 c || (c =? DOT) || (c =? COMMA) || (c =? MINUS))%N = true ->
  c ∈ [48; 49; 50; 51; 52; 53; 54; 55; 56; 57; 46; 44; 45]%N.
Proof.
  rewrite !orb_true_iff, !N.eqb_eq. intros [[[H | ->] | ->] | ->].
  - apply isdigit09_cases in H.
    repeat (apply elem_of_cons in H as [-> | H]; [listed |]).
    by apply elem_of_nil in H.
  - listed.
  - listed.
  - listed.
Qed.

(** A fact checked on each of the thirteen characters of a numeric text. *)
Lemma numeric_char_forall (P : char -> bool) c :
  forallb P [48; 49; 50; 51; 52; 53; 54; 55; 56; 57; 46; 44; 45]%N = true ->
  (isdigit09 c || (c =? DOT) || (c =? COMMA) || (c =? MINUS))%N = true ->
  P c = true.
Proof.
  intros HP Hc. apply numeric_char_cases in Hc.
  rewrite forallb_forall in HP. apply HP. by apply list_elem_of_In.
Qed.

Lemma decimal_digit09 c :
  isdigit09 c = true -> decimal c = Some (c - 0x30)%N.
Proof.
  intros H. apply isdigit09_cases in H.
  repeat (apply elem_of_cons in H as [-> | H]; [reflexivity |]).
  by apply elem_of_nil in H.
Qed.

Lemma isdecimal_digit09 c : isdigit09 c = true -> isdecimal c = true.
Proof. intros H. unfold isdecimal. by rewrite (decimal_digit09 c H). Qed.


Lemma take_while_all cls s :
  Forall (fun c => cls c = true) s -> take_while cls s = s.
Proof. induction 1 as [| c s Hc _ IH]; [done |]. cbn. by rewrite Hc, IH. Qed.

Lemma drop_while_all cls s :
  Forall (fun c => cls c = true) s -> drop_while cls s = [].
Proof. induction 1 as [| c s Hc _ IH]; [done |]. cbn. by rewrite Hc. Qed.

Lemma take_while_app cls s c r :
  Forall (fun c => cls c = true) s -> cls c = false ->
  take_while cls (s ++ c :: r) = s.
Proof.
  induction 1 as [| x s Hx _ IH]; intros Hc; cbn.
  - by rewrite Hc.
  - by rewrite Hx, IH.
Qed.


Lemma drop_while_none cls s :
  Forall (fun c => cls c = false) s -> drop_while cls s = s.
Proof. destruct 1 as [| c s Hc _]; [done |]. cbn. by rewrite Hc. Qed.

(** ** [strip] and [re.sub] leave a text without blanks alone *)

Lemma strip_no_space s :
  Forall (fun c => isspace c = false) s -> strip s = s.
Proof.
  intros H. unfold strip, lstrip, rstrip.
  rewrite (drop_while_none _ s H).
  rewrite drop_while_none; [apply rev_involutive |].
  apply Forall_forall. intros c Hc. rewrite Forall_forall in H. apply H.
  apply list_elem_of_In. apply list_elem_of_In in Hc. by apply in_rev.
Qed.

Lemma delete_class_none cls s :
  Forall (fun c => cls c = false) s -> delete_class cls s = s.
Proof.
  induction 1 as [| c s Hc _ IH]; [done |].
  unfold delete_class in *. cbn. by rewrite Hc, IH.
Qed.

(** ** Counting and replacing *)

Lemma count_app c s t : count c (s ++ t) = count c s + count c t.
Proof. unfold count. by rewrite List.filter_app, length_app. Qed.

Lemma count_cons c x s :
  count c (x :: s) = (if (c =? x)%N then 1 else 0) + count c s.
Proof. unfold count. cbn. by destruct (c =? x)%N. Qed.

Lemma count_absent c s : Forall (fun x => x <> c) s -> count c s = 0.
Proof.
  induction 1 as [| x s Hx _ IH]; [done |].
  rewrite count_cons, IH. by rewrite (proj2 (N.eqb_neq c x)).
Qed.

Lemma contains_count c s : contains c s = (0 <? count c s).
Proof.
  unfold contains, char_in. induction s as [| x s IH]; [done |].
  rewrite count_cons. cbn [existsb]. rewrite IH.
  destruct (c =? x)%N; [done |]. done.
Qed.

Lemma replace_app old new s t :
  replace old new (s ++ t) = replace old new s ++ replace old new t.
Proof. unfold replace. apply flat_map_app. Qed.

Lemma replace_absent old new s :
  Forall (fun x => x <> old) s -> replace old new s = s.
Proof.
  induction 1 as [| x s Hx _ IH]; [done |].
  unfold replace in *. cbn. rewrite IH.
  by rewrite (proj2 (N.eqb_neq x old)).
Qed.

(** ** [float()] *)

Lemma float_of_unsigned_error neg s e :
  float_of_unsigned neg s = Raise e -> e = ValueError.
Proof.
  unfold float_of_unsigned. intros H.
  repeat (match type of H with
          | context [match ?x with _ => _ end] => destruct x
          end; try congruence).
Qed.

(** [float()] on a text fails with [ValueError] only. *)
Lemma float_of_str_error s e : float_of_str s = Raise e -> e = ValueError.
Proof.
  unfold float_of_str. intros H.
  destruct s as [| c r]; [congruence |].
  destruct (c =? MINUS)%N; [by eapply float_of_unsigned_error |].
  destruct (c =? PLUS)%N; by eapply float_of_unsigned_error.
Qed.

End PyFacts.

(* ===================================================================== *)
(** * The number parsers                                                  *)
(* ===================================================================== *)

Module ParserFacts.
Import Py NumericText PyFacts.

(** ** Numeric texts: groups of digits joined by one separator *)

Lemma plain_digit c : isdigit09 c = true -> plain c = true.
Proof. unfold plain. by intros ->. Qed.

Lemma digit_not c x :
  isdigit09 c = true -> x ∈ [DOT; COMMA; MINUS; PLUS] -> c <> x.
Proof.
  unfold isdigit09, between. rewrite andb_true_iff, !N.leb_le.
  rewrite !elem_of_cons, elem_of_nil. unfold DOT, COMMA, MINUS, PLUS. lia.
Qed.

Lemma plain_sign neg : Forall (fun c => plain c = true) (sign neg).
Proof. destruct neg; repeat constructor. Qed.

Lemma plain_join sep groups :
  sep = DOT \/ sep = COMMA -> Forall digits_only groups ->
  Forall (fun c => plain c = true) (join sep groups).
Proof.
  intros Hsep. induction 1 as [| g gs Hg _ IH]; [constructor |].
  assert (Forall (fun c => plain c = true) g) as Hpg.
  { eapply Forall_impl; [exact Hg |]. apply plain_digit. }
  cbn [join]. destruct gs as [| g' gs']; [done |].
  apply Forall_app. split; [done |]. constructor; [| done].
  destruct Hsep as [-> | ->]; reflexivity.
Qed.

Lemma plain_no_space s :
  Forall (fun c => plain c = true) s -> Forall (fun c => isspace c = false) s.
Proof.
  intros H. eapply Forall_impl; [exact H |]. intros c Hc.
  apply (numeric_char_forall (fun c => negb (isspace c)) c) in Hc;
    [by apply negb_true_iff in Hc | reflexivity].
Qed.

Lemma plain_no_currency s :
  Forall (fun c => plain c = true) s ->
  Forall (fun c => ReconcileExcel.currency_or_space c = false) s.
Proof.
  intros H. eapply Forall_impl; [exact H |]. intros c Hc.
  apply (numeric_char_forall
           (fun c => negb (ReconcileExcel.currency_or_space c)) c) in Hc;
    [by apply negb_true_iff in Hc | reflexivity].
Qed.

Lemma plain_kept s :
  Forall (fun c => plain c = true) s ->
  Forall (fun c => negb (InvoicePdf.numeric_char c) = false) s.
Proof.
  intros H. eapply Forall_impl; [exact H |]. intros c Hc.
  by apply negb_false_iff.
Qed.

Lemma count_digits x s :
  x ∈ [DOT; COMMA; MINUS; PLUS] -> digits_only s -> count x s = 0.
Proof.
  intros Hx Hs. apply count_absent.
  eapply Forall_impl; [exact Hs |]. intros c Hc. by apply digit_not.
Qed.

Lemma count_sign x neg : x <> MINUS -> count x (sign neg) = 0.
Proof.
  intros Hx. destruct neg; [| done]. unfold sign.
  rewrite count_cons. by rewrite (proj2 (N.eqb_neq x MINUS)).
Qed.

Lemma count_join_same sep groups :
  sep ∈ [DOT; COMMA] -> Forall digits_only groups ->
  count sep (join sep groups) = length groups - 1.
Proof.
  intros Hsep. induction 1 as [| g gs Hg _ IH]; [done |].
  assert (count sep g = 0) as Hc.
  { apply count_digits; [| done].
    apply elem_of_cons in Hsep as [-> | Hsep]; [listed |].
    apply elem_of_cons in Hsep as [-> | Hsep]; [listed |].
    by apply elem_of_nil in Hsep. }
  cbn [join]. destruct gs as [| g' gs']; [by rewrite Hc |].
  rewrite count_app, count_cons, N.eqb_refl, Hc, IH. cbn. lia.
Qed.

Lemma count_join_other x sep groups :
  x ∈ [DOT; COMMA; MINUS; PLUS] -> x <> sep -> Forall digits_only groups ->
  count x (join sep groups) = 0.
Proof.
  intros Hx Hne. induction 1 as [| g gs Hg _ IH]; [done |].
  cbn [join]. destruct gs as [| g' gs']; [by apply count_digits |].
  rewrite count_app, count_cons, IH, (count_digits x g Hx Hg).
  by rewrite (proj2 (N.eqb_neq x sep)).
Qed.

Lemma replace_digits x new s :
  x ∈ [DOT; COMMA; MINUS; PLUS] -> digits_only s -> replace x new s = s.
Proof.
  intros Hx Hs. apply replace_absent.
  eapply Forall_impl; [exact Hs |]. intros c Hc. by apply digit_not.
Qed.

Lemma replace_sign x new neg : x <> MINUS -> replace x new (sign neg) = sign neg.
Proof.
  intros Hx. destruct neg; [| done]. unfold sign, replace. cbn [flat_map].
  by rewrite (proj2 (N.eqb_neq MINUS x)).
Qed.

Lemma replace_join sep groups :
  sep ∈ [DOT; COMMA] -> Forall digits_only groups ->
  replace sep [] (join sep groups) = concat groups.
Proof.
  intros Hsep. induction 1 as [| g gs Hg _ IH]; [done |].
  assert (replace sep [] g = g) as Hr.
  { apply replace_digits; [| done].
    apply elem_of_cons in Hsep as [-> | Hsep]; [listed |].
    apply elem_of_cons in Hsep as [-> | Hsep]; [listed |].
    by apply elem_of_nil in Hsep. }
  cbn [join concat]. destruct gs as [| g' gs'].
  - cbn. by rewrite Hr, app_nil_r.
  - rewrite replace_app, Hr. f_equal.
    change (replace sep [] (sep :: join sep (g' :: gs')))
      with ((if (sep =? sep)%N then [] else [sep])
              ++ replace sep [] (join sep (g' :: gs'))).
    by rewrite N.eqb_refl, IH.
Qed.

Lemma digits_only_concat groups :
  Forall digits_only groups -> digits_only (concat groups).
Proof.
  induction 1 as [| g gs Hg _ IH]; [constructor |].
  cbn. by apply Forall_app.
Qed.

Ltac counted :=
  rewrite ?Nat.add_0_l;
  change (1 <? 0) with false; change (0 =? 1) with false;
  change (0 <? 0) with false;
  rewrite ?andb_false_r; cbn [andb orb]; rewrite ?orb_false_r.

Lemma excel_cleaned neg sep groups :
  sep = DOT \/ (sep = COMMA) -> Forall digits_only groups ->
  ReconcileExcel.cleaned (sign neg ++ join sep groups)
  = sign neg ++ resolved sep groups.
Proof.
  intros Hsep Hg. unfold ReconcileExcel.cleaned.
  assert (Forall (fun c => plain c = true) (sign neg ++ join sep groups))
    as Hplain.
  { apply Forall_app. split; [apply plain_sign | by apply plain_join]. }
  rewrite (strip_no_space _ (plain_no_space _ Hplain)).
  rewrite (delete_class_none _ _ (plain_no_currency _ Hplain)).
  unfold ReconcileExcel.separators_resolved, resolved.
  rewrite !count_app, !count_sign by distinct.
  destruct Hsep as [-> | ->].
  - rewrite (count_join_same DOT) by (done || listed || distinct).
    rewrite (count_join_other COMMA DOT) by (done || listed || distinct).
    counted.
    destruct (1 <? length groups - 1) eqn:Hn; [| done].
    rewrite !replace_app, !replace_sign by distinct.
    rewrite (replace_join DOT) by (done || listed || distinct).
    rewrite (replace_digits COMMA) by (listed || by apply digits_only_concat).
    done.
  - rewrite (count_join_same COMMA) by (done || listed || distinct).
    rewrite (count_join_other DOT COMMA) by (done || listed || distinct).
    counted.
    destruct (1 <? length groups - 1) eqn:Hn; [| done].
    rewrite !replace_app, !replace_sign by distinct.
    by rewrite (replace_join COMMA) by (done || listed || distinct).
Qed.

Lemma pdf_cleaned neg sep groups :
  sep = DOT \/ (sep = COMMA) -> Forall digits_only groups ->
  InvoicePdf.cleaned (sign neg ++ join sep groups)
  = sign neg ++ resolved sep groups.
Proof.
  intros Hsep Hg. unfold InvoicePdf.cleaned.
  assert (Forall (fun c => plain c = true) (sign neg ++ join sep groups))
    as Hplain.
  { apply Forall_app. split; [apply plain_sign | by apply plain_join]. }
  rewrite (strip_no_space _ (plain_no_space _ Hplain)).
  rewrite (delete_class_none _ _ (plain_kept _ Hplain)).
  unfold InvoicePdf.separators_resolved, resolved.
  rewrite !contains_count, !count_app, !count_sign by done.
  destruct Hsep as [-> | ->].
  - rewrite (count_join_same DOT) by (done || listed || distinct).
    rewrite (count_join_other COMMA DOT) by (done || listed || distinct).
    counted.
    destruct (1 <? length groups - 1) eqn:Hn; [| done].
    rewrite !replace_app, !replace_sign by distinct.
    by rewrite (replace_join DOT) by (done || listed || distinct).
  - rewrite (count_join_same COMMA) by (done || listed || distinct).
    rewrite (count_join_other DOT COMMA) by (done || listed || distinct).
    counted.
    destruct (1 <? length groups - 1) eqn:Hn; [| done].
    rewrite !replace_app, !replace_sign by distinct.
    by rewrite (replace_join COMMA) by (done || listed || distinct).
Qed.

(** ** What follows the cleaning *)

Lemma excel_parse_text s :
  ReconcileExcel._parse_number (Str s)
  = ReconcileExcel.extract_number (ReconcileExcel.cleaned s).
Proof. reflexivity. Qed.

Lemma pdf_parse_text s :
  InvoicePdf._parse_number (Str s) = InvoicePdf.convert (InvoicePdf.cleaned s).
Proof. reflexivity. Qed.

Lemma dotted_digits s : digits_only s -> dotted s.
Proof. intros H. eapply Forall_impl; [exact H |]. by left. Qed.

Lemma dotted_join groups : Forall digits_only groups -> dotted (join DOT groups).
Proof.
  induction 1 as [| g gs Hg _ IH]; [constructor |].
  cbn [join]. destruct gs as [| g' gs']; [by apply dotted_digits |].
  apply Forall_app. split; [by apply dotted_digits |].
  constructor; [by right | done].
Qed.

Lemma dotted_digit_or_dot s :
  dotted s -> Forall (fun c => ReconcileExcel.digit_or_dot c = true) s.
Proof.
  intros H. eapply Forall_impl; [exact H |]. intros c [Hc | ->].
  - unfold ReconcileExcel.digit_or_dot. by rewrite (isdecimal_digit09 c Hc).
  - reflexivity.
Qed.


Lemma search_number_signed neg body :
  dotted body -> body <> [] ->
  ReconcileExcel.search_number (sign neg ++ body) = Some (sign neg ++ body).
Proof.
  intros Hb Hne. destruct body as [| c r]; [done |].
  pose proof (dotted_digit_or_dot _ Hb) as Hd.
  pose proof (take_while_all _ _ Hd) as Ht.
  apply Forall_cons in Hd as [Hc _].
  destruct neg; cbn [sign app ReconcileExcel.search_number].
  - change (ReconcileExcel.digit_or_dot MINUS) with false.
    rewrite N.eqb_refl, Hc. cbn [andb]. by rewrite Ht.
  - rewrite Hc. by rewrite Ht.
Qed.

Lemma search_number_sign neg : ReconcileExcel.search_number (sign neg) = None.
Proof. by destruct neg. Qed.




(** On a signed text of digits and points the two parsers end alike. *)
Lemma tails_agree neg body :
  dotted body ->
  ReconcileExcel.extract_number (sign neg ++ body) = InvoicePdf.convert (sign neg ++ body).
Proof.
  intros Hb. unfold ReconcileExcel.extract_number, InvoicePdf.convert.
  destruct body as [| c r].
  - rewrite app_nil_r, search_number_sign. by destruct neg.
  - rewrite search_number_signed by done.
    by destruct neg.
Qed.



(** ** What reaches [float()] *)

Lemma take_while_class cls s :
  Forall (fun c => cls c = true) (take_while cls s).
Proof.
  induction s as [| c s IH]; [constructor |].
  cbn. destruct (cls c) eqn:E; [by constructor | constructor].
Qed.

Lemma replace_class (P : char -> Prop) old new s :
  Forall P new -> Forall P s -> Forall P (replace old new s).
Proof.
  intros Hn. induction 1 as [| c s Hc Hs IH]; [constructor |].
  unfold replace in *. cbn [flat_map]. apply Forall_app. split; [| done].
  destruct (c =? old)%N; [done | by constructor].
Qed.

(** The Excel parser hands [float()] a run of decimal digits and points,
    with a minus sign before it or not. *)
Lemma float_argument_excel t m :
  ReconcileExcel.search_number t = Some m ->
  Forall (fun c => isdecimal c = true \/ c = DOT \/ c = MINUS) m.
Proof.
  assert (forall s,
             Forall (fun c => isdecimal c = true \/ c = DOT \/ c = MINUS)
                    (take_while ReconcileExcel.digit_or_dot s)) as Hrun.
  { intros s. eapply Forall_impl; [apply take_while_class |].
    intros c Hc. unfold ReconcileExcel.digit_or_dot in Hc.
    apply orb_true_iff in Hc as [Hc | Hc%N.eqb_eq]; tauto. }
  induction t as [| c t IH]; [done |].
  cbn [ReconcileExcel.search_number].
  destruct (ReconcileExcel.digit_or_dot c).
  - intros [= <-]. apply (Hrun (c :: t)).
  - destruct (c =? MINUS)%N eqn:Hc; cbn [andb]; [| exact IH].
    apply N.eqb_eq in Hc as ->.
    destruct (match t with [] => false | d :: _ => _ end); [| exact IH].
    intros [= <-]. constructor; [tauto | apply Hrun].
Qed.

(** The PDF parser hands [float()] a text of digits 0 to 9, points,
    commas and minus signs. *)
Lemma float_argument_pdf s :
  Forall (fun c => plain c = true) (InvoicePdf.cleaned s).
Proof.
  unfold InvoicePdf.cleaned, InvoicePdf.separators_resolved.
  assert (Forall (fun c => plain c = true)
            (delete_class (fun c => negb (InvoicePdf.numeric_char c))
                          (strip s))) as H.
  { unfold delete_class. apply Forall_forall. intros c Hc.
    apply list_elem_of_In, filter_In in Hc as [_ Hc].
    by apply negb_true_iff, negb_false_iff in Hc. }
  repeat case_match; try done;
    repeat (apply replace_class; [by repeat constructor |]); done.
Qed.

(** ** Texts without any digit *)

Lemma digitless_drop_while cls s : digitless s -> digitless (drop_while cls s).
Proof.
  induction 1 as [| c s Hc Hs IH]; [constructor |].
  cbn. destruct (cls c); [done | by constructor].
Qed.

Lemma digitless_take_while cls s : digitless s -> digitless (take_while cls s).
Proof.
  induction 1 as [| c s Hc Hs IH]; [constructor |].
  cbn. destruct (cls c); [by constructor | constructor].
Qed.

Lemma digitless_rev s : digitless s -> digitless (rev s).
Proof.
  unfold digitless. intros H. apply Forall_forall. intros c Hc.
  rewrite Forall_forall in H. apply H.
  apply list_elem_of_In. apply list_elem_of_In in Hc. by apply in_rev.
Qed.

Lemma digitless_strip s : digitless s -> digitless (strip s).
Proof.
  intros H. unfold strip, rstrip, lstrip.
  by apply digitless_rev, digitless_drop_while, digitless_rev,
    digitless_drop_while.
Qed.

Lemma digitless_delete_class cls s :
  digitless s -> digitless (delete_class cls s).
Proof.
  induction 1 as [| c s Hc Hs IH]; [constructor |].
  unfold delete_class in *. cbn. destruct (negb (cls c)); [by constructor | done].
Qed.

Lemma digitless_replace old new s :
  digitless new -> digitless s -> digitless (replace old new s).
Proof.
  intros Hn. induction 1 as [| c s Hc Hs IH]; [constructor |].
  unfold replace in *. cbn [flat_map]. apply Forall_app. split; [| done].
  destruct (c =? old)%N; [done | by constructor].
Qed.

Lemma digitless_excel_cleaned s :
  digitless s -> digitless (ReconcileExcel.cleaned s).
Proof.
  intros H. unfold ReconcileExcel.cleaned, ReconcileExcel.separators_resolved.
  pose proof (digitless_delete_class ReconcileExcel.currency_or_space _
                (digitless_strip _ H)) as H'.
  repeat case_match; try done.
  - apply digitless_replace; [by repeat constructor |].
    apply digitless_replace; [constructor | done].
  - apply digitless_replace; [constructor | done].
Qed.

Lemma digitless_pdf_cleaned s :
  digitless s -> digitless (InvoicePdf.cleaned s).
Proof.
  intros H. unfold InvoicePdf.cleaned, InvoicePdf.separators_resolved.
  pose proof (digitless_delete_class
                (fun c => negb (InvoicePdf.numeric_char c)) _
                (digitless_strip _ H)) as H'.
  repeat case_match; try done.
  - apply digitless_replace; [by repeat constructor |].
    apply digitless_replace; [constructor | done].
  - apply digitless_replace; [constructor | done].
  - apply digitless_replace; [constructor | done].
  - apply digitless_replace; [constructor | done].
Qed.

Lemma digitless_search_number s m :
  digitless s -> ReconcileExcel.search_number s = Some m -> digitless m.
Proof.
  induction 1 as [| c s Hc Hs IH]; [done |].
  cbn [ReconcileExcel.search_number].
  destruct (ReconcileExcel.digit_or_dot c).
  - intros [= <-]. apply (digitless_take_while _ (c :: s)). by constructor.
  - destruct (_ && _).
    + intros [= <-]. constructor; [done |]. by apply digitless_take_while.
    + exact IH.
Qed.

Lemma float_of_unsigned_digitless neg s :
  digitless s -> float_of_unsigned neg s = Raise ValueError.
Proof.
  intros H. unfold float_of_unsigned.
  destruct H as [| c r Hc Hr]; [done |].
  cbn [take_while drop_while]. rewrite Hc. cbn [digits].
  destruct (c =? DOT)%N; [| done].
  destruct Hr as [| d r' Hd _]; [done |].
  cbn [digits]. unfold isdecimal in Hd. by destruct (decimal d).
Qed.

Lemma float_of_str_digitless s :
  digitless s -> float_of_str s = Raise ValueError.
Proof.
  intros H. unfold float_of_str. destruct H as [| c r Hc Hr]; [done |].
  repeat case_match; apply float_of_unsigned_digitless;
    (done || by constructor).
Qed.

(** ** The readings of a numeric text with one kind of separator *)

(** ** C1 *)

(** C1 (the code departs from the claim): on a text with one comma followed
    by one point, the code takes the branch commented as the Vietnamese
    format, drops the point and turns the comma into the decimal point.
    Both parsers read "1,234.56" as 1.23456, not as 1234.56; the PDF
    parser reads "1.000.000,50" as 0 and "1.234,56" as 1.23456, the Excel
    parser reads "1.234,56" as 1.234. *)
Theorem rightmost_separator_examples :
  ReconcileExcel._parse_number (Str (lit "1,234.56"))
    = Ok (Float (float_of_decimal false 123456 5))
  /\ InvoicePdf._parse_number (Str (lit "1,234.56"))
    = Ok (Float (float_of_decimal false 123456 5))
  /\ float_of_decimal false 123456 5 <> float_of_decimal false 123456 2
  /\ ReconcileExcel._parse_number (Str (lit "1.000.000,50"))
    = Ok (Float (float_of_decimal false 100000050 2))
  /\ InvoicePdf._parse_number (Str (lit "1.000.000,50")) = Ok (Int 0)
  /\ ReconcileExcel._parse_number (Str (lit "1.234,56"))
    = Ok (Float (float_of_decimal false 1234 3))
  /\ InvoicePdf._parse_number (Str (lit "1.234,56"))
    = Ok (Float (float_of_decimal false 123456 5)).
Proof. repeat split; vm_compute; congruence. Qed.

(** ** C2 *)




(** ** C3 *)

(** C3: on every text both parsers return a number and raise nothing: the
    float that [float()] reads from the cleaned text, and 0 (the [int],
    equal to 0.0) when there is nothing to read or [float()] rejects it;
    a text without any digit yields 0. *)
Theorem parse_number_total (s : str) :
  (exists v, ReconcileExcel._parse_number (Str s) = Ok v
     /\ match ReconcileExcel.search_number (ReconcileExcel.cleaned s) with
        | Some m => match float_of_str m with
                    | Ok f => v = Float f
                    | Raise _ => v = Int 0
                    end
        | None => v = Int 0
        end)
  /\ (exists v, InvoicePdf._parse_number (Str s) = Ok v
     /\ match InvoicePdf.cleaned s with
        | [] => v = Int 0
        | m => match float_of_str m with
               | Ok f => v = Float f
               | Raise _ => v = Int 0
               end
        end)
  /\ (digitless s ->
      ReconcileExcel._parse_number (Str s) = Ok (Int 0)
      /\ InvoicePdf._parse_number (Str s) = Ok (Int 0))
  /\ Py.eq (Int 0) (Float (S754_zero false)) = true.
Proof.
  repeat split.
  - rewrite excel_parse_text. unfold ReconcileExcel.extract_number.
    destruct (ReconcileExcel.search_number _) as [m |]; [| by eexists].
    destruct (float_of_str m) as [f | e] eqn:E; [by eexists |].
    apply float_of_str_error in E as ->. by eexists.
  - rewrite pdf_parse_text. unfold InvoicePdf.convert.
    destruct (InvoicePdf.cleaned s) as [| c r]; [by eexists |].
    destruct (float_of_str (c :: r)) as [f | e] eqn:E; [by eexists |].
    apply float_of_str_error in E as ->. by eexists.
  - rewrite excel_parse_text. unfold ReconcileExcel.extract_number.
    pose proof (digitless_excel_cleaned _ H) as H'.
    destruct (ReconcileExcel.search_number _) as [m |] eqn:E; [| done].
    by rewrite (float_of_str_digitless _ (digitless_search_number _ _ H' E)).
  - rewrite pdf_parse_text. unfold InvoicePdf.convert.
    pose proof (digitless_pdf_cleaned _ H) as H'.
    destruct (InvoicePdf.cleaned s) as [| c r]; [done |].
    by rewrite (float_of_str_digitless _ H').
Qed.

Lemma parse_number_total_witness :
  digitless (lit "n/a")
  /\ ReconcileExcel._parse_number (Str (lit "n/a")) = Ok (Int 0)
  /\ InvoicePdf._parse_number (Str (lit "n/a")) = Ok (Int 0).
Proof.
  assert (digitless (lit "n/a")) as H by (by repeat constructor).
  split; [exact H |].
  exact (proj1 (proj2 (proj2 (parse_number_total (lit "n/a")))) H).
Defined.

(** ** C10 *)

(** C10 as stated fails: the Excel parser reads the first run of digits,
    the PDF parser reads all the digits of the text. *)
Lemma parsers_disagree :
  ReconcileExcel._parse_number (Str (lit "12 kg 34"))
    = Ok (Float (float_of_decimal false 12 0))
  /\ InvoicePdf._parse_number (Str (lit "12 kg 34"))
    = Ok (Float (float_of_decimal false 1234 0))
  /\ ~ (forall s, ReconcileExcel._parse_number (Str s)
                  = InvoicePdf._parse_number (Str s)).
Proof.
  repeat split; [vm_compute; congruence .. |].
  intros H. specialize (H (lit "12 kg 34")). vm_compute in H. congruence.
Qed.

(** The two parsers differ on the examples of C10 as well. *)
Lemma parsers_disagree_vietnamese :
  ReconcileExcel._parse_number (Str (lit "1.234,56"))
    <> InvoicePdf._parse_number (Str (lit "1.234,56"))
  /\ ReconcileExcel._parse_number (Str (lit "1.000.000,50"))
    <> InvoicePdf._parse_number (Str (lit "1.000.000,50")).
Proof. split; vm_compute; congruence. Qed.

(** C10, amended: the two parsers return the same number on every text
    made of an optional sign and groups of digits joined by points, or by
    commas when there is not exactly one comma. *)
Theorem parsers_agree_same_separator s :
  same_separator s ->
  ReconcileExcel._parse_number (Str s) = InvoicePdf._parse_number (Str s).
Proof.
  intros (neg & sep & groups & Hg & Hsep & ->).
  rewrite excel_parse_text, pdf_parse_text.
  rewrite excel_cleaned, pdf_cleaned by tauto.
  apply tails_agree. unfold resolved.
  destruct (1 <? length groups - 1) eqn:Hn.
  - by apply dotted_digits, digits_only_concat.
  - destruct Hsep as [-> | [-> Hlen]]; [by apply dotted_join |].
    apply Nat.ltb_ge in Hn.
    destruct Hg as [| g gs Hg1 Hgs]; [constructor |].
    destruct Hgs as [| g' gs' _ _]; [by apply dotted_digits |].
    cbn in Hn, Hlen. lia.
Qed.

Lemma parsers_agree_same_separator_witness :
  same_separator (lit "-1,000,000")
  /\ ReconcileExcel._parse_number (Str (lit "-1,000,000"))
     = InvoicePdf._parse_number (Str (lit "-1,000,000")).
Proof.
  assert (same_separator (lit "-1,000,000")) as H.
  { exists true, COMMA, [lit "1"; lit "000"; lit "000"].
    split; [repeat constructor |]. split; [| reflexivity].
    right. split; [reflexivity |]. simpl. lia. }
  split; [exact H |].
  exact (parsers_agree_same_separator _ H).
Defined.

End ParserFacts.

(* ===================================================================== *)
(** * The totals extractors                                               *)
(* ===================================================================== *)

Module TotalsFacts.
Import Py ExtractedTotals.

Lemma for_loop_invariant {A S} (P : S -> Prop) (body : A -> S -> result (flow S))
    xs s s' :
  (forall x s r, P s -> body x s = Ok r -> P (state r)) ->
  P s -> for_loop xs body s = Ok s' -> P s'.
Proof.
  intros Hbody. revert s. induction xs as [| x xs IH]; intros s Hs; cbn.
  - by intros [= <-].
  - destruct (body x s) as [[s1 | s1] | e] eqn:E; [| | done].
    + apply IH. apply (Hbody x s (Next s1) Hs E).
    + intros [= <-]. apply (Hbody x s (Break s1) Hs E).
Qed.

Lemma for_loop_returns {A S} (body : A -> S -> result (flow S)) xs s :
  (forall x s, exists r, body x s = Ok r) ->
  exists s', for_loop xs body s = Ok s'.
Proof.
  intros Hbody. revert s. induction xs as [| x xs IH]; intros s; cbn.
  - by eexists.
  - destruct (Hbody x s) as [[s1 | s1] ->]; [apply IH | by eexists].
Qed.

Lemma for_loop_idle {A S} (body : A -> S -> result (flow S)) xs s :
  (forall x, x ∈ xs -> body x s = Ok (Next s)) -> for_loop xs body s = Ok s.
Proof.
  induction xs as [| x xs IH]; intros Hbody; cbn; [done |].
  rewrite (Hbody x) by listed. apply IH.
  intros y Hy. apply Hbody. by apply list_elem_of_further.
Qed.

Lemma bind_value {A B} (a : A) (k : A -> result B) : (x ← Ok a; k x) = k a.
Proof. reflexivity. Qed.

Lemma bind_ok {A B} (r : result A) (k : A -> result B) b :
  (x ← r; k x) = Ok b -> exists a, r = Ok a /\ k a = Ok b.
Proof. destruct r as [a | e]; [by exists a | done]. Qed.

(** ** Order facts *)

Lemma compare_lt_mono a b z :
  (b <= a)%Z -> (a ?= z)%Z = Lt -> (b ?= z)%Z = Lt.
Proof. rewrite !Z.compare_lt_iff. lia. Qed.

Lemma lt_int_mono a b v :
  (b <= a)%Z -> lt (Int a) v = true -> lt (Int b) v = true.
Proof.
  intros Hab. unfold lt. destruct v as [z | f]; cbn.
  - destruct (a ?= z)%Z eqn:E; try done. intros _.
    by rewrite (compare_lt_mono a b z Hab E).
  - destruct f as [s | s | | s m e]; cbn; try done.
    + destruct (a ?= 0)%Z eqn:E; try done. intros _.
      by rewrite (compare_lt_mono a b 0 Hab E).
    + destruct (0 <=? e)%Z eqn:He.
      * destruct (a ?= _)%Z eqn:E; try done. intros _.
        by rewrite (compare_lt_mono a b _ Hab E).
      * destruct (a * _ ?= _)%Z eqn:E; try done. intros _.
        apply Z.leb_gt in He.
        assert (0 < 2 ^ (- e))%Z as Hp by (apply Z.pow_pos_nonneg; lia).
        rewrite (compare_lt_mono (a * 2 ^ (- e)) (b * 2 ^ (- e)) _);
          [done | apply Z.mul_le_mono_nonneg_r; lia | done].
Qed.

Lemma not_gt_zero v a :
  (0 <= a)%Z -> gt v (Int 0) = false -> lt (Int a) v = false.
Proof.
  intros Ha Hv. destruct (lt (Int a) v) eqn:E; [| done].
  apply (lt_int_mono a 0 v Ha) in E. unfold gt in Hv. congruence.
Qed.

Lemma gt_zero_not_eq v : gt v (Int 0) = true -> Py.eq v (Int 0) = false.
Proof.
  unfold gt, lt, Py.eq. destruct v as [z | f]; cbn.
  - by destruct z.
  - by destruct (compare_int_float 0 f) as [[] |].
Qed.

Lemma positive_insert totals k v :
  positive_totals totals -> gt v (Int 0) = true ->
  positive_totals (<[k := v]> totals).
Proof.
  intros Ht Hv k' v'. rewrite lookup_insert.
  case_decide; [by intros [= <-] | apply Ht].
Qed.

Lemma positive_empty : positive_totals ∅.
Proof. intros k v. by rewrite lookup_empty. Qed.

Ltac run_bind H :=
  apply bind_ok in H as (? & ? & H).

(** ** invoice_pdf.py *)

Lemma pdf_parse_returns s : exists v, InvoicePdf._parse_number (Str s) = Ok v.
Proof.
  rewrite ParserFacts.pdf_parse_text. unfold InvoicePdf.convert.
  destruct (InvoicePdf.cleaned s) as [| c r]; [by eexists |].
  destruct (float_of_str (c :: r)) as [f | e] eqn:E; [by eexists |].
  apply PyFacts.float_of_str_error in E as ->. by eexists.
Qed.

Lemma vat_step_positive num totals r :
  positive_totals totals -> InvoicePdf.vat_step num totals = Ok r ->
  positive_totals (state r).
Proof.
  intros Ht H. unfold InvoicePdf.vat_step in H. run_bind H.
  repeat case_match; simplify_eq; cbn [state]; try done.
  - apply positive_insert; [done |]. unfold gt. 
    by repeat match goal with H : _ && _ = true |- _ => apply andb_true_iff in H as [? ?] end.
  - apply positive_insert; [done |].
    repeat match goal with H : _ && _ = true |- _ => apply andb_true_iff in H as [? ?] end.
    unfold gt in *. by apply (lt_int_mono 100 0).
Qed.

Lemma before_tax_step_positive num totals r :
  positive_totals totals -> InvoicePdf.before_tax_step num totals = Ok r ->
  positive_totals (state r).
Proof.
  intros Ht H. unfold InvoicePdf.before_tax_step in H. run_bind H.
  case_match; simplify_eq; cbn [state]; [| done].
  by apply positive_insert.
Qed.

Lemma payment_step_positive num totals r :
  positive_totals totals -> InvoicePdf.payment_step num totals = Ok r ->
  positive_totals (state r).
Proof.
  intros Ht H. unfold InvoicePdf.payment_step in H. run_bind H.
  case_match; simplify_eq; cbn [state]; [| done].
  apply positive_insert; [done |]. unfold max.
  destruct (totals !! "total_payment") as [old |] eqn:E; cbn [default].
  - case_match; [done |]. by apply (Ht "total_payment").
  - by case_match.
Qed.

Section Extractors.
Variable lower : str -> str.
Variable str_of_float : float -> str.

Lemma line_step_positive line totals r :
  positive_totals totals -> InvoicePdf.line_step lower line totals = Ok r ->
  positive_totals (state r).
Proof.
  intros Ht H. unfold InvoicePdf.line_step in H.
  run_bind H. run_bind H. run_bind H. simplify_eq. cbn [state].
  repeat match goal with
    | H : (if ?c then _ else _) = Ok _ |- _ => destruct c; simplify_eq
    end;
  repeat match goal with
    | H : for_loop _ InvoicePdf.vat_step _ = Ok _ |- _ =>
        apply (for_loop_invariant positive_totals) in H;
        [| apply vat_step_positive | done]
    | H : for_loop _ InvoicePdf.before_tax_step _ = Ok _ |- _ =>
        apply (for_loop_invariant positive_totals) in H;
        [| apply before_tax_step_positive | done]
    | H : for_loop _ InvoicePdf.payment_step _ = Ok _ |- _ =>
        apply (for_loop_invariant positive_totals) in H;
        [| apply payment_step_positive | done]
    end; done.
Qed.

Lemma pdf_totals_positive text totals :
  InvoicePdf.extract_totals_from_text_content lower text = Ok totals ->
  positive_totals totals.
Proof.
  apply (for_loop_invariant positive_totals);
    [apply line_step_positive | apply positive_empty].
Qed.

(** The PDF extractor returns totals for every text. *)
Lemma pdf_totals_returns text :
  exists totals,
    InvoicePdf.extract_totals_from_text_content lower text = Ok totals.
Proof.
  apply for_loop_returns. intros line totals.
  assert (forall (step : str -> gmap string number
                         -> result (flow (gmap string number))),
             (forall num t, exists r, step num t = Ok r) ->
             forall (b : bool) (nums : list str) t,
             exists t', (if b then for_loop nums step t else Ok t) = Ok t')
    as Hloop.
  { intros step Hstep [] nums t; [| by eexists].
    by apply for_loop_returns. }
  assert (forall num t, exists r, InvoicePdf.vat_step num t = Ok r) as H1.
  { intros num t. unfold InvoicePdf.vat_step.
    destruct (pdf_parse_returns num) as [v ->]. cbn.
    repeat case_match; by eexists. }
  assert (forall num t, exists r, InvoicePdf.before_tax_step num t = Ok r)
    as H2.
  { intros num t. unfold InvoicePdf.before_tax_step.
    destruct (pdf_parse_returns num) as [v ->]. cbn.
    repeat case_match; by eexists. }
  assert (forall num t, exists r, InvoicePdf.payment_step num t = Ok r)
    as H3.
  { intros num t. unfold InvoicePdf.payment_step.
    destruct (pdf_parse_returns num) as [v ->]. cbn.
    repeat case_match; by eexists. }
  unfold InvoicePdf.line_step.
  edestruct (Hloop _ H1) as [t1 ->]. cbn.
  edestruct (Hloop _ H2) as [t2 ->]. cbn.
  edestruct (Hloop _ H3) as [t3 ->]. cbn.
  by eexists.
Qed.

Lemma line_step_idle line totals :
  (forall num,
      num ∈ findall_class InvoicePdf.digit_dot_comma line ->
      exists val,
        InvoicePdf._parse_number (Str num) = Ok val
        /\ gt val (Int 0) = false) ->
  InvoicePdf.line_step lower line totals = Ok (Next totals).
Proof.
  intros Hnum. unfold InvoicePdf.line_step.
  assert (forall (step : str -> gmap string number
                         -> result (flow (gmap string number))) (b : bool),
             (forall num val t,
                 InvoicePdf._parse_number (Str num) = Ok val ->
                 gt val (Int 0) = false -> step num t = Ok (Next t)) ->
             (if b
              then for_loop (findall_class InvoicePdf.digit_dot_comma line)
                            step totals
              else Ok totals) = Ok totals) as Hloop.
  { intros step [] Hstep; [| done]. apply for_loop_idle.
    intros num Hin. destruct (Hnum num Hin) as (val & Hval & Hpos).
    by apply (Hstep num val). }
  rewrite (Hloop InvoicePdf.vat_step).
  2:{ intros num val t Hval Hpos. unfold InvoicePdf.vat_step.
      rewrite Hval. cbn.
      assert (lt (Int 0) val = false) as -> by exact Hpos.
      assert (gt val (Int 100) = false) as ->
        by (by apply not_gt_zero).
      done. }
  cbn. rewrite (Hloop InvoicePdf.before_tax_step).
  2:{ intros num val t Hval Hpos. unfold InvoicePdf.before_tax_step.
      rewrite Hval. cbn. by rewrite Hpos. }
  cbn. rewrite (Hloop InvoicePdf.payment_step).
  2:{ intros num val t Hval Hpos. unfold InvoicePdf.payment_step.
      rewrite Hval. cbn. by rewrite Hpos. }
  done.
Qed.

(** A text in which no number is positive yields no key. *)
Lemma pdf_totals_absent text :
  no_positive_number text ->
  InvoicePdf.extract_totals_from_text_content lower text = Ok ∅.
Proof.
  intros H. apply for_loop_idle. intros line Hline.
  apply line_step_idle. intros num Hnum. by apply (H line).
Qed.

(** ** reconcile_excel.py *)

Lemma vat_rate_step_positive c totals r :
  positive_totals totals ->
  ReconcileExcel.vat_rate_step c totals = Ok r ->
  positive_totals (state r).
Proof.
  intros Ht H. unfold ReconcileExcel.vat_rate_step in H.
  repeat case_match; simplify_eq; cbn [state]; try done.
  apply positive_insert; [done |].
  repeat match goal with
    | H : _ && _ = true |- _ => apply andb_true_iff in H as [? ?]
    end.
  done.
Qed.

Lemma money_step_positive key c totals r :
  positive_totals totals ->
  ReconcileExcel.money_step key c totals = Ok r ->
  positive_totals (state r).
Proof.
  intros Ht H. unfold ReconcileExcel.money_step in H.
  destruct c as [v |]; [| by simplify_eq].
  destruct (ReconcileExcel.notna (Some v)); [| by simplify_eq].
  run_bind H. case_match; simplify_eq; cbn [state]; [| done].
  by apply positive_insert.
Qed.

Lemma row_step_positive row totals r :
  positive_totals totals ->
  ReconcileExcel.row_step lower str_of_float row totals = Ok r ->
  positive_totals (state r).
Proof.
  intros Ht H. unfold ReconcileExcel.row_step in H.
  run_bind H. run_bind H. run_bind H. run_bind H. simplify_eq.
  cbn [state].
  repeat match goal with
    | H : (if ?c then _ else _) = Ok _ |- _ => destruct c; simplify_eq
    end;
  repeat match goal with
    | H : for_loop _ ReconcileExcel.vat_rate_step _ = Ok _ |- _ =>
        apply (for_loop_invariant positive_totals) in H;
        [| apply vat_rate_step_positive | done]
    | H : for_loop _ (ReconcileExcel.money_step _) _ = Ok _ |- _ =>
        apply (for_loop_invariant positive_totals) in H;
        [| apply money_step_positive | done]
    end; done.
Qed.

Lemma excel_totals_positive df totals :
  ReconcileExcel._extract_totals lower str_of_float df = Ok totals ->
  positive_totals totals.
Proof.
  apply (for_loop_invariant positive_totals);
    [apply row_step_positive | apply positive_empty].
Qed.

Lemma row_step_idle row totals :
  (forall v, Some v ∈ row ->
      (exists val,
          ReconcileExcel._parse_money v = Ok val /\ gt val (Int 0) = false)
      /\ (forall n, v = Num n -> lt (Int 0) n = false)) ->
  ReconcileExcel.row_step lower str_of_float row totals = Ok (Next totals).
Proof.
  intros Hrow. unfold ReconcileExcel.row_step.
  assert (forall b : bool,
             (if b then for_loop row ReconcileExcel.vat_rate_step totals
              else Ok totals) = Ok totals) as Hrate.
  { intros []; [| done]. apply for_loop_idle. intros c Hc.
    unfold ReconcileExcel.vat_rate_step.
    destruct c as [[n | s] |]; [| done ..].
    destruct (Hrow _ Hc) as [_ Hn]. rewrite (Hn n eq_refl).
    by rewrite andb_false_r. }
  assert (forall (b : bool) key,
             (if b then for_loop row (ReconcileExcel.money_step key) totals
              else Ok totals) = Ok totals) as Hmoney.
  { intros [] key; [| done]. apply for_loop_idle. intros c Hc.
    unfold ReconcileExcel.money_step.
    destruct c as [v |]; [| done].
    destruct (ReconcileExcel.notna (Some v)); [| done].
    destruct (Hrow _ Hc) as [(val & Hval & Hpos) _].
    rewrite Hval. cbn. by rewrite Hpos. }
  by rewrite Hrate, bind_value, Hmoney, bind_value, Hmoney, bind_value, Hmoney.
Qed.

(** A sheet in which no cell is positive yields no key. *)
Lemma excel_totals_absent df :
  no_positive_cell df ->
  ReconcileExcel._extract_totals lower str_of_float df = Ok ∅.
Proof.
  intros H. apply for_loop_idle. intros row Hrow.
  apply row_step_idle. intros v Hv. by apply (H row).
Qed.

(** ** C6 *)

(** C6, amended: totals extraction records a key only for a value that
    is strictly positive.  Every key of the totals that either extractor
    returns carries a value greater than 0, hence different from 0; and a
    document in which no number is positive, such as one whose totals are
    all written as 0, yields no key at all: a zero total is left absent. *)
Theorem recorded_totals_positive :
  (forall k v,
      recorded lower str_of_float k v ->
      gt v (Int 0) = true /\ Py.eq v (Int 0) = false)
  /\ (forall text,
        no_positive_number text ->
        InvoicePdf.extract_totals_from_text_content lower text = Ok ∅)
  /\ (forall df,
        no_positive_cell df ->
        ReconcileExcel._extract_totals lower str_of_float df = Ok ∅).
Proof.
  split; [| split; [apply pdf_totals_absent | apply excel_totals_absent]].
  intros k v H.
  assert (gt v (Int 0) = true) as Hv.
  { destruct H as [(text & totals & Hrun & Hk) | (df & totals & Hrun & Hk)].
    - by apply (pdf_totals_positive text totals Hrun k).
    - by apply (excel_totals_positive df totals Hrun k). }
  split; [done | by apply gt_zero_not_eq].
Qed.
End Extractors.

(** C6 as stated fails: a zero total that is in the document yields no
    key, in the PDF extractor and in the Excel extractor alike, where the
    same line with the total 15 yields the key. *)
Lemma zero_total_dropped :
  InvoicePdf.extract_totals_from_text_content ascii_lower
    (lit "Grand Total: 0") = Ok ∅
  /\ InvoicePdf.extract_totals_from_text_content ascii_lower
       (lit "Grand Total: 15")
     = Ok {[ "total_payment" := Float (float_of_decimal false 15 0) ]}
  /\ (forall str_of_float,
        ReconcileExcel._extract_totals ascii_lower str_of_float
          [[Some (Str (lit "Grand Total")); Some (Num (Int 0))]] = Ok ∅).
Proof. repeat split. Qed.

Lemma recorded_totals_positive_witness :
  (recorded ascii_lower (fun _ => []) "total_payment"
            (Float (float_of_decimal false 15 0))
   /\ gt (Float (float_of_decimal false 15 0)) (Int 0) = true
   /\ Py.eq (Float (float_of_decimal false 15 0)) (Int 0) = false)
  /\ (no_positive_number (lit "Grand Total: 0")
      /\ InvoicePdf.extract_totals_from_text_content ascii_lower
           (lit "Grand Total: 0") = Ok ∅).
Proof.
  assert (recorded ascii_lower (fun _ => []) "total_payment"
                   (Float (float_of_decimal false 15 0))) as H.
  { left. exists (lit "Grand Total: 15"). eexists. split; reflexivity. }
  assert (no_positive_number (lit "Grand Total: 0")) as H0.
  { intros line num Hline Hnum.
    apply list_elem_of_singleton in Hline as ->.
    apply list_elem_of_singleton in Hnum as ->.
    eexists. split; reflexivity. }
  split.
  - split; [exact H |].
    exact (proj1 (recorded_totals_positive ascii_lower (fun _ => [])) _ _ H).
  - split; [exact H0 |].
    exact (proj1 (proj2 (recorded_totals_positive ascii_lower (fun _ => [])))
             _ H0).
Defined.

End TotalsFacts.

(* ===================================================================== *)
(** * The reconciliation engine                                           *)
(* ===================================================================== *)

Module CoreFacts.
Import Py Core.

Lemma Qltb_lt a b : Qltb a b = true <-> (a < b)%Q.
Proof.
  unfold Qltb. rewrite negb_true_iff. split.
  - intros H. apply Qnot_le_lt. intros Hle.
    apply Qle_bool_iff in Hle. congruence.
  - intros H. destruct (Qle_bool b a) eqn:E; [| done].
    apply Qle_bool_iff in E. by apply Qle_not_lt in E.
Qed.

Lemma Qltb_ge a b : Qltb a b = false <-> (b <= a)%Q.
Proof.
  unfold Qltb. rewrite negb_false_iff. apply Qle_bool_iff.
Qed.

Lemma valid_tolerance_iff t :
  valid_tolerance t = true <-> (0 <= t /\ t < 1)%Q.
Proof.
  unfold valid_tolerance. by rewrite andb_true_iff, Qle_bool_iff, Qltb_lt.
Qed.

(** The tolerances [app.py] derives from its two widgets are fractions in
    [[0,1)]. *)
Lemma app_tolerance_valid percent :
  App.number_input percent ->
  valid_tolerance (App.tolerance_of_percent percent) = true.
Proof.
  unfold App.number_input, App.min_value, App.max_value,
    App.tolerance_of_percent.
  intros [H0 H10]. apply valid_tolerance_iff.
  split.
  - apply Qle_shift_div_l; [reflexivity | lra].
  - apply Qlt_shift_div_r; [reflexivity | lra].
Qed.

Section Engine.
Variable eps : Q.
Hypothesis eps_pos : (0 < eps)%Q.
Variable text_similarity : str -> str -> Q.

(** ** C4 *)


(** ** C8 *)


(** ** C5 *)

Lemma field_verdict reconciliation invoice amount_tolerance
    vat_tolerance f :
  let fc := compare_field eps reconciliation invoice amount_tolerance
                          vat_tolerance f in
  implb (present_on_both fc) (field_match fc) = true
  <-> forall a b,
      reconciliation !! f = Some a -> invoice !! f = Some b ->
      numeric_match eps a b
        (tolerance_for f amount_tolerance vat_tolerance) = true.
Proof.
  unfold compare_field, present_on_both. cbn.
  destruct (reconciliation !! f) as [a |], (invoice !! f) as [b |]; cbn;
    split; try done.
  - intros H a' b' [= <-] [= <-]. done.
  - intros H. by apply H.
Qed.

(** C5: the overall [totals_match] of [reconcile_totals] is true iff
    every recognized field that both sides carry matches within its
    tolerance; a field that either side lacks takes no part in it, so
    totals with no field in common match. *)
Theorem totals_match_present_fields reconciliation invoice
    amount_tolerance vat_tolerance :
  (totals_match (reconcile_totals eps reconciliation invoice
                   amount_tolerance vat_tolerance) = true
   <-> forall f a b,
       f ∈ recognized_fields ->
       reconciliation !! f = Some a -> invoice !! f = Some b ->
       numeric_match eps a b
         (tolerance_for f amount_tolerance vat_tolerance) = true)
  /\ ((forall f, reconciliation !! f = None \/ invoice !! f = None) ->
      totals_match (reconcile_totals eps reconciliation invoice
                      amount_tolerance vat_tolerance) = true).
Proof.
  assert (totals_match (reconcile_totals eps reconciliation invoice
                          amount_tolerance vat_tolerance) = true
          <-> forall f a b,
              f ∈ recognized_fields ->
              reconciliation !! f = Some a -> invoice !! f = Some b ->
              numeric_match eps a b
                (tolerance_for f amount_tolerance vat_tolerance) = true)
    as Hiff.
  { unfold reconcile_totals. cbn [totals_match].
    rewrite forallb_forall. split.
    - intros H f a b Hf. apply field_verdict.
      apply (H (f, compare_field eps reconciliation invoice
                     amount_tolerance vat_tolerance f)).
      apply in_map_iff. exists f. split; [done |].
      by apply list_elem_of_In.
    - intros H [f fc] Hin. apply in_map_iff in Hin as (f' & [= <- <-] & Hf).
      apply field_verdict. intros a b. apply H.
      by apply list_elem_of_In. }
  split; [exact Hiff |].
  intros Habsent. apply Hiff. intros f a b _ Ha Hb.
  destruct (Habsent f); congruence.
Qed.
End Engine.

(** ** The pool *)

Lemma index_from_lower i invoice :
  Forall (fun c : candidate => i <= c.1) (index_from i invoice).
Proof.
  revert i. induction invoice as [| it rest IH]; intros i; cbn.
  - constructor.
  - constructor; [done |].
    eapply Forall_impl; [apply (IH (S i)) |]. intros c Hc. cbn in Hc. lia.
Qed.

Lemma index_from_ordered i invoice : ordered (index_from i invoice).
Proof.
  revert i. induction invoice as [| it rest IH]; intros i; cbn.
  - constructor.
  - constructor; [apply IH |].
    eapply Forall_impl; [apply (index_from_lower (S i)) |].
    intros c Hc. cbn in *. lia.
Qed.

Lemma index_from_items i invoice : map snd (index_from i invoice) = invoice.
Proof.
  revert i. induction invoice as [| it rest IH]; intros i; cbn; [done |].
  by rewrite IH.
Qed.

Lemma ordered_filter f pool : ordered pool -> ordered (List.filter f pool).
Proof.
  induction 1 as [| c pool Hs IH Hc]; cbn; [constructor |].
  destruct (f c); [| done]. constructor; [done |].
  apply Forall_forall. intros x Hx. rewrite Forall_forall in Hc.
  apply Hc. apply list_elem_of_In in Hx. apply filter_In in Hx as [Hx _].
  by apply list_elem_of_In.
Qed.

Lemma ordered_same_index pool (c1 c2 : candidate) :
  ordered pool -> c1 ∈ pool -> c2 ∈ pool -> c1.1 = c2.1 -> c1 = c2.
Proof.
  induction 1 as [| c pool Hs IH Hc]; [by intros ?%elem_of_nil |].
  rewrite Forall_forall in Hc.
  intros [-> | H1]%elem_of_cons [-> | H2]%elem_of_cons Heq.
  - done.
  - specialize (Hc _ H2). lia.
  - specialize (Hc _ H1). lia.
  - by apply IH.
Qed.

Lemma consume_later (c : candidate) pool :
  Forall (fun x : candidate => c.1 < x.1) pool -> consume c pool = pool.
Proof.
  unfold consume. induction 1 as [| x pool Hx _ IH]; cbn; [done |].
  rewrite IH. by rewrite (proj2 (Nat.eqb_neq x.1 c.1)) by lia.
Qed.

Lemma consume_permutation (c : candidate) pool :
  ordered pool -> c ∈ pool -> pool ≡ₚ c :: consume c pool.
Proof.
  induction 1 as [| x pool Hs IH Hx]; [by intros ?%elem_of_nil |].
  intros [-> | Hc]%elem_of_cons.
  - change (consume x (x :: pool))
      with (if negb (x.1 =? x.1) then x :: consume x pool
            else consume x pool).
    rewrite Nat.eqb_refl. cbn [negb].
    by rewrite (consume_later x pool Hx).
  - rewrite Forall_forall in Hx. specialize (Hx _ Hc).
    change (consume c (x :: pool))
      with (if negb (x.1 =? c.1) then x :: consume c pool
            else consume c pool).
    rewrite (proj2 (Nat.eqb_neq x.1 c.1)) by lia. cbn [negb].
    rewrite (IH Hc) at 1. apply perm_swap.
Qed.

Lemma consume_ordered (c : candidate) pool :
  ordered pool -> ordered (consume c pool).
Proof. apply ordered_filter. Qed.

(** ** The selection *)

Section Selection.
(** A selection by a rational key: [better c b] says that the key of [c]
    is strictly below the key of [b]. *)
Variable key : candidate -> Q.
Variable better : candidate -> candidate -> bool.
Hypothesis better_key : forall c b, better c b = true <-> (key c < key b)%Q.

Lemma first_best_least cs : forall seen best,
  least key seen best ->
  (forall x y, x ∈ seen -> y ∈ cs -> x.1 < y.1) ->
  ordered cs ->
  least key (seen ++ cs) (first_best better best cs).
Proof using better_key.
  induction cs as [| c cs IH]; intros seen best [Hin Hmin] Hlater Hord.
  - rewrite app_nil_r. by split.
  - cbn [first_best].
    replace (seen ++ c :: cs) with ((seen ++ [c]) ++ cs)
      by (by rewrite <- app_assoc).
    apply StronglySorted_inv in Hord as [Hord Hc].
    rewrite Forall_forall in Hc.
    apply IH; [| | done].
    + destruct (better c best) eqn:Hb.
      * apply better_key in Hb. split; [apply elem_of_app; right; listed |].
        intros x [Hx | ->%list_elem_of_singleton]%elem_of_app.
        -- left. destruct (Hmin x Hx) as [H | [H _]]; lra.
        -- right. split; [lra | done].
      * assert (key best <= key c)%Q as Hle.
        { apply Qnot_lt_le. intros H. apply better_key in H. congruence. }
        split; [apply elem_of_app; by left |].
        intros x [Hx | ->%list_elem_of_singleton]%elem_of_app.
        -- by apply Hmin.
        -- assert (best.1 < c.1) by (apply Hlater; [done | listed]).
           destruct (Qlt_le_dec (key best) (key c)); [by left |].
           right. split; [lra | lia].
    + intros x y [Hx | ->%list_elem_of_singleton]%elem_of_app Hy.
      * apply Hlater; [done |]. by apply list_elem_of_further.
      * by apply Hc.
Qed.

Lemma choose_least cs :
  ordered cs ->
  match choose better cs with
  | Some r => least key cs r
  | None => cs = []
  end.
Proof using better_key.
  intros Hord. destruct cs as [| c cs]; [done |]. cbn [choose].
  apply StronglySorted_inv in Hord as [Hord Hc].
  rewrite Forall_forall in Hc.
  apply (first_best_least cs [c] c); [| | done].
  - split; [listed |]. intros x ->%list_elem_of_singleton.
    right. split; [lra | done].
  - intros x y ->%list_elem_of_singleton Hy. by apply Hc.
Qed.

Lemma least_unique cs r1 r2 :
  ordered cs -> least key cs r1 -> least key cs r2 -> r1 = r2.
Proof.
  intros Hord [Hin1 Hmin1] [Hin2 Hmin2].
  apply (ordered_same_index cs); [done .. |].
  destruct (Hmin1 r2 Hin2) as [H1 | [H1 Hi1]],
           (Hmin2 r1 Hin1) as [H2 | [H2 Hi2]]; try lra. lia.
Qed.
End Selection.

(** ** The Matcher *)

Section Matcher.
Variable eps : Q.
Variable text_similarity : str -> str -> Q.

#[local] Abbreviation score := (score text_similarity).
#[local] Abbreviation pairing := (pairing text_similarity).
#[local] Abbreviation matching := (matching eps text_similarity).
#[local] Abbreviation find_candidate := (find_candidate text_similarity).
#[local] Abbreviation match_loop := (match_loop eps text_similarity).

Lemma same_key_true it c :
  same_key it c = true <-> match_key c.2 = match_key it.
Proof. unfold same_key. apply bool_decide_eq_true. Qed.

Lemma in_filter (f : candidate -> bool) pool c :
  c ∈ List.filter f pool <-> c ∈ pool /\ f c = true.
Proof. rewrite !list_elem_of_In. apply filter_In. Qed.

Lemma closer_key it c b :
  Qltb (quantity_gap it c) (quantity_gap it b) = true
  <-> (quantity_gap it c < quantity_gap it b)%Q.
Proof. apply Qltb_lt. Qed.

Lemma higher_key it c b :
  Qltb (score it b) (score it c) = true
  <-> (- score it c < - score it b)%Q.
Proof. rewrite Qltb_lt. split; lra. Qed.

Lemma exact_candidate_closest it pool :
  ordered pool ->
  match exact_candidate it pool with
  | Some c => closest_exact it pool c
  | None => no_exact it pool
  end.
Proof.
  intros Hord. unfold exact_candidate.
  pose proof (choose_least (quantity_gap it) _ (closer_key it)
                (List.filter (same_key it) pool)
                (ordered_filter _ _ Hord)) as H.
  destruct (choose _ _) as [c |].
  - destruct H as [Hin Hmin]. apply in_filter in Hin as [Hin Hk].
    apply same_key_true in Hk. repeat split; [done .. |].
    intros c' Hc' Hk'. apply Hmin. apply in_filter.
    by rewrite same_key_true.
  - intros c Hc Hk.
    assert (c ∈ List.filter (same_key it) pool) as Hin
      by (apply in_filter; by rewrite same_key_true).
    rewrite H in Hin. by apply elem_of_nil in Hin.
Qed.

Lemma fuzzy_candidate_best it pool :
  ordered pool ->
  match fuzzy_candidate text_similarity it pool with
  | Some c => best_fuzzy text_similarity it pool c
  | None => no_fuzzy text_similarity it pool
  end.
Proof.
  intros Hord. unfold fuzzy_candidate.
  pose proof (choose_least (fun c => - score it c)%Q _ (higher_key it)
                (List.filter (acceptable text_similarity it) pool)
                (ordered_filter _ _ Hord)) as H.
  destruct (choose _ _) as [c |].
  - destruct H as [Hin Hmin]. apply in_filter in Hin as [Hin Hk].
    apply Qle_bool_iff in Hk. repeat split; [done .. |].
    intros c' Hc' Hk'.
    destruct (Hmin c') as [H | [H Hi]].
    + apply in_filter. split; [done |]. by apply Qle_bool_iff.
    + left. lra.
    + right. split; [lra | done].
  - intros c Hc Hk.
    assert (c ∈ List.filter (acceptable text_similarity it) pool) as Hin
      by (apply in_filter; split; [done | by apply Qle_bool_iff]).
    rewrite H in Hin. by apply elem_of_nil in Hin.
Qed.

(** The candidate the function finds is one the rules allow. *)
Lemma find_candidate_pairing fuzzy it pool :
  ordered pool -> pairing fuzzy it pool (find_candidate fuzzy it pool).
Proof.
  intros Hord. unfold find_candidate.
  pose proof (exact_candidate_closest it pool Hord) as He.
  destruct (exact_candidate it pool) as [c |]; [by constructor |].
  destruct fuzzy.
  - pose proof (fuzzy_candidate_best it pool Hord) as Hf.
    destruct (fuzzy_candidate _ it pool) as [c |].
    + by apply pairing_fuzzy.
    + apply pairing_none; [done | by right].
  - apply pairing_none; [done | by left].
Qed.

(** The rules allow one outcome only. *)
Lemma pairing_functional fuzzy it pool o1 o2 :
  ordered pool ->
  pairing fuzzy it pool o1 -> pairing fuzzy it pool o2 -> o1 = o2.
Proof.
  intros Hord H1 H2.
  assert (forall c, closest_exact it pool c -> no_exact it pool -> False)
    as Hexcl.
  { intros c (Hin & Hk & _) Hno. by apply (Hno c). }
  assert (forall c, best_fuzzy text_similarity it pool c ->
                    no_fuzzy text_similarity it pool -> False) as Hexcl'.
  { intros c (Hin & Hk & _) Hno. by apply (Hno c). }
  destruct H1 as [c1 Hc1 | c1 Hno1 Hf1 Hc1 | Hno1 Hf1];
    destruct H2 as [c2 Hc2 | c2 Hno2 Hf2 Hc2 | Hno2 Hf2];
    try (exfalso; by eauto);
    try (exfalso; destruct Hf1; [congruence | by eauto]);
    try (exfalso; destruct Hf2; [congruence | by eauto]).
  - f_equal.
    destruct Hc1 as (Hin1 & Hk1 & Hmin1), Hc2 as (Hin2 & Hk2 & Hmin2).
    apply (ordered_same_index pool); [done .. |].
    destruct (Hmin1 c2 Hin2 Hk2) as [H1 | [H1 Hi1]],
             (Hmin2 c1 Hin1 Hk1) as [H2 | [H2 Hi2]]; try lra. lia.
  - f_equal.
    destruct Hc1 as (Hin1 & Hk1 & Hmin1), Hc2 as (Hin2 & Hk2 & Hmin2).
    apply (ordered_same_index pool); [done .. |].
    destruct (Hmin1 c2 Hin2 Hk2) as [H1 | [H1 Hi1]],
             (Hmin2 c1 Hin1 Hk1) as [H2 | [H2 Hi2]]; try lra. lia.
  - done.
Qed.

Lemma pairing_in_pool fuzzy it pool c :
  pairing fuzzy it pool (Some c) -> c ∈ pool.
Proof.
  inversion 1 as [c' (Hin & _) | c' _ _ (Hin & _) |]; by subst.
Qed.

(** The function follows the rules. *)
Lemma match_loop_matching fuzzy tolerance reconciliation : forall pool,
  ordered pool ->
  matching fuzzy tolerance pool reconciliation
           (match_loop fuzzy tolerance reconciliation pool).
Proof.
  induction reconciliation as [| it rest IH]; intros pool Hord;
    cbn [Core.match_loop].
  - constructor.
  - pose proof (find_candidate_pairing fuzzy it pool Hord) as Hp.
    destruct (find_candidate fuzzy it pool) as [c |].
    + apply matching_paired; [done |]. by apply IH, consume_ordered.
    + apply matching_missing; [done |]. by apply IH.
Qed.

(** The rules allow one sequence of rows only. *)
Lemma matching_functional fuzzy tolerance pool reconciliation rows1 rows2 :
  ordered pool ->
  matching fuzzy tolerance pool reconciliation rows1 ->
  matching fuzzy tolerance pool reconciliation rows2 ->
  rows1 = rows2.
Proof.
  intros Hord H1. revert rows2 Hord.
  induction H1 as [pool | pool it rest c rows Hp _ IH
                   | pool it rest rows Hp _ IH];
    intros rows2 Hord H2.
  - by inversion H2.
  - inversion H2 as [| ? ? ? c' rows' Hp' Hm' | ? ? ? rows' Hp' Hm']; subst.
    + pose proof (pairing_functional _ _ _ _ _ Hord Hp Hp') as [= <-].
      f_equal. apply IH; [by apply consume_ordered | done].
    + by pose proof (pairing_functional _ _ _ _ _ Hord Hp Hp').
  - inversion H2 as [| ? ? ? c' rows' Hp' Hm' | ? ? ? rows' Hp' Hm']; subst.
    + by pose proof (pairing_functional _ _ _ _ _ Hord Hp Hp').
    + f_equal. by apply IH.
Qed.

(** ** Accounting for the items *)

Lemma extra_rows pool :
  omap row_left (map extra_row pool) = []
  /\ omap row_right (map extra_row pool) = map snd pool
  /\ Forall row_shape (map extra_row pool).
Proof.
  induction pool as [| c pool (IH1 & IH2 & IH3)]; [by repeat constructor |].
  cbn. rewrite IH1, IH2. repeat split.
  constructor; [| done]. by split; [| eexists].
Qed.

Lemma matching_accounts fuzzy tolerance pool reconciliation rows :
  matching fuzzy tolerance pool reconciliation rows ->
  ordered pool ->
  omap row_left rows = reconciliation
  /\ omap row_right rows ≡ₚ map snd pool
  /\ Forall row_shape rows.
Proof.
  induction 1 as [pool | pool it rest c rows Hp _ IH
                  | pool it rest rows Hp _ IH]; intros Hord.
  - destruct (extra_rows pool) as (H1 & H2 & H3). by rewrite H1, H2.
  - destruct (IH (consume_ordered c pool Hord)) as (H1 & H2 & H3).
    cbn. rewrite H1. repeat split.
    + rewrite H2. symmetry.
      apply (Permutation_map snd
               (consume_permutation c pool Hord
                  (pairing_in_pool _ _ _ _ Hp))).
    + constructor; [| done]. unfold row_shape, paired_row. cbn.
      destruct (_ && _); by split; eexists.
  - destruct (IH Hord) as (H1 & H2 & H3).
    cbn. rewrite H1. repeat split; [done |].
    constructor; [| done]. by split; [eexists |].
Qed.

Lemma count_status_total rows :
  length rows
  = count_status MATCH rows + count_status MISMATCH rows
    + count_status MISSING_IN_INVOICE rows
    + count_status EXTRA_IN_INVOICE rows.
Proof.
  unfold count_status. induction rows as [| r rows IH]; [done |].
  cbn [List.filter].
  destruct (status r); repeat case_bool_decide; try done; cbn [length]; lia.
Qed.

(** ** C7 *)

(** C7: the rows [match] returns number as many as the four status
    counts together; the reconciliation items are the left sides of the
    rows, in order and once each, and the invoice items are the right
    sides of the rows, once each; a row has both sides when it is a pair
    and one side otherwise. *)
Theorem match_accounts_for_items reconciliation invoice
    amount_tolerance vat_tolerance fuzzy :
  let rows := match_items eps text_similarity reconciliation invoice
                amount_tolerance vat_tolerance fuzzy in
  length rows
  = count_status MATCH rows + count_status MISMATCH rows
    + count_status MISSING_IN_INVOICE rows
    + count_status EXTRA_IN_INVOICE rows
  /\ omap row_left rows = reconciliation
  /\ omap row_right rows ≡ₚ invoice
  /\ Forall row_shape rows.
Proof.
  intros rows. split; [apply count_status_total |].
  pose proof (index_from_ordered 0 invoice) as Hord.
  destruct (matching_accounts fuzzy amount_tolerance _ reconciliation rows
              (match_loop_matching _ _ _ _ Hord) Hord) as (H1 & H2 & H3).
  repeat split; [done | | done].
  by rewrite H2, index_from_items.
Qed.

(** ** C9 *)

(** The function [compare_datasets] is a run of the engine. *)
Lemma compare_datasets_run reconciliation invoice reconciliation_totals
    invoice_totals vat_tolerance amount_tolerance fuzzy_match :
  run eps text_similarity reconciliation invoice reconciliation_totals
    invoice_totals vat_tolerance amount_tolerance fuzzy_match
    (compare_datasets eps text_similarity reconciliation invoice
       reconciliation_totals invoice_totals vat_tolerance
       amount_tolerance fuzzy_match).
Proof.
  unfold compare_datasets.
  destruct (valid_tolerance vat_tolerance
            && valid_tolerance amount_tolerance) eqn:Hv.
  - apply run_compared; [done |].
    apply match_loop_matching, index_from_ordered.
  - by apply run_rejected.
Qed.

(** C9: two runs of the engine on the same items, totals, tolerances and
    flag give the same outcome: the same rows with the same statuses, the
    same summary and the same totals comparison, or the same
    diagnostic. *)
Theorem run_deterministic reconciliation invoice reconciliation_totals
    invoice_totals vat_tolerance amount_tolerance fuzzy_match out1 out2 :
  run eps text_similarity reconciliation invoice reconciliation_totals
    invoice_totals vat_tolerance amount_tolerance fuzzy_match out1 ->
  run eps text_similarity reconciliation invoice reconciliation_totals
    invoice_totals vat_tolerance amount_tolerance fuzzy_match out2 ->
  out1 = out2.
Proof.
  intros H1 H2.
  destruct H1 as [Hv1 | rows1 Hv1 Hm1]; destruct H2 as [Hv2 | rows2 Hv2 Hm2];
    try congruence.
  by rewrite (matching_functional _ _ _ _ rows1 rows2
                (index_from_ordered 0 invoice) Hm1 Hm2).
Qed.
End Matcher.

(** ** The scenarios of the spec *)

(** Scenario 1: identical items match. *)
Example scenario_1 :
  map status
      (match_items small_eps equal_keys [sim_card RECONCILIATION 500000]
                   [sim_card INVOICE 500000] 0 0 false)
  = [MATCH].
Proof. reflexivity. Qed.

(** Scenario 2: 510000 against 500000 is a mismatch at tolerance 0 and a
    match at tolerance 2%. *)
Example scenario_2 :
  map status
      (match_items small_eps equal_keys [sim_card RECONCILIATION 500000]
                   [sim_card INVOICE 510000] 0 0 false)
  = [MISMATCH]
  /\ map status
      (match_items small_eps equal_keys [sim_card RECONCILIATION 500000]
                   [sim_card INVOICE 510000] (2 # 100) 0 false)
  = [MATCH].
Proof. split; reflexivity. Qed.

(** Scenario 4: a VAT rate known on one side only is left out. *)
Example scenario_4 :
  totals_match
    (reconcile_totals small_eps
       {[ "vat_rate" := 10%Q; "total_payment" := 1100000%Q ]}
       {[ "total_payment" := 1100000%Q ]} 0 0)
  = true.
Proof. reflexivity. Qed.



Lemma totals_match_present_fields_witness :
  totals_match
    (reconcile_totals small_eps {[ "vat_rate" := 10%Q ]}
       {[ "total_payment" := 1100000%Q ]} 0 0)
  = true.
Proof.
  apply (proj2 (totals_match_present_fields small_eps
                  {[ "vat_rate" := 10%Q ]}
                  {[ "total_payment" := 1100000%Q ]} 0 0)).
  intros f. destruct (decide (f = "vat_rate")) as [-> | Hf].
  - right. reflexivity.
  - left. by apply lookup_singleton_ne.
Defined.

Lemma run_deterministic_witness :
  let out :=
    compare_datasets small_eps equal_keys [sim_card RECONCILIATION 500000]
      [sim_card INVOICE 510000] ∅ ∅ 0 (2 # 100) false in
  run small_eps equal_keys [sim_card RECONCILIATION 500000]
      [sim_card INVOICE 510000] ∅ ∅ 0 (2 # 100) false out
  /\ out = out.
Proof.
  intros out.
  assert (run small_eps equal_keys [sim_card RECONCILIATION 500000]
            [sim_card INVOICE 510000] ∅ ∅ 0 (2 # 100) false out) as H
    by apply compare_datasets_run.
  split; [exact H |].
  exact (run_deterministic small_eps equal_keys _ _ _ _ _ _ _ out out H H).
Defined.

End CoreFacts.

(* ===================================================================== *)
(** * More on the runtime functions                                    *)
(* ===================================================================== *)

Module TextFacts.
Import Py ExtractedItems.

(** ** [strip] *)

Lemma drop_while_suffix cls s : exists p, s = p ++ drop_while cls s.
Proof.
  induction s as [| c s [p IH]]; [by exists [] |]. cbn.
  destruct (cls c); [| by exists []].
  exists (c :: p). cbn. by rewrite <- IH.
Qed.

Lemma drop_while_head cls s c r :
  drop_while cls s = c :: r -> cls c = false.
Proof.
  induction s as [| x s IH]; [done |]. cbn.
  destruct (cls x) eqn:E; [done |]. by intros [= <- _].
Qed.

(** [strip] leaves a part of the text in place: what it removes comes
    before and after. *)
Lemma strip_inside s : exists p q, s = p ++ strip s ++ q.
Proof.
  unfold strip, lstrip, rstrip.
  destruct (drop_while_suffix isspace s) as [p Hp].
  destruct (drop_while_suffix isspace (rev (drop_while isspace s)))
    as [q Hq].
  exists p, (rev q). rewrite <- rev_app_distr, <- Hq, rev_involutive.
  exact Hp.
Qed.

Lemma strip_elem_of s c : c ∈ strip s -> c ∈ s.
Proof.
  destruct (strip_inside s) as (p & q & H). intros Hc. rewrite H.
  rewrite !elem_of_app. auto.
Qed.

Lemma strip_trimmed s : trimmed (strip s).
Proof.
  unfold strip, lstrip, rstrip.
  set (t := drop_while isspace s).
  destruct (drop_while_suffix isspace (rev t)) as [q Hq].
  split.
  - intros c r H.
    assert (t = (c :: r) ++ rev q) as Ht.
    { rewrite <- H, <- rev_app_distr, <- Hq. by rewrite rev_involutive. }
    by apply (drop_while_head isspace s c (r ++ rev q)).
  - intros c r H.
    apply (f_equal (@rev _)) in H.
    rewrite rev_involutive, rev_app_distr in H. cbn in H.
    by apply (drop_while_head isspace (rev t) c (rev r)).
Qed.

Lemma strip_length s : length (strip s) <= length s.
Proof.
  destruct (strip_inside s) as (p & q & H).
  rewrite H at 2. rewrite !length_app. lia.
Qed.

Lemma contains_false c s : contains c s = false -> c ∉ s.
Proof.
  unfold contains, char_in. intros H Hin.
  assert (existsb (N.eqb c) s = true) as H'; [| congruence].
  apply existsb_exists. exists c.
  split; [by apply list_elem_of_In | apply N.eqb_refl].
Qed.

(** ** [re.sub] after [strip] *)

Lemma delete_class_drop_while cls w s :
  (forall c, w c = true -> cls c = true) ->
  delete_class cls (drop_while w s) = delete_class cls s.
Proof.
  intros Hw. induction s as [| c s IH]; [done |]. cbn [drop_while].
  destruct (w c) eqn:E; [| done].
  rewrite IH. unfold delete_class. cbn. by rewrite (Hw c E).
Qed.

Lemma delete_class_rev cls s :
  delete_class cls (rev s) = rev (delete_class cls s).
Proof. apply List.filter_rev. Qed.

(** Deleting a class that holds the blanks makes [strip] before it
    useless. *)
Lemma delete_class_strip cls s :
  (forall c, isspace c = true -> cls c = true) ->
  delete_class cls (strip s) = delete_class cls s.
Proof.
  intros Hw. unfold strip, lstrip, rstrip.
  rewrite delete_class_rev, (delete_class_drop_while cls isspace _ Hw).
  rewrite delete_class_rev, rev_involutive.
  by apply delete_class_drop_while.
Qed.

Lemma delete_class_elem_of cls s c : c ∈ delete_class cls s -> c ∈ s.
Proof.
  unfold delete_class. rewrite !list_elem_of_In, filter_In. tauto.
Qed.

(** ** [re.findall] of a class *)

Lemma runs_from_runs cls s cur r :
  Forall (fun c => cls c = true) cur ->
  r ∈ runs_from cls s cur ->
  r <> [] /\ Forall (fun c => cls c = true) r.
Proof.
  revert cur. induction s as [| c s IH]; intros cur Hcur; cbn.
  - destruct cur as [| x cur]; [by intros ?%elem_of_nil |].
    intros ->%list_elem_of_singleton. split.
    + intros H%(f_equal length). rewrite length_rev in H. done.
    + by apply Forall_rev.
  - destruct (cls c) eqn:E.
    + apply IH. by constructor.
    + destruct cur as [| x cur]; [by apply IH |].
      intros [-> | H]%elem_of_cons; [| by apply (IH [])].
      split.
      * intros H%(f_equal length). rewrite length_rev in H. done.
      * by apply Forall_rev.
Qed.

(** Each match of [[cls]+] is a text of the class that is not empty. *)
Lemma findall_class_runs cls s r :
  r ∈ findall_class cls s ->
  r <> [] /\ Forall (fun c => cls c = true) r.
Proof. by apply runs_from_runs. Qed.

Lemma runs_from_none cls s :
  Forall (fun c => cls c = false) s -> runs_from cls s [] = [].
Proof. induction 1 as [| c s Hc _ IH]; [done |]. cbn. by rewrite Hc. Qed.

(** ** [str.split] *)

Lemma split_not_nil sep s : split sep s <> [].
Proof.
  destruct s as [| c r]; [done |]. cbn.
  destruct (c =? sep)%N; [done |]. by destruct (split sep r).
Qed.

(** The lines of two texts joined by the separator. *)
Lemma split_app sep a b :
  split sep (a ++ sep :: b) = split sep a ++ split sep b.
Proof.
  induction a as [| c a IH]; cbn.
  - by rewrite N.eqb_refl.
  - destruct (c =? sep)%N; [by rewrite IH |].
    rewrite IH. pose proof (split_not_nil sep a) as H.
    by destruct (split sep a).
Qed.

(** ** Loops *)

(** A loop whose body has no [break], run over two lists in turn. *)
Lemma for_loop_app {A S} (body : A -> S -> result (flow S)) xs ys s :
  (forall x s s', body x s <> Ok (Break s')) ->
  for_loop (xs ++ ys) body s = (s' ← for_loop xs body s; for_loop ys body s').
Proof.
  intros Hbody. revert s. induction xs as [| x xs IH]; intros s; [done |].
  cbn. destruct (body x s) as [[s1 | s1] | e] eqn:E; [apply IH | | done].
  by destruct (Hbody x s s1).
Qed.

End TextFacts.

(* ===================================================================== *)
(** * What the number parsers read and what they pass over             *)
(* ===================================================================== *)

Module ReadingFacts.
Import Py ExtractedItems TextFacts Examples.

(** ** The characters that do not count *)

Lemma space_is_currency_or_space c :
  isspace c = true -> ReconcileExcel.currency_or_space c = true.
Proof.
  intros H. unfold ReconcileExcel.currency_or_space. rewrite H.
  apply orb_true_r.
Qed.

Lemma space_is_not_numeric c :
  isspace c = true -> negb (InvoicePdf.numeric_char c) = true.
Proof.
  intros H. destruct (InvoicePdf.numeric_char c) eqn:E; [| done].
  pose proof (PyFacts.numeric_char_forall (fun c => negb (isspace c)) c
                eq_refl E) as H'.
  cbn beta in H'. by rewrite H in H'.
Qed.

(** X1.  The Excel parser reads a text as it reads what is left of it once
    the blanks, the dong signs, the letters đ, v, n and d are taken
    out, wherever they stand: two texts that differ in these characters
    only give the same result. *)
Theorem excel_parse_ignores s1 s2 :
  delete_class ReconcileExcel.currency_or_space s1
  = delete_class ReconcileExcel.currency_or_space s2 ->
  ReconcileExcel._parse_number (Str s1)
  = ReconcileExcel._parse_number (Str s2).
Proof.
  intros H. cbn [ReconcileExcel._parse_number].
  unfold ReconcileExcel.cleaned.
  rewrite !(delete_class_strip _ _ space_is_currency_or_space).
  by rewrite H.
Qed.

(** X2.  The PDF parser reads the digits 0 to 9, the points, the commas and
    the minus signs of a text and nothing else: two texts with the same
    such characters in the same order give the same result. *)
Theorem pdf_parse_ignores s1 s2 :
  List.filter InvoicePdf.numeric_char s1
  = List.filter InvoicePdf.numeric_char s2 ->
  InvoicePdf._parse_number (Str s1) = InvoicePdf._parse_number (Str s2).
Proof.
  intros H. cbn [InvoicePdf._parse_number]. unfold InvoicePdf.cleaned.
  rewrite !(delete_class_strip _ _ space_is_not_numeric).
  unfold delete_class.
  assert (forall s,
             List.filter (fun x => negb (negb (InvoicePdf.numeric_char x))) s
             = List.filter InvoicePdf.numeric_char s) as Hnn.
  { intros s. apply filter_ext. intros c. apply negb_involutive. }
  by rewrite !Hnn, H.
Qed.

(** ** The sign of the result *)

Lemma float_of_decimal_signed neg m k : signed neg (float_of_decimal neg m k).
Proof.
  unfold float_of_decimal. destruct m as [| p]; [done |].
  destruct (SFdiv_core_binary _ _ _ _ _ _) as [[q e] l].
  unfold binary_round_aux.
  destruct (shr_fexp _ _ q e l) as [mrs' e'].
  destruct (shr_fexp _ _ _ e' _) as [mrs'' e''].
  destruct (shr_m mrs''); [done | | done].
  by destruct (_ <=? _)%Z.
Qed.

Lemma float_of_unsigned_signed neg s f :
  float_of_unsigned neg s = Ok f -> signed neg f.
Proof.
  unfold float_of_unsigned. intros H.
  repeat (match type of H with
          | context [match ?x with _ => _ end] => destruct x
          end; try congruence);
  injection H as <-; apply float_of_decimal_signed.
Qed.

Lemma float_of_str_unsigned s f :
  MINUS ∉ s -> float_of_str s = Ok f -> signed false f.
Proof.
  intros Hs. unfold float_of_str. destruct s as [| c r]; [done |].
  destruct (c =? MINUS)%N eqn:E.
  - apply N.eqb_eq in E as ->. destruct Hs. listed.
  - destruct (c =? PLUS)%N; apply float_of_unsigned_signed.
Qed.

Lemma signed_not_negative f : signed false f -> not_negative (Float f).
Proof.
  unfold not_negative, lt. destruct f as [s | s | | s m e]; cbn; try done.
  - by intros ->.
  - intros ->. cbn. destruct (0 <=? e)%Z eqn:He.
    + apply Z.leb_le in He.
      assert (0 < Z.pos m * 2 ^ e)%Z as H.
      { apply Z.mul_pos_pos; [lia | by apply Z.pow_pos_nonneg]. }
      by destruct (Z.pos m * 2 ^ e)%Z.
    + done.
Qed.

Lemma zero_not_negative : not_negative (Int 0).
Proof. done. Qed.

(** ** Where a minus sign can come from *)

Lemma take_while_elem_of cls s c : c ∈ take_while cls s -> c ∈ s.
Proof.
  induction s as [| x s IH]; [done |]. cbn.
  destruct (cls x); [| by intros ?%elem_of_nil].
  intros [-> | H]%elem_of_cons; [listed |].
  apply list_elem_of_further. by apply IH.
Qed.

Lemma replace_elem_of old new s c :
  c ∈ replace old new s -> c ∈ s \/ c ∈ new.
Proof.
  unfold replace. induction s as [| x s IH]; [by intros ?%elem_of_nil |].
  cbn [flat_map]. intros [H | H]%elem_of_app.
  - destruct (x =? old)%N; [by right |].
    apply list_elem_of_singleton in H as ->. left. listed.
  - destruct (IH H) as [? | ?]; [left | by right].
    by apply list_elem_of_further.
Qed.

Lemma search_number_elem_of t m c :
  ReconcileExcel.search_number t = Some m -> c ∈ m -> c ∈ t.
Proof.
  revert m. induction t as [| x t IH]; intros m; [done |].
  cbn [ReconcileExcel.search_number].
  destruct (ReconcileExcel.digit_or_dot x) eqn:Ex.
  - intros [= <-]. apply (take_while_elem_of _ (x :: t)).
  - destruct (_ && _).
    + intros [= <-] [-> | H]%elem_of_cons; [listed |].
      apply list_elem_of_further. by apply take_while_elem_of in H.
    + intros H Hc. apply list_elem_of_further. by apply (IH m).
Qed.

Lemma excel_cleaned_minus s :
  MINUS ∉ s -> MINUS ∉ ReconcileExcel.cleaned s.
Proof.
  intros Hs H. apply Hs. apply strip_elem_of.
  apply (delete_class_elem_of ReconcileExcel.currency_or_space).
  unfold ReconcileExcel.cleaned, ReconcileExcel.separators_resolved in H.
  repeat case_match; [| | done].
  - apply replace_elem_of in H as [H | H].
    + apply replace_elem_of in H as [H | H]; [done |].
      by apply elem_of_nil in H.
    + apply list_elem_of_singleton in H. by vm_compute in H.
  - apply replace_elem_of in H as [H | H]; [done |].
    by apply elem_of_nil in H.
Qed.

Lemma pdf_cleaned_minus s :
  MINUS ∉ s -> MINUS ∉ InvoicePdf.cleaned s.
Proof.
  intros Hs H. apply Hs. apply strip_elem_of.
  apply (delete_class_elem_of (fun c => negb (InvoicePdf.numeric_char c))).
  unfold InvoicePdf.cleaned, InvoicePdf.separators_resolved in H.
  repeat case_match; try done;
    repeat (apply replace_elem_of in H as [H | H]); try done;
    try (by apply elem_of_nil in H);
    apply list_elem_of_singleton in H; by vm_compute in H.
Qed.

Lemma excel_parse_not_negative s v :
  MINUS ∉ s -> ReconcileExcel._parse_number (Str s) = Ok v ->
  not_negative v.
Proof.
  intros Hs%excel_cleaned_minus. cbn [ReconcileExcel._parse_number].
  unfold ReconcileExcel.extract_number.
  destruct (ReconcileExcel.search_number _) as [m |] eqn:Em;
    [| by intros [= <-]].
  assert (MINUS ∉ m) as Hm.
  { intros H. apply Hs. by apply (search_number_elem_of _ m). }
  destruct (float_of_str m) as [f | e] eqn:Ef; cbn.
  - intros [= <-]. apply signed_not_negative.
    by apply (float_of_str_unsigned m).
  - case_decide; [by intros [= <-] | done].
Qed.

Lemma pdf_parse_not_negative s v :
  MINUS ∉ s -> InvoicePdf._parse_number (Str s) = Ok v -> not_negative v.
Proof.
  intros Hs%pdf_cleaned_minus. cbn [InvoicePdf._parse_number].
  unfold InvoicePdf.convert.
  destruct (InvoicePdf.cleaned s) as [| c r] eqn:Ec; [by intros [= <-] |].
  destruct (float_of_str (c :: r)) as [f | e] eqn:Ef; cbn.
  - intros [= <-]. apply signed_not_negative.
    by apply (float_of_str_unsigned (c :: r)).
  - case_decide; [by intros [= <-] | done].
Qed.

(** X3.  Neither parser returns a number below zero for a text without a
    minus sign. *)
Theorem parse_not_negative s :
  contains MINUS s = false ->
  (forall v, ReconcileExcel._parse_number (Str s) = Ok v -> not_negative v)
  /\ (forall v, InvoicePdf._parse_number (Str s) = Ok v -> not_negative v).
Proof.
  intros Hs%contains_false. split; intros v.
  - by apply excel_parse_not_negative.
  - by apply pdf_parse_not_negative.
Qed.

(** ** Examples *)

Lemma excel_parse_ignores_witness :
  delete_class ReconcileExcel.currency_or_space (lit "1.500 VND")
  = delete_class ReconcileExcel.currency_or_space (lit "1.500")
  /\ ReconcileExcel._parse_number (Str (lit "1.500 VND"))
     = ReconcileExcel._parse_number (Str (lit "1.500")).
Proof.
  split; [reflexivity |].
  apply (excel_parse_ignores (lit "1.500 VND") (lit "1.500")). reflexivity.
Defined.

Lemma pdf_parse_ignores_witness :
  List.filter InvoicePdf.numeric_char (lit "Total: 1.500 dong")
  = List.filter InvoicePdf.numeric_char (lit "1.500")
  /\ InvoicePdf._parse_number (Str (lit "Total: 1.500 dong"))
     = InvoicePdf._parse_number (Str (lit "1.500")).
Proof.
  split; [reflexivity |].
  apply (pdf_parse_ignores (lit "Total: 1.500 dong") (lit "1.500")).
  reflexivity.
Defined.

Lemma parse_not_negative_witness :
  contains MINUS (lit "1.500") = false
  /\ not_negative (Float (float_of_decimal false 1500 3)).
Proof.
  split; [reflexivity |].
  apply (proj1 (parse_not_negative (lit "1.500") eq_refl)). reflexivity.
Defined.

End ReadingFacts.

(* ===================================================================== *)
(** * The keys and the ranges of the totals                            *)
(* ===================================================================== *)

Module TotalsShapeFacts.
Import Py ExtractedItems TextFacts TotalsFacts Examples.

Section Extractors.
Variable lower : str -> str.
Variable str_of_float : float -> str.
Variable P : gmap string number -> Prop.

Lemma guarded_loop_kept {A} (b : bool) (xs : list A) step totals totals' :
  (forall x, kept P (step x)) -> P totals ->
  (if b then for_loop xs step totals else Ok totals) = Ok totals' ->
  P totals'.
Proof.
  intros Hstep Ht. destruct b; [| by intros [= <-]].
  apply (for_loop_invariant P); [| done].
  intros x s r. apply Hstep.
Qed.

Lemma line_step_kept line :
  (forall num, kept P (InvoicePdf.vat_step num)) ->
  (forall num, kept P (InvoicePdf.before_tax_step num)) ->
  (forall num, kept P (InvoicePdf.payment_step num)) ->
  kept P (InvoicePdf.line_step lower line).
Proof.
  intros H1 H2 H3 totals r Ht H. unfold InvoicePdf.line_step in H.
  run_bind H. run_bind H. run_bind H. simplify_eq. cbn [state].
  repeat match goal with
    | H : (if _ then for_loop _ _ _ else _) = Ok _ |- _ =>
        eapply guarded_loop_kept in H; [| done | done]
    end.
  done.
Qed.

Lemma pdf_totals_kept text totals :
  (forall num, kept P (InvoicePdf.vat_step num)) ->
  (forall num, kept P (InvoicePdf.before_tax_step num)) ->
  (forall num, kept P (InvoicePdf.payment_step num)) ->
  P ∅ ->
  InvoicePdf.extract_totals_from_text_content lower text = Ok totals ->
  P totals.
Proof.
  intros H1 H2 H3 H0. apply (for_loop_invariant P); [| done].
  intros line s r. by apply line_step_kept.
Qed.

Lemma row_step_kept row :
  (forall c, kept P (ReconcileExcel.vat_rate_step c)) ->
  (forall c, kept P (ReconcileExcel.money_step "vat_amount" c)) ->
  (forall c, kept P (ReconcileExcel.money_step "total_before_tax" c)) ->
  (forall c, kept P (ReconcileExcel.money_step "total_payment" c)) ->
  kept P (ReconcileExcel.row_step lower str_of_float row).
Proof.
  intros H1 H2 H3 H4 totals r Ht H. unfold ReconcileExcel.row_step in H.
  run_bind H. run_bind H. run_bind H. run_bind H. simplify_eq.
  cbn [state].
  repeat match goal with
    | H : (if _ then for_loop _ _ _ else _) = Ok _ |- _ =>
        eapply guarded_loop_kept in H; [| done | done]
    end.
  done.
Qed.

Lemma excel_totals_kept df totals :
  (forall c, kept P (ReconcileExcel.vat_rate_step c)) ->
  (forall c, kept P (ReconcileExcel.money_step "vat_amount" c)) ->
  (forall c, kept P (ReconcileExcel.money_step "total_before_tax" c)) ->
  (forall c, kept P (ReconcileExcel.money_step "total_payment" c)) ->
  P ∅ ->
  ReconcileExcel._extract_totals lower str_of_float df = Ok totals ->
  P totals.
Proof.
  intros H1 H2 H3 H4 H0. apply (for_loop_invariant P); [| done].
  intros row s r. by apply row_step_kept.
Qed.
End Extractors.

(** ** The steps, one assignment each *)

Lemma vat_step_cases num totals r :
  InvoicePdf.vat_step num totals = Ok r ->
  (exists val,
      r = Next (<["vat_rate" := val]> totals)
      /\ lt (Int 0) val = true /\ lt val (Int 100) = true
      /\ totals !! "vat_rate" = None)
  \/ (exists val,
      r = Next (<["vat_amount" := val]> totals)
      /\ gt val (Int 100) = true /\ totals !! "vat_amount" = None)
  \/ r = Next totals.
Proof.
  intros H. unfold InvoicePdf.vat_step in H. run_bind H.
  unfold InvoicePdf.has_key in H.
  repeat case_match; simplify_eq; [left | right; left | right; right];
    [| | done];
    repeat match goal with
      | H : _ && _ = true |- _ => apply andb_true_iff in H as [? ?]
      | H : negb _ = true |- _ => apply negb_true_iff in H
      | H : bool_decide _ = false |- _ => apply bool_decide_eq_false in H
      | H : ¬ is_Some _ |- _ => apply eq_None_not_Some in H
      end;
    by eexists.
Qed.

Lemma before_tax_step_cases num totals r :
  InvoicePdf.before_tax_step num totals = Ok r ->
  (exists val, state r = <["total_before_tax" := val]> totals)
  \/ state r = totals.
Proof.
  intros H. unfold InvoicePdf.before_tax_step in H. run_bind H.
  case_match; simplify_eq; [left; by eexists | by right].
Qed.

Lemma payment_step_cases num totals r :
  InvoicePdf.payment_step num totals = Ok r ->
  (exists val, r = Next (<["total_payment" := val]> totals))
  \/ r = Next totals.
Proof.
  intros H. unfold InvoicePdf.payment_step in H. run_bind H.
  case_match; simplify_eq; [left; by eexists | by right].
Qed.

Lemma vat_rate_step_cases c totals r :
  ReconcileExcel.vat_rate_step c totals = Ok r ->
  (exists n,
      state r = <["vat_rate" := n]> totals
      /\ lt (Int 0) n = true /\ lt n (Int 100) = true)
  \/ state r = totals.
Proof.
  intros H. unfold ReconcileExcel.vat_rate_step in H.
  repeat case_match; simplify_eq; try (by right).
  left. eexists. split; [done |].
  repeat match goal with
    | H : _ && _ = true |- _ => apply andb_true_iff in H as [? ?]
    end.
  done.
Qed.

Lemma money_step_cases key c totals r :
  ReconcileExcel.money_step key c totals = Ok r ->
  (exists val, state r = <[key := val]> totals) \/ state r = totals.
Proof.
  intros H. unfold ReconcileExcel.money_step in H.
  destruct c as [v |]; [| simplify_eq; by right].
  destruct (ReconcileExcel.notna (Some v)); [| simplify_eq; by right].
  run_bind H. case_match; simplify_eq; [left; by eexists | by right].
Qed.

(** ** The keys *)

Lemma known_keys_insert k v totals :
  k ∈ total_keys -> known_keys totals -> known_keys (<[k := v]> totals).
Proof.
  intros Hk Ht k'. rewrite lookup_insert. case_decide; [by subst | apply Ht].
Qed.

Lemma known_keys_empty : known_keys ∅.
Proof. intros k. rewrite lookup_empty. by intros [? ?]. Qed.

(** X4.  The totals either extractor returns hold no key beside [vat_rate],
    [vat_amount], [total_before_tax] and [total_payment]. *)
Theorem totals_keys lower str_of_float k :
  (forall text totals,
      InvoicePdf.extract_totals_from_text_content lower text = Ok totals ->
      is_Some (totals !! k) -> k ∈ total_keys)
  /\ (forall df totals,
        ReconcileExcel._extract_totals lower str_of_float df = Ok totals ->
        is_Some (totals !! k) -> k ∈ total_keys).
Proof.
  split.
  - intros text totals H.
    apply (pdf_totals_kept lower known_keys text totals) in H;
      [apply H | | | | apply known_keys_empty].
    + intros num t r Ht [(v & -> & _) | [(v & -> & _) | ->]]%vat_step_cases;
        [apply known_keys_insert | apply known_keys_insert |];
        first [done | listed].
    + intros num t r Ht [[v ->] | ->]%before_tax_step_cases;
        [apply known_keys_insert |]; first [done | listed].
    + intros num t r Ht [[v ->] | ->]%payment_step_cases;
        [apply known_keys_insert |]; first [done | listed].
  - intros df totals H.
    apply (excel_totals_kept lower str_of_float known_keys df totals) in H;
      [apply H | | | | | apply known_keys_empty].
    + intros c t r Ht [(v & -> & _) | ->]%vat_rate_step_cases;
        [apply known_keys_insert |]; first [done | listed].
    + intros c t r Ht [[v ->] | ->]%money_step_cases;
        [apply known_keys_insert |]; first [done | listed].
    + intros c t r Ht [[v ->] | ->]%money_step_cases;
        [apply known_keys_insert |]; first [done | listed].
    + intros c t r Ht [[v ->] | ->]%money_step_cases;
        [apply known_keys_insert |]; first [done | listed].
Qed.

(** ** The ranges *)

Lemma rate_in_range_insert v totals :
  lt (Int 0) v = true -> lt v (Int 100) = true ->
  rate_in_range totals -> rate_in_range (<["vat_rate" := v]> totals).
Proof.
  intros H1 H2 Ht v'. rewrite lookup_insert.
  case_decide; [by intros [= <-] | apply Ht].
Qed.

Lemma rate_in_range_other k v totals :
  k <> "vat_rate" -> rate_in_range totals ->
  rate_in_range (<[k := v]> totals).
Proof.
  intros Hk Ht v'. rewrite lookup_insert.
  case_decide; [done | apply Ht].
Qed.

Lemma amount_in_range_insert v totals :
  gt v (Int 100) = true ->
  amount_in_range totals -> amount_in_range (<["vat_amount" := v]> totals).
Proof.
  intros H1 Ht v'. rewrite lookup_insert.
  case_decide; [by intros [= <-] | apply Ht].
Qed.

Lemma amount_in_range_other k v totals :
  k <> "vat_amount" -> amount_in_range totals ->
  amount_in_range (<[k := v]> totals).
Proof.
  intros Hk Ht v'. rewrite lookup_insert.
  case_decide; [done | apply Ht].
Qed.

(** X5.  A VAT rate in the totals is a number strictly between 0 and 100,
    from either extractor; a VAT amount in the totals of the PDF
    extractor is a number above 100. *)
Theorem vat_ranges lower str_of_float :
  (forall text totals,
      InvoicePdf.extract_totals_from_text_content lower text = Ok totals ->
      rate_in_range totals /\ amount_in_range totals)
  /\ (forall df totals,
        ReconcileExcel._extract_totals lower str_of_float df = Ok totals ->
        rate_in_range totals).
Proof.
  split.
  - intros text totals H.
    apply (pdf_totals_kept lower
             (fun t => rate_in_range t /\ amount_in_range t) text totals);
      [| | | | done].
    + intros num t r [Hr Ha]
        [(v & -> & ? & ? & _) | [(v & -> & ? & _) | ->]]%vat_step_cases;
        cbn [state]; [split | split |]; try done.
      * by apply rate_in_range_insert.
      * by apply amount_in_range_other.
      * by apply rate_in_range_other.
      * by apply amount_in_range_insert.
    + intros num t r [Hr Ha] [[v ->] | ->]%before_tax_step_cases; [| done].
      split; [by apply rate_in_range_other | by apply amount_in_range_other].
    + intros num t r [Hr Ha] [[v ->] | ->]%payment_step_cases; [| done].
      split; [by apply rate_in_range_other | by apply amount_in_range_other].
    + split; intros v; by rewrite lookup_empty.
  - intros df totals H.
    apply (excel_totals_kept lower str_of_float rate_in_range df totals);
      [| | | | | done].
    + intros c t r Ht [(v & -> & ? & ?) | ->]%vat_rate_step_cases;
        [| done]. by apply rate_in_range_insert.
    + intros c t r Ht [[v ->] | ->]%money_step_cases; [| done].
      by apply rate_in_range_other.
    + intros c t r Ht [[v ->] | ->]%money_step_cases; [| done].
      by apply rate_in_range_other.
    + intros c t r Ht [[v ->] | ->]%money_step_cases; [| done].
      by apply rate_in_range_other.
    + intros v. by rewrite lookup_empty.
Qed.

(** ** The first VAT figures of a PDF text stay *)

Lemma pdf_step_returns
    (step : str -> gmap string number -> result (flow (gmap string number))) :
  (forall num t, exists r, step num t = Ok r) ->
  forall (b : bool) (nums : list str) t,
  exists t', (if b then for_loop nums step t else Ok t) = Ok t'.
Proof.
  intros Hstep [] nums t; [| by eexists]. by apply for_loop_returns.
Qed.

Lemma line_step_returns lower line totals :
  exists totals',
    InvoicePdf.line_step lower line totals = Ok (Next totals').
Proof.
  assert (forall num t, exists r, InvoicePdf.vat_step num t = Ok r) as H1.
  { intros num t. unfold InvoicePdf.vat_step.
    destruct (pdf_parse_returns num) as [v ->]. cbn.
    repeat case_match; by eexists. }
  assert (forall num t, exists r, InvoicePdf.before_tax_step num t = Ok r)
    as H2.
  { intros num t. unfold InvoicePdf.before_tax_step.
    destruct (pdf_parse_returns num) as [v ->]. cbn.
    repeat case_match; by eexists. }
  assert (forall num t, exists r, InvoicePdf.payment_step num t = Ok r)
    as H3.
  { intros num t. unfold InvoicePdf.payment_step.
    destruct (pdf_parse_returns num) as [v ->]. cbn.
    repeat case_match; by eexists. }
  unfold InvoicePdf.line_step.
  edestruct (pdf_step_returns _ H1) as [t1 ->]. cbn.
  edestruct (pdf_step_returns _ H2) as [t2 ->]. cbn.
  edestruct (pdf_step_returns _ H3) as [t3 ->]. cbn.
  by eexists.
Qed.

Lemma pdf_lines_return lower lines totals :
  exists totals',
    for_loop lines (InvoicePdf.line_step lower) totals = Ok totals'.
Proof.
  apply for_loop_returns. intros line t.
  destruct (line_step_returns lower line t) as [t' ->]. by eexists.
Qed.

(** The totals of a text that goes on after a line break are those of
    the lines before it, carried through the lines after it. *)
Lemma pdf_totals_app lower text more totals :
  InvoicePdf.extract_totals_from_text_content lower text = Ok totals ->
  InvoicePdf.extract_totals_from_text_content lower (text ++ NEWLINE :: more)
  = for_loop (split NEWLINE more) (InvoicePdf.line_step lower) totals.
Proof.
  unfold InvoicePdf.extract_totals_from_text_content. intros H.
  rewrite split_app, for_loop_app.
  - by rewrite H.
  - intros line t t' E.
    destruct (line_step_returns lower line t) as [t'' E']. congruence.
Qed.

Lemma holds_other k k' v v' totals :
  k' <> k -> holds k v totals -> holds k v (<[k' := v']> totals).
Proof. intros Hk Ht. unfold holds. rewrite lookup_insert. by case_decide. Qed.

(** X6.  The VAT rate and the VAT amount of a PDF text are the first ones
    found: text added after a line break changes neither. *)
Theorem pdf_first_vat_stays lower text more totals k v :
  k = "vat_rate" \/ k = "vat_amount" ->
  InvoicePdf.extract_totals_from_text_content lower text = Ok totals ->
  totals !! k = Some v ->
  exists totals',
    InvoicePdf.extract_totals_from_text_content lower
      (text ++ NEWLINE :: more) = Ok totals'
    /\ totals' !! k = Some v.
Proof.
  intros Hk Hrun Hv. rewrite (pdf_totals_app lower text more totals Hrun).
  destruct (pdf_lines_return lower (split NEWLINE more) totals) as [t' Ht'].
  exists t'. split; [done |].
  apply (for_loop_invariant (holds k v)) in Ht'; [done | | done].
  intros line t r Ht. apply (line_step_kept lower (holds k v)); [| | | done].
  - intros num t0 r0 H0
      [(val & -> & _ & _ & Hn) | [(val & -> & _ & Hn) | ->]]%vat_step_cases;
      [| | done]; cbn [state]; unfold holds in *;
      destruct Hk as [-> | ->]; try congruence;
      by apply holds_other.
  - intros num t0 r0 H0 [[val ->] | ->]%before_tax_step_cases; [| done].
    apply holds_other; [| done]. by destruct Hk as [-> | ->].
  - intros num t0 r0 H0 [[val ->] | ->]%payment_step_cases; [| done].
    apply holds_other; [| done]. by destruct Hk as [-> | ->].
Qed.

(** ** Examples *)

Lemma totals_keys_witness :
  InvoicePdf.extract_totals_from_text_content ascii_lower
    (lit "Grand Total: 15")
  = Ok {[ "total_payment" := Float (float_of_decimal false 15 0) ]}
  /\ "total_payment" ∈ total_keys.
Proof.
  split; [reflexivity |].
  apply (proj1 (totals_keys ascii_lower (fun _ => []) "total_payment")
           (lit "Grand Total: 15")
           {[ "total_payment" := Float (float_of_decimal false 15 0) ]}).
  - reflexivity.
  - eexists. reflexivity.
Defined.

Lemma vat_ranges_witness :
  InvoicePdf.extract_totals_from_text_content ascii_lower (lit "VAT 10")
  = Ok {[ "vat_rate" := Float (float_of_decimal false 10 0) ]}
  /\ rate_in_range {[ "vat_rate" := Float (float_of_decimal false 10 0) ]}.
Proof.
  split; [reflexivity |].
  apply (proj1 (vat_ranges ascii_lower (fun _ => [])) (lit "VAT 10")).
  reflexivity.
Defined.

Lemma pdf_first_vat_stays_witness :
  exists totals',
    InvoicePdf.extract_totals_from_text_content ascii_lower
      (lit "VAT 10" ++ NEWLINE :: lit "VAT 8") = Ok totals'
    /\ totals' !! "vat_rate" = Some (Float (float_of_decimal false 10 0)).
Proof.
  apply (pdf_first_vat_stays ascii_lower (lit "VAT 10") (lit "VAT 8")
           {[ "vat_rate" := Float (float_of_decimal false 10 0) ]}
           "vat_rate").
  - left. reflexivity.
  - reflexivity.
  - reflexivity.
Defined.

End TotalsShapeFacts.

(* ===================================================================== *)
(** * Which of two totals stays                                        *)
(* ===================================================================== *)

Module TotalsOrderFacts.
Import Py ExtractedItems ExtractedTotals TextFacts TotalsFacts TotalsShapeFacts Examples.

(** ** Excel: the rows below win *)

Lemma independent_idle : independent Ok.
Proof. left. exists ∅. intros t. by rewrite (left_id_L ∅ (∪)). Qed.

Lemma independent_bind f g :
  independent f -> independent g -> independent (fun t => t' ← f t; g t').
Proof.
  intros [[u Hf] | [e Hf]] Hg.
  - destruct Hg as [[w Hg] | [e Hg]].
    + left. exists (w ∪ u). intros t. rewrite Hf. cbn.
      by rewrite Hg, (assoc_L (∪)).
    + right. exists e. intros t. rewrite Hf. cbn. by rewrite Hg.
  - right. exists e. intros t. by rewrite Hf.
Qed.

Lemma independent_guard (b : bool) f :
  independent f -> independent (fun t => if b then f t else Ok t).
Proof. destruct b; [done | intros _; apply independent_idle]. Qed.

Lemma independent_ext f g :
  (forall t, f t = g t) -> independent f -> independent g.
Proof.
  intros H [[u Hf] | [e Hf]]; [left; exists u | right; exists e];
    intros t; by rewrite <- H.
Qed.

Lemma vat_rate_loop_independent row :
  independent (for_loop row ReconcileExcel.vat_rate_step).
Proof.
  induction row as [| c row IH]; [apply independent_idle |].
  assert (independent
            (fun t => for_loop row ReconcileExcel.vat_rate_step t)) as IH'
    by exact IH.
  cbn [for_loop]. unfold ReconcileExcel.vat_rate_step at 1.
  destruct c as [[n | s] |]; [| done ..].
  destruct (_ && _); [| done].
  left. exists {[ "vat_rate" := n ]}. intros t.
  by rewrite insert_union_singleton_l.
Qed.

Lemma money_loop_independent key row :
  independent (for_loop row (ReconcileExcel.money_step key)).
Proof.
  induction row as [| c row IH]; [apply independent_idle |].
  cbn [for_loop]. unfold ReconcileExcel.money_step at 1.
  destruct c as [v |]; [| done].
  destruct (ReconcileExcel.notna (Some v)); [| done].
  destruct (ReconcileExcel._parse_money v) as [val | e]; cbn.
  - destruct (gt val (Int 0)); [| done].
    left. exists {[ key := val ]}. intros t.
    by rewrite insert_union_singleton_l.
  - right. by exists e.
Qed.

Section Rows.
Variable lower : str -> str.
Variable str_of_float : float -> str.

#[local] Abbreviation row_step :=
  (ReconcileExcel.row_step lower str_of_float).
#[local] Abbreviation _extract_totals :=
  (ReconcileExcel._extract_totals lower str_of_float).

Lemma row_step_next row t r :
  row_step row t = Ok r -> exists t', r = Next t'.
Proof.
  unfold ReconcileExcel.row_step. intros H.
  run_bind H. run_bind H. run_bind H. run_bind H. simplify_eq.
  by eexists.
Qed.

Lemma row_step_independent row :
  independent (fun t => r ← row_step row t; Ok (state r)).
Proof.
  unfold ReconcileExcel.row_step.
  set (row_str := ReconcileExcel.row_text lower str_of_float row).
  set (g1 := fun t : gmap string number =>
               if ReconcileExcel.search ReconcileExcel.vat_rate_pattern
                    row_str
               then for_loop row ReconcileExcel.vat_rate_step t else Ok t).
  set (g2 := fun t : gmap string number =>
               if ReconcileExcel.search ReconcileExcel.vat_amount_pattern
                    row_str
               then for_loop row (ReconcileExcel.money_step "vat_amount") t
               else Ok t).
  set (g3 := fun t : gmap string number =>
               if ReconcileExcel.search ReconcileExcel.before_tax_pattern
                    row_str
               then for_loop row
                      (ReconcileExcel.money_step "total_before_tax") t
               else Ok t).
  set (g4 := fun t : gmap string number =>
               if ReconcileExcel.search ReconcileExcel.payment_pattern
                    row_str
               then for_loop row (ReconcileExcel.money_step "total_payment") t
               else Ok t).
  apply (independent_ext
           (fun t => t1 ← g1 t; t2 ← g2 t1; t3 ← g3 t2; g4 t3)).
  - intros t. subst g1 g2 g3 g4. cbn beta.
    repeat match goal with
      | |- context [if ?b then for_loop ?r ?f ?x else Ok ?x] =>
          destruct (if b then for_loop r f x else Ok x); cbn; [| done]
      end.
    done.
  - apply independent_bind;
      [apply independent_guard, vat_rate_loop_independent |].
    apply independent_bind;
      [apply independent_guard, money_loop_independent |].
    apply independent_bind;
      [apply independent_guard, money_loop_independent |].
    apply independent_guard, money_loop_independent.
Qed.

Lemma rows_independent df : independent (for_loop df row_step).
Proof.
  induction df as [| row df IH]; [apply independent_idle |].
  eapply independent_ext;
    [| apply (independent_bind _ _ (row_step_independent row) IH)].
  intros t. cbn.
  destruct (row_step row t) as [r | e] eqn:E; [| done].
  by destruct (row_step_next row t r E) as [t' ->].
Qed.

(** X7.  The totals of a sheet are those of its lower rows over those of its
    upper rows: for each key, the last row that gives it wins. *)
Theorem excel_later_rows_win df1 df2 t1 t2 :
  _extract_totals df1 = Ok t1 -> _extract_totals df2 = Ok t2 ->
  exists totals,
    _extract_totals (df1 ++ df2) = Ok totals
    /\ forall k,
         totals !! k
         = match t2 !! k with
           | Some v => Some v
           | None => t1 !! k
           end.
Proof.
  unfold ReconcileExcel._extract_totals. intros H1 H2.
  rewrite for_loop_app, H1.
  2:{ intros row t t' E. by destruct (row_step_next row t _ E). }
  cbn. destruct (rows_independent df2) as [[u Hu] | [e He]].
  - rewrite Hu in H2. rewrite (right_id_L ∅ (∪)) in H2.
    injection H2 as ->. exists (t2 ∪ t1). split; [apply Hu |].
    intros k. rewrite lookup_union.
    destruct (t2 !! k), (t1 !! k); done.
  - by rewrite He in H2.
Qed.
End Rows.

(** ** PDF: the total payment only rises *)

Lemma SFcompare_lt_trans a b c :
  SFcompare a b = Some Lt -> SFcompare b c = Some Lt ->
  SFcompare a c = Some Lt.
Proof.
  destruct a as [sa | sa | | sa ma ea], b as [sb | sb | | sb mb eb],
           c as [sc | sc | | sc mc ec]; cbn; try done;
    try (destruct sa, sb, sc; done);
    try (destruct sa, sb; done);
    try (destruct sb, sc; done);
    try (destruct sa, sc; done).
  change (Pos.compare_cont Eq ma mb) with (ma ?= mb)%positive.
  change (Pos.compare_cont Eq mb mc) with (mb ?= mc)%positive.
  change (Pos.compare_cont Eq ma mc) with (ma ?= mc)%positive.
  destruct sa, sb, sc; try done;
    destruct (Z.compare_spec ea eb), (Z.compare_spec eb ec),
             (Z.compare_spec ea ec);
    try done; try lia;
    destruct (Pos.compare_spec ma mb), (Pos.compare_spec mb mc),
             (Pos.compare_spec ma mc);
    cbn; try done; try lia.
Qed.

Lemma SFcompare_lt_irrefl a : SFcompare a a <> Some Lt.
Proof.
  destruct a as [s | s | | s m e]; cbn; try done; [by destruct s |].
  rewrite Z.compare_refl.
  change (Pos.compare_cont Eq m m) with (m ?= m)%positive.
  rewrite Pos.compare_refl. by destruct s.
Qed.

Lemma pdf_parse_cases s v :
  InvoicePdf._parse_number (Str s) = Ok v -> v = Int 0 \/ exists f, v = Float f.
Proof.
  cbn [InvoicePdf._parse_number]. unfold InvoicePdf.convert.
  destruct (InvoicePdf.cleaned s) as [| c r]; [intros [= <-]; by left |].
  destruct (float_of_str (c :: r)) as [f | e]; cbn.
  - intros [= <-]. right. by exists f.
  - case_decide; [intros [= <-]; by left | done].
Qed.

Lemma at_least_other f k v totals :
  k <> "total_payment" -> at_least f totals -> at_least f (<[k := v]> totals).
Proof.
  intros Hk (f' & H1 & H2). exists f'. split; [| done].
  rewrite lookup_insert. by case_decide.
Qed.

Lemma payment_step_at_least f num totals r :
  at_least f totals -> InvoicePdf.payment_step num totals = Ok r ->
  at_least f (state r).
Proof.
  intros (f' & H1 & H2) H. unfold InvoicePdf.payment_step in H.
  apply bind_ok in H as (val & Hval & H).
  destruct (gt val (Int 0)) eqn:Hpos; [| simplify_eq; by exists f'].
  injection H as <-. cbn [state]. rewrite H1.
  change (default (Int 0) (Some (Float f'))) with (Float f').
  unfold max, gt.
  destruct (lt (Float f') val) eqn:E.
  - apply pdf_parse_cases in Hval as [-> | [g ->]]; [done |].
    exists g. rewrite lookup_insert. case_decide; [| done].
    split; [done |].
    destruct (lt (Float g) (Float f)) eqn:E'; [| done].
    unfold lt in *. cbn in *.
    destruct (SFcompare f' g) as [[] |] eqn:C1; try done.
    destruct (SFcompare g f) as [[] |] eqn:C2; try done.
    by rewrite (SFcompare_lt_trans f' g f C1 C2) in H2.
  - exists f'. rewrite lookup_insert. by case_decide.
Qed.

Lemma payment_value_float lower text totals v :
  InvoicePdf.extract_totals_from_text_content lower text = Ok totals ->
  totals !! "total_payment" = Some v -> exists f, v = Float f.
Proof.
  intros H. revert v.
  apply (pdf_totals_kept lower
           (fun t => forall v, t !! "total_payment" = Some v ->
                               exists f, v = Float f) text totals);
    [| | | | done].
  - intros num t r Ht
      [(val & -> & _) | [(val & -> & _) | ->]]%vat_step_cases; [| | done];
      cbn [state]; intros v; rewrite lookup_insert;
      (case_decide as Hd; [discriminate Hd | apply Ht]).
  - intros num t r Ht [[val ->] | ->]%before_tax_step_cases; [| done].
    intros v. rewrite lookup_insert.
    case_decide as Hd; [discriminate Hd | apply Ht].
  - intros num t r Ht H0. unfold InvoicePdf.payment_step in H0.
    apply bind_ok in H0 as (val & Hval & H0).
    destruct (gt val (Int 0)) eqn:Hpos; [| by simplify_eq].
    injection H0 as <-. cbn [state]. intros v. rewrite lookup_insert.
    case_decide; [| apply Ht]. intros [= <-].
    apply pdf_parse_cases in Hval as [-> | [g ->]]; [done |].
    unfold max.
    destruct (gt (Float g) (default (Int 0) (t !! "total_payment"))) eqn:Eg;
      [by eexists |].
    destruct (t !! "total_payment") as [old |] eqn:E.
    + change (default (Int 0) (Some old)) with old. by apply Ht.
    + change (default (Int 0) None) with (Int 0) in Eg. congruence.
  - intros v. by rewrite lookup_empty.
Qed.

(** X8.  The total payment of a PDF text only rises: text added after a
    line break can raise it and cannot lower it. *)
Theorem pdf_payment_only_rises lower text more totals v :
  InvoicePdf.extract_totals_from_text_content lower text = Ok totals ->
  totals !! "total_payment" = Some v ->
  exists totals' v',
    InvoicePdf.extract_totals_from_text_content lower
      (text ++ NEWLINE :: more) = Ok totals'
    /\ totals' !! "total_payment" = Some v'
    /\ lt v' v = false.
Proof.
  intros Hrun Hv.
  destruct (payment_value_float lower text totals v Hrun Hv) as [f ->].
  rewrite (pdf_totals_app lower text more totals Hrun).
  destruct (pdf_lines_return lower (split NEWLINE more) totals) as [t' Ht'].
  assert (at_least f t') as (f' & H1 & H2).
  { apply (for_loop_invariant (at_least f)) in Ht'; [done | |].
    - intros line t r Ht.
      apply (line_step_kept lower (at_least f)); [| | | done].
      + intros num t0 r0 H0
          [(val & -> & _) | [(val & -> & _) | ->]]%vat_step_cases;
          [| | done]; by apply at_least_other.
      + intros num t0 r0 H0 [[val ->] | ->]%before_tax_step_cases;
          [| done]. by apply at_least_other.
      + intros num t0 r0. apply payment_step_at_least.
    - exists f. split; [done |].
      unfold lt. cbn. destruct (SFcompare f f) as [[] |] eqn:C; try done.
      by destruct (SFcompare_lt_irrefl f). }
  by exists t', (Float f').
Qed.

(** ** Examples *)

Lemma excel_later_rows_win_witness :
  exists totals,
    ReconcileExcel._extract_totals ascii_lower no_repr
      ([rate_row 10] ++ [rate_row 8]) = Ok totals
    /\ forall k,
         totals !! k
         = match ({[ "vat_rate" := Int 8 ]} : gmap string number) !! k with
           | Some v => Some v
           | None => ({[ "vat_rate" := Int 10 ]} : gmap string number) !! k
           end.
Proof.
  apply (excel_later_rows_win ascii_lower no_repr [rate_row 10] [rate_row 8]
           {[ "vat_rate" := Int 10 ]} {[ "vat_rate" := Int 8 ]}).
  - reflexivity.
  - reflexivity.
Defined.

Lemma pdf_payment_only_rises_witness :
  exists totals' v',
    InvoicePdf.extract_totals_from_text_content ascii_lower
      (lit "Grand Total 15" ++ NEWLINE :: lit "Total payment 20")
    = Ok totals'
    /\ totals' !! "total_payment" = Some v'
    /\ lt v' (Float (float_of_decimal false 15 0)) = false.
Proof.
  apply (pdf_payment_only_rises ascii_lower (lit "Grand Total 15")
           (lit "Total payment 20") total_15).
  - reflexivity.
  - reflexivity.
Defined.

End TotalsOrderFacts.

(* ===================================================================== *)
(** * The line items of a PDF text                                     *)
(* ===================================================================== *)

Module PdfItemFacts.
Import Py ExtractedItems TextFacts ReadingFacts TotalsFacts Examples.

(** ** Blanks are no digits *)

Lemma isspace_cases c :
  isspace c = true ->
  c ∈ [ 0x09; 0x0A; 0x0B; 0x0C; 0x0D; 0x1C; 0x1D; 0x1E; 0x1F; 0x20; 0x85;
        0xA0; 0x1680; 0x2000; 0x2001; 0x2002; 0x2003; 0x2004; 0x2005;
        0x2006; 0x2007; 0x2008; 0x2009; 0x200A; 0x2028; 0x2029; 0x202F;
        0x205F; 0x3000 ]%N.
Proof.
  unfold isspace, between, char_in. cbn [existsb].
  rewrite !orb_true_iff, !andb_true_iff, !N.leb_le, !N.eqb_eq.
  intros H.
  assert (c = 0x09 \/ c = 0x0A \/ c = 0x0B \/ c = 0x0C \/ c = 0x0D
          \/ c = 0x1C \/ c = 0x1D \/ c = 0x1E \/ c = 0x1F \/ c = 0x20
          \/ c = 0x85 \/ c = 0xA0 \/ c = 0x1680 \/ c = 0x2000 \/ c = 0x2001
          \/ c = 0x2002 \/ c = 0x2003 \/ c = 0x2004 \/ c = 0x2005
          \/ c = 0x2006 \/ c = 0x2007 \/ c = 0x2008 \/ c = 0x2009
          \/ c = 0x200A \/ c = 0x2028 \/ c = 0x2029 \/ c = 0x202F
          \/ c = 0x205F \/ c = 0x3000)%N as Hc by lia.
  clear H.
  repeat (destruct Hc as [-> | Hc]; [listed |]). subst. listed.
Qed.

Lemma space_no_number c :
  isspace c = true -> InvoicePdf.digit_dot_comma c = false.
Proof.
  intros H%isspace_cases.
  repeat (apply elem_of_cons in H as [-> | H]; [reflexivity |]).
  by apply elem_of_nil in H.
Qed.

(** ** [parse_line_item] *)

Lemma each_returns {A B} (f : A -> result B) xs :
  (forall x, exists y, f x = Ok y) -> exists ys, InvoicePdf.each f xs = Ok ys.
Proof.
  intros Hf. induction xs as [| x xs [ys IH]]; [by eexists |].
  cbn. destruct (Hf x) as [y ->]. cbn. rewrite IH. by eexists.
Qed.

Lemma each_forall {A B} (f : A -> result B) (P : A -> Prop) (Q : B -> Prop)
    xs ys :
  (forall x y, P x -> f x = Ok y -> Q y) ->
  Forall P xs -> InvoicePdf.each f xs = Ok ys -> Forall Q ys.
Proof.
  intros Hf Hxs. revert ys.
  induction Hxs as [| x xs Hx _ IH]; intros ys; cbn.
  - intros [= <-]. constructor.
  - intros H. run_bind H. run_bind H. simplify_eq.
    constructor; [by eapply Hf | by apply IH].
Qed.

Lemma parse_line_item_returns line :
  exists r, InvoicePdf.parse_line_item line = Ok r.
Proof.
  unfold InvoicePdf.parse_line_item.
  destruct (_ <? 2); [by eexists |].
  edestruct (each_returns (fun n => InvoicePdf._parse_number (Str n)))
    as [ys ->]; [intros n; apply pdf_parse_returns |].
  cbn. destruct (_ || _); by eexists.
Qed.

(** The numbers read on a line are zero or more. *)
Lemma line_numbers_not_negative line parsed :
  InvoicePdf.each (fun n => InvoicePdf._parse_number (Str n))
    (findall_class InvoicePdf.digit_dot_comma line) = Ok parsed ->
  Forall not_negative parsed.
Proof.
  apply (each_forall _
           (fun n => n ∈ findall_class InvoicePdf.digit_dot_comma line)).
  - intros n v Hn. apply pdf_parse_not_negative.
    apply findall_class_runs in Hn as [_ Hn]. rewrite Forall_forall in Hn.
    intros H%Hn. by vm_compute in H.
  - by apply Forall_forall.
Qed.

Lemma product_of_trimmed line : trimmed (InvoicePdf.product_of line).
Proof.
  unfold InvoicePdf.product_of. destruct (existsb _ _); apply strip_trimmed.
Qed.

Lemma take_while_not cls s :
  Forall (fun c => cls c = false) (take_while (fun c => negb (cls c)) s).
Proof.
  eapply Forall_impl; [apply ParserFacts.take_while_class |].
  intros c. apply negb_true_iff.
Qed.

Lemma product_of_no_number line :
  Forall (fun c => InvoicePdf.digit_dot_comma c = false)
         (InvoicePdf.product_of line).
Proof.
  unfold InvoicePdf.product_of. apply Forall_forall. intros c Hc.
  destruct (existsb _ line) eqn:E.
  - apply strip_elem_of in Hc.
    pose proof (take_while_not InvoicePdf.digit_dot_comma line) as H.
    rewrite Forall_forall in H. by apply H.
  - apply strip_elem_of in Hc.
    destruct (InvoicePdf.digit_dot_comma c) eqn:Ec; [| done].
    assert (existsb InvoicePdf.digit_dot_comma line = true) as E'.
    { apply existsb_exists. exists c. by rewrite <- list_elem_of_In. }
    congruence.
Qed.

(** The product name of an item is the text before the first digit,
    point or comma of the line, without the blanks around it, and has two
    characters at least: it has no blank at either end and holds no digit,
    no point and no comma. *)
Lemma parse_line_item_product line item :
  InvoicePdf.parse_line_item line = Ok (Some item) ->
  InvoicePdf.product_type item
  = strip (take_while (fun c => negb (InvoicePdf.digit_dot_comma c)) line)
  /\ 2 <= length (InvoicePdf.product_type item)
  /\ trimmed (InvoicePdf.product_type item)
  /\ Forall (fun c => InvoicePdf.digit_dot_comma c = false)
            (InvoicePdf.product_type item).
Proof.
  unfold InvoicePdf.parse_line_item.
  destruct (_ <? 2) eqn:En; [done |].
  intros H. run_bind H.
  destruct (bool_decide _ || _) eqn:Ep; [done |].
  apply orb_false_iff in Ep as [_ Hlen%Nat.ltb_ge].
  assert (InvoicePdf.product_type item = InvoicePdf.product_of line) as ->.
  { injection H as <-. by repeat case_match. }
  repeat split; try done.
  - unfold InvoicePdf.product_of.
    destruct (existsb _ line) eqn:E; [done |].
    apply Nat.ltb_ge in En.
    assert (Forall (fun c => InvoicePdf.digit_dot_comma c = false) line)
      as Hline.
    { apply Forall_forall. intros c Hc.
      destruct (InvoicePdf.digit_dot_comma c) eqn:Ec; [| done].
      assert (existsb InvoicePdf.digit_dot_comma line = true) as E'.
      { apply existsb_exists. exists c. by rewrite <- list_elem_of_In. }
      congruence. }
    unfold findall_class in En. rewrite runs_from_none in En by done.
    cbn in En. lia.
  - apply product_of_trimmed.
  - apply product_of_trimmed.
  - apply product_of_no_number.
Qed.

(** The numbers of an item are zero or more: a minus sign before a
    number on the line is not read with it. *)
Lemma parse_line_item_not_negative line item :
  InvoicePdf.parse_line_item line = Ok (Some item) ->
  not_negative (InvoicePdf.denomination item)
  /\ not_negative (InvoicePdf.quantity item)
  /\ not_negative (InvoicePdf.amount item).
Proof.
  unfold InvoicePdf.parse_line_item.
  destruct (_ <? 2) eqn:En; [done |].
  intros H. apply bind_ok in H as (parsed & Hparsed & H).
  apply line_numbers_not_negative in Hparsed.
  apply Forall_rev in Hparsed.
  destruct (bool_decide _ || _); [done |].
  injection H as <-.
  destruct (rev parsed) as [| a [| q [| d rest]]]; cbn;
    repeat match goal with
      | H : Forall _ (_ :: _) |- _ => apply Forall_cons in H as [? H]
      end;
    repeat split; first [done | apply zero_not_negative].
Qed.

(** X9.  A line that begins, after blanks if any, with a digit, a point or a
    comma gives no item: it has no product name. *)
Theorem numbered_line_no_item blanks c rest :
  Forall (fun b => isspace b = true) blanks ->
  InvoicePdf.digit_dot_comma c = true ->
  InvoicePdf.parse_line_item (blanks ++ c :: rest) = Ok None.
Proof.
  intros Hb Hc. unfold InvoicePdf.parse_line_item.
  destruct (_ <? 2); [done |].
  edestruct (each_returns (fun n => InvoicePdf._parse_number (Str n)))
    as [ys ->]; [intros n; apply pdf_parse_returns |].
  cbn.
  assert (InvoicePdf.product_of (blanks ++ c :: rest) = []) as ->; [| done].
  unfold InvoicePdf.product_of.
  assert (existsb InvoicePdf.digit_dot_comma (blanks ++ c :: rest) = true)
    as ->.
  { apply existsb_exists. exists c. split; [| done].
    apply in_or_app. right. by left. }
  rewrite PyFacts.take_while_app.
  - unfold strip, lstrip, rstrip. by rewrite (PyFacts.drop_while_all _ _ Hb).
  - eapply Forall_impl; [exact Hb |]. intros b Hsp. cbn beta.
    by rewrite (space_no_number b Hsp).
  - by rewrite Hc.
Qed.

(** ** [extract_line_items_from_text_content] *)

Section Table.
Variable lower : str -> str.

#[local] Abbreviation item_step := (InvoicePdf.item_step lower).
#[local] Abbreviation start :=
  {| InvoicePdf.in_table := false; InvoicePdf.header_found := false;
     InvoicePdf.line_items := [] |}.

Lemma item_step_returns line st : exists r, item_step line st = Ok r.
Proof.
  unfold InvoicePdf.item_step.
  repeat (case_match; try by eexists).
  destruct (parse_line_item_returns line) as [[item |] ->]; by eexists.
Qed.

Lemma pdf_items_loop_returns lines st :
  exists st', for_loop lines item_step st = Ok st'.
Proof. apply for_loop_returns. intros. apply item_step_returns. Qed.

(** What a turn of the loop does to the items: nothing, or one item more,
    read from the line. *)
Lemma item_step_items line st r :
  item_step line st = Ok r ->
  InvoicePdf.line_items (state r) = InvoicePdf.line_items st
  \/ (exists item,
        InvoicePdf.parse_line_item line = Ok (Some item)
        /\ InvoicePdf.line_items (state r)
           = InvoicePdf.line_items st ++ [item]).
Proof.
  unfold InvoicePdf.item_step. intros H.
  repeat (case_match; simplify_eq; try by left).
  run_bind H. case_match; simplify_eq; [right | by left].
  by eexists.
Qed.

(** Every item in the state was read from one of the lines. *)
Lemma pdf_items_loop_origin lines st st' :
  for_loop lines item_step st = Ok st' ->
  forall item,
    item ∈ InvoicePdf.line_items st' ->
    item ∈ InvoicePdf.line_items st
    \/ exists line,
         line ∈ lines /\ InvoicePdf.parse_line_item line = Ok (Some item).
Proof.
  revert st. induction lines as [| line lines IH]; intros st; cbn.
  - intros [= <-] item. by left.
  - destruct (item_step line st) as [[st1 | st1] | e] eqn:E; [| | done].
    + intros H item Hitem.
      destruct (IH st1 H item Hitem) as [Hin | (l & Hl & Hparse)].
      * destruct (item_step_items line st _ E) as [Heq | (it & Hit & Heq)];
          cbn [state] in Heq; rewrite Heq in Hin; [by left |].
        apply elem_of_app in Hin as [? | ->%list_elem_of_singleton];
          [by left | right].
        exists line. split; [listed | done].
      * right. exists l. split; [by apply list_elem_of_further | done].
    + intros [= <-] item Hin.
      destruct (item_step_items line st _ E) as [Heq | (it & Hit & Heq)];
        cbn [state] in Heq; rewrite Heq in Hin; [by left |].
      apply elem_of_app in Hin as [? | ->%list_elem_of_singleton];
        [by left | right].
      exists line. split; [listed | done].
Qed.

Lemma pdf_items_origin text items item :
  InvoicePdf.extract_line_items_from_text_content lower text = Ok items ->
  item ∈ items ->
  exists line,
    line ∈ split NEWLINE text
    /\ InvoicePdf.parse_line_item line = Ok (Some item).
Proof.
  unfold InvoicePdf.extract_line_items_from_text_content. intros H Hin.
  run_bind H. simplify_eq.
  match goal with
  | H : for_loop _ _ _ = Ok _ |- _ =>
      destruct (pdf_items_loop_origin _ _ _ H item Hin) as [Hnil | Hline]
  end; [by apply elem_of_nil in Hnil | done].
Qed.

(** X10.  Reading the line items of a text and its totals always returns. *)
Theorem pdf_text_parsed text :
  (exists items,
      InvoicePdf.extract_line_items_from_text_content lower text = Ok items)
  /\ (exists totals,
        InvoicePdf.extract_totals_from_text_content lower text = Ok totals).
Proof.
  split.
  - unfold InvoicePdf.extract_line_items_from_text_content.
    destruct (pdf_items_loop_returns (split NEWLINE text) start) as [st ->].
    by eexists.
  - destruct (TotalsShapeFacts.pdf_lines_return lower (split NEWLINE text) ∅)
      as [totals H].
    by exists totals.
Qed.

(** X11.  The product name of every item read from a PDF text is the text of
    one of its lines before the first digit, point or comma, without the
    blanks around it: it has two characters at least, no blank at either
    end, and no digit, point or comma. *)
Theorem pdf_items_product text items item :
  InvoicePdf.extract_line_items_from_text_content lower text = Ok items ->
  item ∈ items ->
  (exists line,
      line ∈ split NEWLINE text
      /\ InvoicePdf.product_type item
         = strip (take_while
                    (fun c => negb (InvoicePdf.digit_dot_comma c)) line))
  /\ 2 <= length (InvoicePdf.product_type item)
  /\ trimmed (InvoicePdf.product_type item)
  /\ Forall (fun c => InvoicePdf.digit_dot_comma c = false)
            (InvoicePdf.product_type item).
Proof.
  intros H Hin.
  destruct (pdf_items_origin text items item H Hin) as (line & Hline & Hp).
  apply parse_line_item_product in Hp as (? & ? & ? & ?).
  split; [by exists line | done].
Qed.

(** X12.  No item read from a PDF text has a denomination, a quantity or an
    amount below zero: a minus sign before a number is not read. *)
Theorem pdf_items_not_negative text items item :
  InvoicePdf.extract_line_items_from_text_content lower text = Ok items ->
  item ∈ items ->
  not_negative (InvoicePdf.denomination item)
  /\ not_negative (InvoicePdf.quantity item)
  /\ not_negative (InvoicePdf.amount item).
Proof.
  intros H Hin.
  destruct (pdf_items_origin text items item H Hin) as (line & Hline & Hp).
  by apply parse_line_item_not_negative in Hp.
Qed.

(** X13.  A text in which no line holds a header keyword gives no item, even
    if its lines read as items. *)
Theorem pdf_no_header_no_items text :
  (forall line,
      line ∈ split NEWLINE text ->
      InvoicePdf.any_keyword InvoicePdf.header_keywords (lower line) = false) ->
  InvoicePdf.extract_line_items_from_text_content lower text = Ok [].
Proof.
  intros H. unfold InvoicePdf.extract_line_items_from_text_content.
  rewrite for_loop_idle; [done |].
  intros line Hline. unfold InvoicePdf.item_step. cbv zeta.
  by rewrite (H line Hline).
Qed.

(** *** The summary line *)

Lemma item_step_reading line st st' :
  reading st -> item_step line st = Ok (Next st') -> reading st'.
Proof.
  intros [H1 H2]. unfold InvoicePdf.item_step. cbv zeta.
  rewrite H1, H2. cbn [negb andb].
  destruct (InvoicePdf.any_keyword _ _); [done |]. intros H. run_bind H.
  case_match; by simplify_eq.
Qed.

Lemma item_step_summary line st :
  reading st ->
  InvoicePdf.any_keyword InvoicePdf.summary_keywords (lower line) = true ->
  item_step line st = Ok (Break st).
Proof.
  intros [H1 H2] Hs. unfold InvoicePdf.item_step. cbv zeta.
  by rewrite H1, H2, Hs.
Qed.

Lemma item_step_coherent line st st' :
  coherent st -> item_step line st = Ok (Next st') -> coherent st'.
Proof.
  unfold coherent, InvoicePdf.item_step. intros Hc H.
  repeat (case_match; simplify_eq; try done).
  run_bind H. case_match; by simplify_eq.
Qed.

Lemma item_step_header line st st' :
  coherent st ->
  InvoicePdf.any_keyword InvoicePdf.header_keywords (lower line) = true ->
  item_step line st = Ok (Next st') -> reading st'.
Proof.
  unfold coherent, reading, InvoicePdf.item_step. intros Hc Hk H.
  cbv zeta in H. rewrite Hk in H.
  destruct (InvoicePdf.header_found st) eqn:E; cbn [negb andb] in H;
    [| by simplify_eq].
  rewrite Hc in H. cbn [negb andb] in H. revert H.
  destruct (InvoicePdf.any_keyword InvoicePdf.summary_keywords _); [done |].
  intros H. run_bind H. case_match; by simplify_eq.
Qed.

Lemma loop_stops_reading lines line rest st :
  reading st ->
  InvoicePdf.any_keyword InvoicePdf.summary_keywords (lower line) = true ->
  for_loop (lines ++ line :: rest) item_step st
  = for_loop (lines ++ [line]) item_step st.
Proof.
  intros Hst Hs. revert st Hst.
  induction lines as [| l lines IH]; intros st Hst; cbn.
  - by rewrite (item_step_summary line st Hst Hs).
  - destruct (item_step l st) as [[st1 | st1] | e] eqn:E; [| done ..].
    apply IH. by apply (item_step_reading l st).
Qed.

Lemma loop_stops_coherent lines line rest st :
  coherent st ->
  (exists header,
      header ∈ lines
      /\ InvoicePdf.any_keyword InvoicePdf.header_keywords (lower header)
         = true) ->
  InvoicePdf.any_keyword InvoicePdf.summary_keywords (lower line) = true ->
  for_loop (lines ++ line :: rest) item_step st
  = for_loop (lines ++ [line]) item_step st.
Proof.
  intros Hst (header & Hin & Hk) Hs. revert st Hst.
  induction lines as [| l lines IH]; intros st Hst;
    [by apply elem_of_nil in Hin |].
  cbn. destruct (item_step l st) as [[st1 | st1] | e] eqn:E; [| done ..].
  destruct (InvoicePdf.any_keyword InvoicePdf.header_keywords (lower l))
    eqn:El.
  - apply loop_stops_reading; [| done].
    by apply (item_step_header l st).
  - apply elem_of_cons in Hin as [-> | Hin]; [congruence |].
    apply IH; [done |]. by apply (item_step_coherent l st).
Qed.

Lemma split_line sep s : sep ∉ s -> split sep s = [s].
Proof.
  induction s as [| c s IH]; [done |]. intros H. cbn.
  destruct (c =? sep)%N eqn:E.
  - apply N.eqb_eq in E as ->. destruct H. listed.
  - rewrite IH; [done |]. intros Hs. apply H. by apply list_elem_of_further.
Qed.

(** X14.  Once a header line has been met, the first line with a summary
    keyword ends the reading: what follows it in the text changes
    nothing. *)
Theorem pdf_items_stop_at_summary before line after :
  (exists header,
      header ∈ split NEWLINE before
      /\ InvoicePdf.any_keyword InvoicePdf.header_keywords (lower header)
         = true) ->
  contains NEWLINE line = false ->
  InvoicePdf.any_keyword InvoicePdf.summary_keywords (lower line) = true ->
  InvoicePdf.extract_line_items_from_text_content lower
    (before ++ NEWLINE :: line ++ NEWLINE :: after)
  = InvoicePdf.extract_line_items_from_text_content lower
      (before ++ NEWLINE :: line).
Proof.
  intros Hh Hl%contains_false Hs.
  unfold InvoicePdf.extract_line_items_from_text_content.
  rewrite !split_app, (split_line NEWLINE line Hl).
  by rewrite (loop_stops_coherent _ line (split NEWLINE after) start).
Qed.
End Table.


(** ** [is_text_extractable] *)

Section Words.
Variable isword : char -> bool.

(** The words found have three letters or more each, and no more letters
    altogether than the text has. *)
Lemma words_from_letters s prev cur :
  Forall (fun w => 3 <= length w) (InvoicePdf.words_from isword s prev cur)
  /\ sum_list (length <$> InvoicePdf.words_from isword s prev cur)
     <= length (List.filter InvoicePdf.letter s) + length (default [] cur).
Proof.
  revert prev cur. induction s as [| c s IH]; intros prev cur.
  - cbn [InvoicePdf.words_from].
    destruct cur as [w |]; [| split; [constructor | cbn; lia]].
    destruct (3 <=? length w) eqn:E; [| split; [constructor | cbn; lia]].
    apply Nat.leb_le in E. split.
    + constructor; [by rewrite length_rev | constructor].
    + cbn. rewrite length_rev. lia.
  - cbn [InvoicePdf.words_from List.filter].
    destruct (InvoicePdf.letter c) eqn:Ec.
    + destruct cur as [w |]; [| destruct prev].
      * destruct (IH true (Some (c :: w))) as [H1 H2].
        split; [done |]. cbn in *. lia.
      * destruct (IH true None) as [H1 H2].
        split; [done |]. cbn in *. lia.
      * destruct (IH true (Some [c])) as [H1 H2].
        split; [done |]. cbn in *. lia.
    + destruct (IH (isword c) None) as [H1 H2].
      destruct cur as [w |]; [| split; [done | cbn in *; lia]].
      destruct (negb (isword c) && (3 <=? length w)) eqn:E.
      * apply andb_true_iff in E as [_ E%Nat.leb_le].
        split; [constructor; [by rewrite length_rev | done] |].
        cbn in *. rewrite length_rev. lia.
      * split; [done | cbn in *; lia].
Qed.

Lemma sum_list_at_least (ws : list str) n :
  Forall (fun w => n <= length w) ws ->
  n * length ws <= sum_list (length <$> ws).
Proof. induction 1 as [| w ws Hw _ IH]; cbn; lia. Qed.

Lemma letters_strip s :
  length (List.filter InvoicePdf.letter (strip s))
  <= length (List.filter InvoicePdf.letter s).
Proof.
  destruct (strip_inside s) as (p & q & H). rewrite H at 2.
  rewrite !List.filter_app, !length_app. lia.
Qed.

(** X15.  A text is taken as extractable only if, without the blanks
    around it, it has 50 characters or more, and if it has 15 letters or
    more of the Latin alphabet or the lower case Vietnamese ones: five
    words of three such letters. *)
Theorem extractable_text_letters text :
  InvoicePdf.is_text_extractable isword text = true ->
  50 <= length (strip text)
  /\ 15 <= length (List.filter InvoicePdf.letter text).
Proof.
  unfold InvoicePdf.is_text_extractable.
  destruct (length (strip text) <? 50) eqn:E1; [done |].
  destruct (length _ <? 5) eqn:E2; [done |]. intros _.
  apply Nat.ltb_ge in E1, E2. split; [done |].
  destruct (words_from_letters (strip text) false None) as [H1 H2].
  apply sum_list_at_least in H1. cbn in H2.
  pose proof (letters_strip text). lia.
Qed.
End Words.

(** ** Examples *)

Lemma numbered_line_no_item_witness :
  InvoicePdf.parse_line_item (lit " 1 SIM card 50000 10 500000") = Ok None.
Proof.
  apply (numbered_line_no_item [SPACE] 49%N
           (lit " SIM card 50000 10 500000")).
  - repeat constructor.
  - reflexivity.
Defined.

Lemma pdf_items_product_witness :
  InvoicePdf.extract_line_items_from_text_content ascii_lower sim_text
  = Ok [sim_item]
  /\ (exists line,
        line ∈ split NEWLINE sim_text
        /\ InvoicePdf.product_type sim_item
           = strip (take_while
                      (fun c => negb (InvoicePdf.digit_dot_comma c)) line))
  /\ 2 <= length (InvoicePdf.product_type sim_item)
  /\ trimmed (InvoicePdf.product_type sim_item)
  /\ Forall (fun c => InvoicePdf.digit_dot_comma c = false)
            (InvoicePdf.product_type sim_item).
Proof.
  split; [reflexivity |].
  apply (pdf_items_product ascii_lower sim_text [sim_item] sim_item).
  - reflexivity.
  - apply list_elem_of_here.
Defined.

Lemma pdf_items_not_negative_witness :
  not_negative (InvoicePdf.denomination sim_item)
  /\ not_negative (InvoicePdf.quantity sim_item)
  /\ not_negative (InvoicePdf.amount sim_item).
Proof.
  apply (pdf_items_not_negative ascii_lower sim_text [sim_item] sim_item).
  - reflexivity.
  - apply list_elem_of_here.
Defined.

Lemma pdf_no_header_no_items_witness :
  InvoicePdf.parse_line_item sim_line = Ok (Some sim_item)
  /\ InvoicePdf.extract_line_items_from_text_content ascii_lower sim_line
     = Ok [].
Proof.
  split; [reflexivity |].
  apply (pdf_no_header_no_items ascii_lower sim_line).
  intros line Hline. apply list_elem_of_singleton in Hline. subst line.
  reflexivity.
Defined.

Lemma pdf_items_stop_at_summary_witness :
  InvoicePdf.extract_line_items_from_text_content ascii_lower
    (sim_text ++ NEWLINE :: lit "Total 500000" ++ NEWLINE :: sim_line)
  = InvoicePdf.extract_line_items_from_text_content ascii_lower
      (sim_text ++ NEWLINE :: lit "Total 500000").
Proof.
  apply (pdf_items_stop_at_summary ascii_lower sim_text (lit "Total 500000")
           sim_line).
  - exists (lit "Product Quantity Amount").
    split; [apply list_elem_of_here | reflexivity].
  - reflexivity.
  - reflexivity.
Defined.

Lemma extractable_text_letters_witness :
  InvoicePdf.is_text_extractable ascii_word worded_text = true
  /\ 50 <= length (strip worded_text)
  /\ 15 <= length (List.filter InvoicePdf.letter worded_text).
Proof.
  split; [reflexivity |].
  apply (extractable_text_letters ascii_word worded_text). reflexivity.
Defined.

End PdfItemFacts.

(* ===================================================================== *)
(** * The line items of a workbook                                     *)
(* ===================================================================== *)

Module ExcelItemFacts.
Import Py ExtractedItems ExtractedTotals TextFacts TotalsFacts Examples.

(** ** [enumerate] and loops without [break] *)

Lemma enumerate_from_lookup {A} (xs : list A) n i x :
  (i, x) ∈ ReconcileExcel.enumerate_from n xs ->
  n <= i /\ xs !! (i - n) = Some x.
Proof.
  revert n. induction xs as [| y xs IH]; intros n; cbn.
  - by intros ?%elem_of_nil.
  - intros [[= -> ->] | H]%elem_of_cons.
    + by rewrite Nat.sub_diag.
    + apply IH in H as [H1 H2]. split; [lia |].
      by replace (i - n) with (S (i - S n)) by lia.
Qed.

Lemma enumerate_lookup {A} (xs : list A) i x :
  (i, x) ∈ ReconcileExcel.enumerate xs -> xs !! i = Some x.
Proof.
  intros [_ H]%enumerate_from_lookup. by rewrite Nat.sub_0_r in H.
Qed.

Lemma fold_left_invariant {A B} (P : A -> Prop) (f : A -> B -> A) xs a :
  (forall a x, x ∈ xs -> P a -> P (f a x)) -> P a -> P (fold_left f xs a).
Proof.
  revert a. induction xs as [| x xs IH]; intros a Hf Ha; [done |].
  cbn. apply IH.
  - intros a' y Hy. apply Hf. by apply list_elem_of_further.
  - apply Hf; [listed | done].
Qed.

(** ** [_map_columns] *)

Section Sheet.
Variable lower : str -> str.
Variable str_of_float : float -> str.

#[local] Abbreviation _map_columns :=
  (ReconcileExcel._map_columns lower str_of_float).
#[local] Abbreviation _extract_item :=
  (ReconcileExcel._extract_item str_of_float).
#[local] Abbreviation item_of_row :=
  (ReconcileExcel.item_of_row str_of_float).
#[local] Abbreviation data_rows :=
  (ReconcileExcel.data_rows lower str_of_float).
#[local] Abbreviation _extract_section :=
  (ReconcileExcel._extract_section lower str_of_float).
#[local] Abbreviation sections :=
  (ReconcileExcel.sections lower str_of_float).
#[local] Abbreviation potential_headers :=
  (ReconcileExcel.potential_headers lower str_of_float).
#[local] Abbreviation _extract_line_items_from_sheet :=
  (ReconcileExcel._extract_line_items_from_sheet lower str_of_float).
#[local] Abbreviation sheets_loop :=
  (ReconcileExcel.sheets_loop lower str_of_float).
#[local] Abbreviation parse_reconciliation_excel :=
  (ReconcileExcel.parse_reconciliation_excel lower str_of_float).
#[local] Abbreviation _extract_totals :=
  (ReconcileExcel._extract_totals lower str_of_float).

Lemma column_step_cases column_map idx c :
  ReconcileExcel.column_step lower str_of_float column_map (idx, c)
  = column_map
  \/ exists key,
       key ∈ column_keys
       /\ ReconcileExcel.column_step lower str_of_float column_map (idx, c)
          = <[key := idx]> column_map.
Proof.
  unfold ReconcileExcel.column_step.
  repeat case_match; first [by left | right; eexists; split; [| done]];
    unfold column_keys; listed.
Qed.

(** X16.  The column map holds positions of the header row under the five
    keys of a line item and nothing else. *)
Theorem map_columns_in_row header_row key idx :
  _map_columns header_row !! key = Some idx ->
  key ∈ column_keys /\ idx < length header_row.
Proof.
  unfold ReconcileExcel._map_columns. revert key idx.
  apply (fold_left_invariant
           (fun m : gmap string nat =>
              forall key idx, m !! key = Some idx ->
              key ∈ column_keys /\ idx < length header_row)).
  - intros m [i c] Hin Hm key idx.
    destruct (column_step_cases m i c) as [-> | (k & Hk & ->)]; [apply Hm |].
    rewrite lookup_insert. case_decide; [| apply Hm].
    intros [= <-]. subst. split; [done |].
    apply enumerate_lookup in Hin. by apply lookup_lt_Some in Hin.
  - intros key idx. by rewrite lookup_empty.
Qed.

(** ** [_extract_item] *)

(** An item has a product column behind it, whose cell in the row gives
    its name: the text of the cell without the blanks around it, which is
    not empty. *)
Lemma extract_item_product row column_map item :
  _extract_item row column_map = Some item ->
  (exists idx c,
      column_map !! "product" = Some idx /\ row !! idx = Some c
      /\ ReconcileExcel.product_type item
         = strip (ReconcileExcel.str_of_cell str_of_float c))
  /\ ReconcileExcel.product_type item <> []
  /\ trimmed (ReconcileExcel.product_type item).
Proof.
  unfold ReconcileExcel._extract_item.
  destruct (item_of_row row column_map) as [[it |] |] eqn:E; [| done ..].
  intros [= ->]. unfold ReconcileExcel.item_of_row in E.
  apply bind_Some in E as (product & Hproduct & E).
  do 3 apply bind_Some in E as (? & _ & E).
  destruct (bool_decide (strip product = [])) eqn:Eb; [done |].
  apply bool_decide_eq_false in Eb.
  destruct (bool_decide (product = lit "nan")); [done |].
  cbn [orb] in E.
  do 4 apply bind_Some in E as (? & _ & E).
  injection E as <-. cbn [ReconcileExcel.product_type].
  split; [| split; [done | apply strip_trimmed]].
  destruct (column_map !! "product") as [idx |]; [| by simplify_eq].
  apply fmap_Some in Hproduct as (c & Hc & ->). by exists idx, c.
Qed.

(** ** [_extract_section] *)

Lemma data_rows_origin column_map rows items item :
  item ∈ data_rows column_map rows items ->
  item ∈ items
  \/ exists row, row ∈ rows /\ _extract_item row column_map = Some item.
Proof.
  revert items. induction rows as [| row rows IH]; intros items; cbn;
    [by left |].
  destruct (_ || _); [by left |].
  destruct (_extract_item row column_map) as [it |] eqn:E.
  - intros [[? | ->%list_elem_of_singleton]%elem_of_app
           | (r & Hr & He)]%IH.
    + by left.
    + right. exists row. split; [listed | done].
    + right. exists r. split; [by apply list_elem_of_further | done].
  - intros [? | (r & Hr & He)]%IH; [by left | right].
    exists r. split; [by apply list_elem_of_further | done].
Qed.

Lemma data_rows_stop column_map rows stop rest items :
  ReconcileExcel._is_empty_row stop
  || ReconcileExcel._is_summary_row lower str_of_float stop = true ->
  data_rows column_map (rows ++ stop :: rest) items
  = data_rows column_map rows items.
Proof.
  intros Hstop. revert items.
  induction rows as [| row rows IH]; intros items;
    cbn [ReconcileExcel.data_rows app].
  - by rewrite Hstop.
  - destruct (ReconcileExcel._is_empty_row row || _); [done |].
    destruct (_extract_item row column_map); apply IH.
Qed.

(** X17.  A section ends at the first row that is empty, but for one cell at
    most, or that holds a summary keyword: the rows of the sheet from
    that row on are not read. *)
Theorem section_stops before stop after header_idx :
  header_idx < length before ->
  ReconcileExcel._is_empty_row stop
  || ReconcileExcel._is_summary_row lower str_of_float stop = true ->
  _extract_section (before ++ stop :: after) header_idx
  = _extract_section before header_idx.
Proof.
  intros Hidx Hstop. unfold ReconcileExcel._extract_section.
  rewrite lookup_app_l by done.
  destruct (before !! header_idx) as [header_row |]; [| done].
  case_bool_decide; [done |].
  rewrite drop_app_le by lia.
  by rewrite data_rows_stop.
Qed.

Lemma section_origin df header_idx items item :
  _extract_section df header_idx = inr items -> item ∈ items ->
  exists row column_map,
    row ∈ df /\ _extract_item row column_map = Some item.
Proof.
  unfold ReconcileExcel._extract_section.
  destruct (df !! header_idx) as [header_row |]; [| done].
  case_bool_decide; [by intros [= <-] ?%elem_of_nil |].
  intros [= <-] [?%elem_of_nil | (row & Hrow & He)]%data_rows_origin;
    [done |].
  exists row, (_map_columns header_row). split; [| done].
  by apply (subseteq_drop (S header_idx) df).
Qed.

(** ** [_extract_line_items_from_sheet] *)

Lemma potential_headers_valid df idx :
  idx ∈ potential_headers df -> is_Some (df !! idx).
Proof.
  unfold ReconcileExcel.potential_headers.
  intros ([i row] & -> & H)%list_elem_of_fmap.
  apply list_elem_of_In, filter_In in H as [H _].
  apply list_elem_of_In, enumerate_lookup in H. by eexists.
Qed.

Lemma section_returns df idx :
  is_Some (df !! idx) -> exists items, _extract_section df idx = inr items.
Proof.
  intros [header_row H]. unfold ReconcileExcel._extract_section.
  rewrite H. case_bool_decide; by eexists.
Qed.

Lemma sections_return df headers line_items :
  (forall idx, idx ∈ headers -> is_Some (df !! idx)) ->
  exists items, sections df headers line_items = inr items.
Proof.
  revert line_items.
  induction headers as [| idx headers IH]; intros line_items Hh; cbn;
    [by eexists |].
  destruct (section_returns df idx) as [items ->]; [apply Hh; listed |].
  apply IH. intros i Hi. apply Hh. by apply list_elem_of_further.
Qed.

Lemma sections_origin df headers line_items items item :
  sections df headers line_items = inr items -> item ∈ items ->
  item ∈ line_items
  \/ exists row column_map,
       row ∈ df /\ _extract_item row column_map = Some item.
Proof.
  revert line_items.
  induction headers as [| idx headers IH]; intros line_items; cbn.
  - intros [= <-]. by left.
  - destruct (_extract_section df idx) as [e | its] eqn:E; [done |].
    intros H Hin.
    destruct (IH _ H Hin) as [[? | Hit]%elem_of_app | ?];
      [by left | right | by right].
    by apply (section_origin df idx its).
Qed.

Lemma sheet_origin df items totals item :
  _extract_line_items_from_sheet df = inr (items, totals) -> item ∈ items ->
  exists row column_map,
    row ∈ df /\ _extract_item row column_map = Some item.
Proof.
  unfold ReconcileExcel._extract_line_items_from_sheet.
  destruct (sections df _ []) as [e | its] eqn:E; [done |].
  destruct (_extract_totals df) as [t | e]; [| done].
  intros [= <- <-] Hin.
  destruct (sections_origin _ _ _ _ _ E Hin) as [?%elem_of_nil | ?]; done.
Qed.

Lemma sheet_returns df totals :
  _extract_totals df = Ok totals ->
  exists items, _extract_line_items_from_sheet df = inr (items, totals).
Proof.
  intros H. unfold ReconcileExcel._extract_line_items_from_sheet.
  destruct (sections_return df (potential_headers df) [])
    as [items ->]; [apply potential_headers_valid |].
  rewrite H. by eexists.
Qed.

Lemma sheet_totals df items totals :
  _extract_line_items_from_sheet df = inr (items, totals) ->
  _extract_totals df = Ok totals.
Proof.
  unfold ReconcileExcel._extract_line_items_from_sheet.
  destruct (sections df _ []); [done |].
  destruct (_extract_totals df); [| done]. by intros [= _ <-].
Qed.


(** A sheet without a header row has no line items. *)
Lemma sheet_no_header df items totals :
  (forall row,
      row ∈ df -> ReconcileExcel.is_header lower str_of_float row = false) ->
  _extract_line_items_from_sheet df = inr (items, totals) -> items = [].
Proof.
  intros Hdf. unfold ReconcileExcel._extract_line_items_from_sheet.
  assert (potential_headers df = []) as ->.
  { unfold ReconcileExcel.potential_headers.
    destruct (List.filter _ _) as [| [i row] l] eqn:E; [done |].
    assert ((i, row) ∈ (i, row) :: l) as Hin by listed.
    rewrite <- E in Hin.
    apply list_elem_of_In, filter_In in Hin as [Hin Hh].
    apply list_elem_of_In, enumerate_lookup, list_elem_of_lookup_2 in Hin.
    cbn [snd] in Hh. by rewrite (Hdf row Hin) in Hh. }
  cbn. destruct (_extract_totals df); [| done]. by intros [= <- _].
Qed.

(** ** The failures of [_extract_totals] *)









(** ** [parse_reconciliation_excel] *)

Lemma merged_union sheet_totals totals :
  merged sheet_totals totals = sheet_totals ∪ totals.
Proof.
  unfold merged. case_bool_decide as E; [| done].
  by rewrite E, (left_id_L ∅ (∪)).
Qed.

Lemma sheets_loop_app sheets df all_line_items totals items' totals' :
  sheets_loop sheets all_line_items totals = inr (items', totals') ->
  sheets_loop (sheets ++ [df]) all_line_items totals
  = match _extract_line_items_from_sheet df with
    | inr (items, sheet_totals) =>
        inr (items' ++ items, sheet_totals ∪ totals')
    | inl e => inl e
    end.
Proof.
  revert all_line_items totals.
  induction sheets as [| sheet sheets IH]; intros all_line_items totals; cbn.
  - intros [= <- <-].
    destruct (_extract_line_items_from_sheet df) as [e | [items st]];
      [done |].
    fold (merged st totals). by rewrite merged_union.
  - destruct (_extract_line_items_from_sheet sheet) as [e | [items st]];
      [done |].
    apply IH.
Qed.


Lemma sheets_loop_origin sheets all_line_items totals items' totals' :
  sheets_loop sheets all_line_items totals = inr (items', totals') ->
  (forall item,
      item ∈ items' ->
      item ∈ all_line_items
      \/ exists df items sheet_totals,
           df ∈ sheets
           /\ _extract_line_items_from_sheet df = inr (items, sheet_totals)
           /\ item ∈ items)
  /\ (forall k v,
        totals' !! k = Some v ->
        totals !! k = Some v
        \/ exists df items sheet_totals,
             df ∈ sheets
             /\ _extract_line_items_from_sheet df = inr (items, sheet_totals)
             /\ sheet_totals !! k = Some v).
Proof.
  revert all_line_items totals.
  induction sheets as [| sheet sheets IH]; intros all_line_items totals; cbn.
  - intros [= <- <-]. split; intros; by left.
  - destruct (_extract_line_items_from_sheet sheet) as [e | [items st]] eqn:E;
      [done |].
    fold (merged st totals). rewrite merged_union.
    intros [H1 H2]%IH. split.
    + intros item [[? | ?]%elem_of_app | (df & its & t & Hdf & Hs & Hin)]%H1.
      * by left.
      * right. exists sheet, items, st. split; [listed | done].
      * right. exists df, its, t.
        split; [by apply list_elem_of_further | done].
    + intros k v [Hu | (df & its & t & Hdf & Hs & Hin)]%H2.
      * apply lookup_union_Some_raw in Hu as [? | [_ ?]]; [right | by left].
        exists sheet, items, st. split; [listed | done].
      * right. exists df, its, t.
        split; [by apply list_elem_of_further | done].
Qed.

(** X18.  The name of every line item of a workbook is the text of a cell of
    one of its sheets without the blanks around it, and is not empty. *)
Theorem workbook_items_named sheets items totals item :
  parse_reconciliation_excel sheets = inr (items, totals) ->
  item ∈ items ->
  (exists df row c,
      df ∈ sheets /\ row ∈ df /\ c ∈ row
      /\ ReconcileExcel.product_type item
         = strip (ReconcileExcel.str_of_cell str_of_float c))
  /\ ReconcileExcel.product_type item <> []
  /\ trimmed (ReconcileExcel.product_type item).
Proof.
  unfold ReconcileExcel.parse_reconciliation_excel.
  destruct (sheets_loop sheets [] ∅) as [e | r] eqn:E; [done |].
  intros [= ->] Hin.
  apply sheets_loop_origin in E as [H _].
  destruct (H item Hin) as [?%elem_of_nil | (df & its & t & Hdf & Hs & Hit)];
    [done |].
  destruct (sheet_origin df its t item Hs Hit) as (row & m & Hrow & Hitem).
  apply extract_item_product in Hitem
    as ((idx & c & _ & Hc & Hname) & Hne & Htrim).
  split; [| done].
  exists df, row, c. repeat split; try done.
  by apply list_elem_of_lookup_2 in Hc.
Qed.

(** X19.  Every total of a workbook is a total of one of its sheets, and is
    greater than zero. *)
Theorem workbook_totals_from_sheets sheets items totals k v :
  parse_reconciliation_excel sheets = inr (items, totals) ->
  totals !! k = Some v ->
  (exists df sheet_totals,
      df ∈ sheets /\ _extract_totals df = Ok sheet_totals
      /\ sheet_totals !! k = Some v)
  /\ gt v (Int 0) = true.
Proof.
  unfold ReconcileExcel.parse_reconciliation_excel.
  destruct (sheets_loop sheets [] ∅) as [e | r] eqn:E; [done |].
  intros [= ->] Hk.
  apply sheets_loop_origin in E as [_ H].
  destruct (H k v Hk) as [Hnil | (df & its & t & Hdf & Hs & Ht)];
    [by rewrite lookup_empty in Hnil |].
  apply sheet_totals in Hs. split; [by exists df, t |].
  by apply (excel_totals_positive lower str_of_float df t Hs k).
Qed.

(** X20.  One sheet more at the end of a workbook adds its line items after
    those of the sheets before it, and its totals take the place of
    theirs key by key: the last sheet wins. *)
Theorem workbook_last_sheet_wins sheets df items totals sheet_totals :
  parse_reconciliation_excel sheets = inr (items, totals) ->
  _extract_totals df = Ok sheet_totals ->
  exists sheet_items totals',
    _extract_line_items_from_sheet df = inr (sheet_items, sheet_totals)
    /\ parse_reconciliation_excel (sheets ++ [df])
       = inr (items ++ sheet_items, totals')
    /\ forall k,
         totals' !! k
         = match sheet_totals !! k with
           | Some v => Some v
           | None => totals !! k
           end.
Proof.
  unfold ReconcileExcel.parse_reconciliation_excel.
  destruct (sheets_loop sheets [] ∅) as [e | r] eqn:E; [done |].
  intros [= ->] Hdf.
  destruct (sheet_returns df sheet_totals Hdf) as [sheet_items Hs].
  exists sheet_items, (sheet_totals ∪ totals).
  split; [done |].
  rewrite (sheets_loop_app sheets df [] ∅ items totals E), Hs.
  split; [done |]. intros k. rewrite lookup_union.
  destruct (sheet_totals !! k), (totals !! k); done.
Qed.


(** X22.  A workbook in which no row holds a header keyword has no line item,
    whatever its totals. *)
Theorem workbook_no_header_no_items sheets items totals :
  (forall df row,
      df ∈ sheets -> row ∈ df ->
      ReconcileExcel.is_header lower str_of_float row = false) ->
  parse_reconciliation_excel sheets = inr (items, totals) ->
  items = [].
Proof.
  intros Hh. unfold ReconcileExcel.parse_reconciliation_excel.
  destruct (sheets_loop sheets [] ∅) as [e | r] eqn:E; [done |].
  intros [= ->]. apply sheets_loop_origin in E as [H _].
  destruct items as [| item items]; [done |].
  destruct (H item) as [?%elem_of_nil | (df & its & t & Hdf & Hs & Hit)];
    [listed | done |].
  apply sheet_no_header in Hs as ->; [by apply elem_of_nil in Hit |].
  intros row. by apply Hh.
Qed.

End Sheet.

(** ** Examples *)

Lemma map_columns_in_row_witness :
  ReconcileExcel._map_columns ascii_lower no_repr header_row !! "amount"
  = Some 2
  /\ "amount" ∈ column_keys /\ 2 < length header_row.
Proof.
  split; [reflexivity |].
  apply (map_columns_in_row ascii_lower no_repr header_row "amount" 2).
  reflexivity.
Defined.

Lemma section_stops_witness :
  ReconcileExcel._extract_section ascii_lower no_repr
    ([header_row; sim_row] ++ [] :: [sim_row]) 0
  = ReconcileExcel._extract_section ascii_lower no_repr
      [header_row; sim_row] 0.
Proof.
  apply (section_stops ascii_lower no_repr [header_row; sim_row] [] [sim_row]
           0).
  - cbn. lia.
  - reflexivity.
Defined.

Lemma workbook_items_named_witness :
  ReconcileExcel.parse_reconciliation_excel ascii_lower no_repr
    [[header_row; sim_row]] = inr ([sim_row_item], ∅)
  /\ (exists df row c,
        df ∈ [[header_row; sim_row]] /\ row ∈ df /\ c ∈ row
        /\ ReconcileExcel.product_type sim_row_item
           = strip (ReconcileExcel.str_of_cell no_repr c))
  /\ ReconcileExcel.product_type sim_row_item <> []
  /\ trimmed (ReconcileExcel.product_type sim_row_item).
Proof.
  split; [reflexivity |].
  apply (workbook_items_named ascii_lower no_repr [[header_row; sim_row]]
           [sim_row_item] ∅ sim_row_item).
  - reflexivity.
  - apply list_elem_of_here.
Defined.

Lemma workbook_totals_from_sheets_witness :
  ReconcileExcel.parse_reconciliation_excel ascii_lower no_repr [[total_row]]
  = inr ([], total_15)
  /\ (exists df sheet_totals,
        df ∈ [[total_row]]
        /\ ReconcileExcel._extract_totals ascii_lower no_repr df
           = Ok sheet_totals
        /\ sheet_totals !! "total_payment"
           = Some (Float (float_of_decimal false 15 0)))
  /\ gt (Float (float_of_decimal false 15 0)) (Int 0) = true.
Proof.
  split; [reflexivity |].
  apply (workbook_totals_from_sheets ascii_lower no_repr [[total_row]] []
           total_15 "total_payment").
  - reflexivity.
  - reflexivity.
Defined.

Lemma workbook_last_sheet_wins_witness :
  exists sheet_items totals',
    ReconcileExcel._extract_line_items_from_sheet ascii_lower no_repr
      [total_row] = inr (sheet_items, total_15)
    /\ ReconcileExcel.parse_reconciliation_excel ascii_lower no_repr
         ([[header_row; sim_row]] ++ [[total_row]])
       = inr ([sim_row_item] ++ sheet_items, totals')
    /\ forall k,
         totals' !! k
         = match total_15 !! k with
           | Some v => Some v
           | None => (∅ : gmap string number) !! k
           end.
Proof.
  apply (workbook_last_sheet_wins ascii_lower no_repr [[header_row; sim_row]]
           [total_row] [sim_row_item] ∅ total_15).
  - reflexivity.
  - reflexivity.
Defined.


Lemma workbook_no_header_no_items_witness :
  ReconcileExcel.parse_reconciliation_excel ascii_lower no_repr [[total_row]]
  = inr ([], total_15)
  /\ ([] : list ReconcileExcel.item) = [].
Proof.
  split; [reflexivity |].
  apply (workbook_no_header_no_items ascii_lower no_repr [[total_row]] []
           total_15).
  - intros df row Hdf Hrow.
    apply list_elem_of_singleton in Hdf. subst df.
    apply list_elem_of_singleton in Hrow. subst row.
    reflexivity.
  - reflexivity.
Defined.

End ExcelItemFacts.
